(** * Blender-Launcher: the version search query and the build matcher

    A shallow embedding of [source/modules/version_matcher.py]: the
    [BasicBuildInfo] record, the [VersionSearchQuery] grammar (the regular
    expression, [_parse], [parse], [__str__], [__post_init__]) and
    [BInfoMatcher.match], followed by the properties of the specification
    that concern them.

    Conventions of the embedding.
    - A Python [str] is a [string]; a character is a code point below 256.
    - A Python [int] is a [Z]; [int] on a string and [str] on an integer
      keep the limit of CPython on the number of digits, 4300 unless the
      interpreter is told otherwise.
    - A raised exception is the [Raise] branch of [result]; the exception
      carries its class and its message.
    - [datetime.fromisoformat] and [str] on a [datetime] belong to the Python
      library, not to the program: the grammar takes them as section
      variables, and [Iso] gives an executable model of both for the format
      that [isoformat] emits.
    - [semver.Version] belongs to the library [semver]: [Version] holds what
      a version holds and compares versions as the library does, numbers
      first, then prerelease. *)

From Stdlib Require Import ZArith List String Ascii Bool Lia.
From Stdlib Require Import Decimal DecimalFacts DecimalString DecimalZ.
From Stdlib Require Import OrderedTypeEx.
Import ListNotations.

Open Scope string_scope.
Open Scope Z_scope.

(* ===================================================================== *)
(** ** Python runtime: exceptions, values, comparisons *)
(* ===================================================================== *)

Inductive exn : Type :=
| ValueError (msg : string)
| TypeError (msg : string)
| AttributeError (msg : string).

Inductive result (A : Type) : Type :=
| Ok (a : A)
| Raise (e : exn).

Arguments Ok {A} a.
Arguments Raise {A} e.

Definition bind {A B : Type} (c : result A) (k : A -> result B) : result B :=
  match c with
  | Ok a => k a
  | Raise e => Raise e
  end.

Declare Scope py_scope.
Delimit Scope py_scope with py.
Notation "x <- c ;; k" := (bind c (fun x => k))
  (at level 61, c at next level, right associativity) : py_scope.
Notation "c ;;; k" := (bind c (fun _ => k))
  (at level 61, right associativity) : py_scope.
Open Scope py_scope.

Definition is_ValueError {A : Type} (r : result A) : Prop :=
  exists msg, r = Raise (ValueError msg).

Definition is_TypeError {A : Type} (r : result A) : Prop :=
  exists msg, r = Raise (TypeError msg).

Definition returns {A : Type} (r : result A) : Prop :=
  exists a, r = Ok a.

(** The double quote character, for messages that contain it. *)
Definition dq : string := String "034"%char EmptyString.

(** *** Characters *)

Definition code (c : ascii) : Z := Z.of_N (N_of_ascii c).

Definition in_range (lo hi : Z) (c : ascii) : bool :=
  (lo <=? code c) && (code c <=? hi).

Definition is_char (a c : ascii) : bool := Ascii.eqb a c.

(** [0-9]: the only decimal digits below code point 256. *)
Definition is_digit (c : ascii) : bool := in_range 48 57 c.

(** [str.isalnum] on one character, below code point 256: the ASCII letters
    and digits, the Latin-1 letters, and the Latin-1 characters that are
    numeric (superscripts and vulgar fractions). *)
Definition is_alnum (c : ascii) : bool :=
  is_digit c || in_range 65 90 c || in_range 97 122 c
  || (code c =? 170) || (code c =? 181) || (code c =? 186)
  || in_range 192 214 c || in_range 216 246 c || in_range 248 255 c
  || (code c =? 178) || (code c =? 179) || (code c =? 185)
  || in_range 188 190 c.

(** [str.isspace] on one character, below code point 256. *)
Definition is_space (c : ascii) : bool :=
  in_range 9 13 c || in_range 28 32 c || (code c =? 133) || (code c =? 160).

Fixpoint all_chars (p : ascii -> bool) (s : string) : bool :=
  match s with
  | EmptyString => true
  | String c s' => p c && all_chars p s'
  end.

Definition nonempty (s : string) : bool :=
  match s with
  | EmptyString => false
  | String _ _ => true
  end.

(** [str.isnumeric()], for the strings the grammar lets through: at least
    one character, every character a decimal digit. *)
Definition isnumeric (s : string) : bool := nonempty s && all_chars is_digit s.

(** The decimal digits of an integer, with a minus sign when it is
    negative. *)
Definition decimal (z : Z) : string := NilZero.string_of_int (Z.to_int z).

(** [sys.get_int_max_str_digits()]: the conversions between [int] and [str]
    refuse more digits than this. *)
Definition int_max_str_digits : Z := 4300.

Definition str_limit_exceeded : exn :=
  ValueError ("Exceeds the limit (4300 digits) for integer string conversion"
              ++ "; use sys.set_int_max_str_digits() to increase the limit").

Definition int_limit_exceeded (digits : Z) : exn :=
  ValueError ("Exceeds the limit (4300 digits) for integer string conversion"
              ++ ": value has " ++ decimal digits
              ++ " digits; use sys.set_int_max_str_digits() to increase"
              ++ " the limit").

(** [str(n)] for an [int], also what [f"{n}"] gives: the decimal digits,
    unless there are more than [int_max_str_digits] of them (the sign is not
    counted). *)
Definition str_int (z : Z) : result string :=
  let s := decimal z in
  let digits := Z.of_nat (String.length s) - (if z <? 0 then 1 else 0) in
  if int_max_str_digits <? digits
  then Raise str_limit_exceeded
  else Ok s.

(** The number of decimal digits at the head of [s]. *)
Fixpoint leading_digits (s : string) : Z :=
  match s with
  | String c s' => if is_digit c then 1 + leading_digits s' else 0
  | EmptyString => 0
  end.

(** [int(s)]: an optional minus sign and decimal digits.  The digits are
    counted first, leading zeros included, and more than
    [int_max_str_digits] of them are refused before anything is
    converted. *)
Definition int (s : string) : result Z :=
  let body :=
    match s with
    | String c s' => if is_char "-" c then s' else s
    | EmptyString => s
    end in
  let digits := leading_digits body in
  if int_max_str_digits <? digits
  then Raise (int_limit_exceeded digits)
  else
    match NilZero.int_of_string s with
    | Some d => Ok (Z.of_int d)
    | None =>
        Raise (ValueError ("invalid literal for int() with base 10: '"
                           ++ s ++ "'"))
    end.

(** *** [datetime.datetime]

    A datetime is its wall clock reading, in microseconds since the start of
    the proleptic Gregorian ordinal 0, and the UTC offset of its [tzinfo], in
    microseconds; a naive datetime has no offset. *)

Record datetime : Type := mk_datetime {
  wall : Z;
  utcoffset : option Z
}.

Definition aware (d : datetime) : bool :=
  match utcoffset d with
  | Some _ => true
  | None => false
  end.

Definition cannot_compare : exn :=
  TypeError "can't compare offset-naive and offset-aware datetimes".

(** [a == b]: naive datetimes compare their readings, aware ones their
    instants, and a naive one never equals an aware one. *)
Definition datetime_eq (a b : datetime) : bool :=
  match utcoffset a, utcoffset b with
  | None, None => wall a =? wall b
  | Some oa, Some ob => wall a - oa =? wall b - ob
  | _, _ => false
  end.

(** [a < b]: ordering a naive datetime against an aware one raises. *)
Definition datetime_lt (a b : datetime) : result bool :=
  match utcoffset a, utcoffset b with
  | None, None => Ok (wall a <? wall b)
  | Some oa, Some ob => Ok (wall a - oa <? wall b - ob)
  | _, _ => Raise cannot_compare
  end.

Definition datetime_gt (a b : datetime) : result bool := datetime_lt b a.

(** [d.astimezone(utc)]: the same instant read in UTC.  A naive datetime is
    taken to be in the local time of the system, whose offset at a given
    reading is [local_utcoffset]. *)
Definition astimezone_utc (local_utcoffset : Z -> Z) (d : datetime) : datetime :=
  match utcoffset d with
  | Some o => mk_datetime (wall d - o) (Some 0)
  | None => mk_datetime (wall d - local_utcoffset (wall d)) (Some 0)
  end.

(** *** Dynamically typed values

    What [attrgetter] can return on a build or on a query. *)

Inductive value : Type :=
| VInt (z : Z)
| VStr (s : string)
| VTime (d : datetime)
| VNone.

(** [a == b] *)
Definition py_eq (a b : value) : bool :=
  match a, b with
  | VInt x, VInt y => x =? y
  | VStr x, VStr y => String.eqb x y
  | VTime x, VTime y => datetime_eq x y
  | VNone, VNone => true
  | _, _ => false
  end.

Definition not_supported : exn :=
  TypeError "ordering not supported between instances of these types".

(** [a < b] *)
Definition py_lt (a b : value) : result bool :=
  match a, b with
  | VInt x, VInt y => Ok (x <? y)
  | VStr x, VStr y => Ok (String.ltb x y)
  | VTime x, VTime y => datetime_lt x y
  | _, _ => Raise not_supported
  end.

(** [a > b] *)
Definition py_gt (a b : value) : result bool :=
  match a, b with
  | VInt x, VInt y => Ok (y <? x)
  | VStr x, VStr y => Ok (String.ltb y x)
  | VTime x, VTime y => datetime_gt x y
  | _, _ => Raise not_supported
  end.

(** The loop of the builtins [max] and [min] once a first item is held: the
    next item replaces the held one when [better item held]. *)
Fixpoint extremum_from (better : value -> value -> result bool)
    (held : value) (items : list value) : result value :=
  match items with
  | [] => Ok held
  | item :: rest =>
      b <- better item held ;;
      extremum_from better (if b then item else held) rest
  end.

(** [max(items)] *)
Definition py_max (items : list value) : result value :=
  match items with
  | [] => Raise (ValueError "max() arg is an empty sequence")
  | item :: rest => extremum_from py_gt item rest
  end.

(** [min(items)] *)
Definition py_min (items : list value) : result value :=
  match items with
  | [] => Raise (ValueError "min() arg is an empty sequence")
  | item :: rest => extremum_from py_lt item rest
  end.

(** Truth value of an optional string: [None] and [""] are false. *)
Definition truthy (o : option string) : bool :=
  match o with
  | Some s => nonempty s
  | None => false
  end.

(** [x in items], for strings *)
Definition str_in (x : string) (items : list string) : bool :=
  existsb (String.eqb x) items.

Definition mode_symbols : list string := ["^"; "*"; "-"].

(* ===================================================================== *)
(** ** The regular expression engine of [re], as far as the pattern needs *)
(* ===================================================================== *)

Module Re.

(** The constructs that [VERSION_SEARCH_REGEX] is made of. *)
Inductive regex : Type :=
| Class (p : ascii -> bool)        (* one character: a literal or a set *)
| Plus (p : ascii -> bool)         (* set+ , greedy *)
| Cat (r1 r2 : regex)              (* r1 r2 *)
| Alt (r1 r2 : regex)              (* r1|r2 , r1 tried first *)
| Opt (r : regex)                  (* (?:r)? , greedy *)
| Group (n : nat) (r : regex)      (* (r) , capturing group n *)
| Eos.                             (* $ , without re.MULTILINE *)

(** The captured groups, group 1 first; [None] is a group that took no part
    in the match. *)
Definition groups : Type := list (option string).

Fixpoint set_group (n : nat) (v : string) (g : groups) : groups :=
  match n, g with
  | _, [] => []
  | O, _ :: g' => Some v :: g'
  | S n', x :: g' => x :: set_group n' v g'
  end.

(** [m.group(n)] for n >= 1 *)
Definition group (g : groups) (n : nat) : option string :=
  nth (n - 1) g None.

(** The text between position [s] and the later position [s'], both given
    as the remaining input. *)
Definition consumed (s s' : string) : string :=
  substring 0 (String.length s - String.length s') s.

(** [$] matches at the end of the string and just before a newline that is
    the last character. *)
Definition at_end (s : string) : bool :=
  match s with
  | EmptyString => true
  | String c EmptyString => is_char "010" c
  | _ => false
  end.

Section Backtracking.
Context {R : Type}.

(** [set+]: as many characters as possible, giving them back one at a
    time while the rest of the pattern fails. *)
Fixpoint plus (p : ascii -> bool) (s : string)
    (k : string -> option R) : option R :=
  match s with
  | EmptyString => None
  | String c s' =>
      if p c then
        match plus p s' k with
        | Some r => Some r
        | None => k s'
        end
      else None
  end.

(** Backtracking match of [r] at the head of [s], then of the rest of
    the pattern, which is the continuation [k]. *)
Fixpoint run (r : regex) (s : string) (g : groups)
    (k : string -> groups -> option R) : option R :=
  match r with
  | Class p =>
      match s with
      | String c s' => if p c then k s' g else None
      | EmptyString => None
      end
  | Plus p => plus p s (fun s' => k s' g)
  | Cat r1 r2 => run r1 s g (fun s' g' => run r2 s' g' k)
  | Alt r1 r2 =>
      match run r1 s g k with
      | Some res => Some res
      | None => run r2 s g k
      end
  | Opt r1 =>
      match run r1 s g k with
      | Some res => Some res
      | None => k s g
      end
  | Group n r1 =>
      run r1 s g (fun s' g' => k s' (set_group (n - 1) (consumed s s') g'))
  | Eos => if at_end s then k s g else None
  end.
End Backtracking.

(** [re.compile(r).match(s)] for a pattern with [n] groups: the groups of
    the first successful way to match at position 0. *)
Definition match_ (n : nat) (r : regex) (s : string) : option groups :=
  run r s (repeat None n) (fun _ g => Some g).

End Re.

(** The character sets of the pattern. *)

(** [[\^\-\*]] *)
Definition mode_char (c : ascii) : bool :=
  is_char "^" c || is_char "-" c || is_char "*" c.

(** [[^\@\s\+]] *)
Definition branch_char (c : ascii) : bool :=
  negb (is_char "@" c || is_space c || is_char "+" c).

(** [[\d\w]] *)
Definition hash_char (c : ascii) : bool :=
  is_digit c || (is_alnum c || is_char "_" c).

(** [[\dT\+\:Z\ \^\-]] *)
Definition time_char (c : ascii) : bool :=
  is_digit c || is_char "T" c || is_char "+" c || is_char ":" c
  || is_char "Z" c || is_char " " c || is_char "^" c || is_char "-" c.

(** [([\^\-\*]|\d+)] as group [n] *)
Definition number_group (n : nat) : Re.regex :=
  Re.Group n (Re.Alt (Re.Class mode_char) (Re.Plus is_digit)).

(** The pattern, compiled with [re.X]: white space and line breaks of the
    source text are not part of it, and the leading [^] is implied by
    [match]. *)
Definition VERSION_SEARCH_REGEX : Re.regex :=
  Re.Cat (number_group 1)
 (Re.Cat (Re.Class (is_char "."))
 (Re.Cat (number_group 2)
 (Re.Cat (Re.Class (is_char "."))
 (Re.Cat (number_group 3)
 (Re.Cat (Re.Opt (Re.Cat (Re.Class (is_char "-"))
                         (Re.Group 4 (Re.Plus branch_char))))
 (Re.Cat (Re.Opt (Re.Cat (Re.Class (is_char "+"))
                         (Re.Group 5 (Re.Plus hash_char))))
 (Re.Cat (Re.Opt (Re.Cat (Re.Class (is_char "@"))
                         (Re.Group 6 (Re.Alt (Re.Class mode_char)
                                             (Re.Plus time_char)))))
         Re.Eos))))))).

Definition search (s : string) : option Re.groups :=
  Re.match_ 6 VERSION_SEARCH_REGEX s.

(* ===================================================================== *)
(** ** The program *)
(* ===================================================================== *)

(** The attribute names [match] goes through with [attrgetter]. *)
Module Attr.
Inductive t : Type :=
| build_hash | major | minor | patch | branch | commit_time.
End Attr.

(** [semver.Version], of the library [semver], which is not part of the
    repository: the three numbers, the prerelease and the build.  [compare]
    follows [Version.compare] and [Version._nat_cmp] of the library: the
    numbers are compared first, then the prereleases, and the build is not
    looked at.  A numeric identifier of a prerelease is read by [int]; the
    model gives it its value and leaves the limit of [int] on the number of
    digits aside. *)
Module Version.
Record t : Type := make {
  major : Z;
  minor : Z;
  patch : Z;
  prerelease : option string;
  build : option string
}.

(** [Version(major, minor, patch)]: no prerelease and no build. *)
Definition mk (major minor patch : Z) : t :=
  make major minor patch None None.

(** [_cmp(a, b)], that is [(a > b) - (a < b)] *)
Definition cmp_int (a b : Z) : Z :=
  match a ?= b with
  | Lt => -1
  | Eq => 0
  | Gt => 1
  end.

Definition cmp_str (a b : string) : Z :=
  match String.compare a b with
  | Lt => -1
  | Eq => 0
  | Gt => 1
  end.

(** [a.split(".")] *)
Fixpoint split_dot (s : string) : list string :=
  match s with
  | EmptyString => [""]
  | String c s' =>
      if is_char "." c then "" :: split_dot s'
      else
        match split_dot s' with
        | part :: parts => String c part :: parts
        | [] => [String c ""]
        end
  end.

(** An identifier of a prerelease as the library compares it: one that is
    made of decimal digits is turned into an [int], any other is kept as a
    string. *)
Inductive identifier : Type :=
| Number (n : Z)
| Text (x : string).

(** The value of decimal digits. *)
Fixpoint value_of_digits (acc : Z) (s : string) : Z :=
  match s with
  | EmptyString => acc
  | String c s' => value_of_digits (10 * acc + (code c - 48)) s'
  end.

(** The text without the newline that is its last character, if it has
    one: the test for decimal digits lets one final newline follow, and
    [int] does not read it. *)
Fixpoint without_final_newline (s : string) : string :=
  match s with
  | EmptyString => EmptyString
  | String c EmptyString => if is_char "010" c then EmptyString else s
  | String c s' => String c (without_final_newline s')
  end.

Definition identifier_of (x : string) : identifier :=
  let d := without_final_newline x in
  if isnumeric d then Number (value_of_digits 0 d) else Text x.

Definition cmp_prerelease_tag (a b : identifier) : Z :=
  match a, b with
  | Number x, Number y => cmp_int x y
  | Number _, Text _ => -1
  | Text _, Number _ => 1
  | Text x, Text y => cmp_str x y
  end.

(** The loop over [zip(a_parts, b_parts)]; [otherwise] is the value of its
    [else] branch. *)
Fixpoint cmp_parts (a_parts b_parts : list identifier) (otherwise : Z) : Z :=
  match a_parts, b_parts with
  | sub_a :: a_rest, sub_b :: b_rest =>
      let cmp_result := cmp_prerelease_tag sub_a sub_b in
      if negb (cmp_result =? 0) then cmp_result
      else cmp_parts a_rest b_rest otherwise
  | _, _ => otherwise
  end.

(** [Version._nat_cmp(a, b)] *)
Definition _nat_cmp (a b : option string) : Z :=
  let a := match a with Some x => x | None => "" end in
  let b := match b with Some x => x | None => "" end in
  cmp_parts (map identifier_of (split_dot a)) (map identifier_of (split_dot b))
            (cmp_int (Z.of_nat (String.length a)) (Z.of_nat (String.length b))).

(** [_cmp] on the tuples [(major, minor, patch)] *)
Definition cmp_numbers (a b : t) : Z :=
  if negb (major a =? major b) then cmp_int (major a) (major b)
  else if negb (minor a =? minor b) then cmp_int (minor a) (minor b)
  else cmp_int (patch a) (patch b).

(** [self.compare(other)] *)
Definition compare (self other : t) : Z :=
  let x := cmp_numbers self other in
  if negb (x =? 0) then x
  else
    let rccmp := _nat_cmp (prerelease self) (prerelease other) in
    if rccmp =? 0 then 0
    else if negb (truthy (prerelease self)) then 1
    else if negb (truthy (prerelease other)) then -1
    else rccmp.

(** [self == other] *)
Definition eqb (a b : t) : bool := compare a b =? 0.

(** [self < other] *)
Definition ltb (a b : t) : bool := compare a b <? 0.
End Version.

Module BuildInfo.
(** Modelled from the spec: the upstream build metadata
    [modules.build_info.BuildInfo], which is not among the sources; only the
    four attributes that [from_buildinfo] reads are kept. *)
Record t : Type := mk {
  full_semversion : Version.t;
  branch : string;
  build_hash : option string;
  commit_time : datetime
}.
End BuildInfo.

Module BasicBuildInfo.
Record t : Type := mk {
  version : Version.t;
  branch : string;
  build_hash : string;
  commit_time : datetime
}.

Definition major (self : t) : Z := Version.major (version self).
Definition minor (self : t) : Z := Version.minor (version self).
Definition patch (self : t) : Z := Version.patch (version self).

(** [__lt__] *)
Definition lt (self other : t) : result bool :=
  if Version.eqb (version self) (version other)
  then datetime_lt (commit_time self) (commit_time other)
  else Ok (Version.ltb (version self) (version other)).

Section FromBuildInfo.
(** The UTC offset of the system's local time at a wall clock reading;
    [astimezone] uses it for a naive datetime. *)
Variable local_utcoffset : Z -> Z.

Definition from_buildinfo (buildinfo : BuildInfo.t) : t :=
  mk (BuildInfo.full_semversion buildinfo)
     (BuildInfo.branch buildinfo)
     (match BuildInfo.build_hash buildinfo with
      | Some h => h
      | None => ""
      end)
     (astimezone_utc local_utcoffset (BuildInfo.commit_time buildinfo)).
End FromBuildInfo.

(** [attrgetter(place)(v)] *)
Definition getattr (place : Attr.t) (v : t) : value :=
  match place with
  | Attr.build_hash => VStr (build_hash v)
  | Attr.major => VInt (major v)
  | Attr.minor => VInt (minor v)
  | Attr.patch => VInt (patch v)
  | Attr.branch => VStr (branch v)
  | Attr.commit_time => VTime (commit_time v)
  end.
End BasicBuildInfo.

(** A field that holds an [int] or a [str]. *)
Definition int_or_str : Type := (Z + string)%type.

(** A field that holds a [datetime] or a [str]. *)
Definition time_or_str : Type := (datetime + string)%type.

Definition value_of_number (x : int_or_str) : value :=
  match x with
  | inl z => VInt z
  | inr s => VStr s
  end.

Definition value_of_time (x : time_or_str) : value :=
  match x with
  | inl d => VTime d
  | inr s => VStr s
  end.

Definition value_of_optional (x : option string) : value :=
  match x with
  | Some s => VStr s
  | None => VNone
  end.

(** What [_parse] returns: major, minor, patch, branch, build_hash,
    commit_time. *)
Definition parsed : Type :=
  (int_or_str * int_or_str * int_or_str
   * option string * option string * time_or_str)%type.

Section Parse.
(** [datetime.datetime.fromisoformat]; [None] stands for its
    [ValueError]. *)
Variable fromisoformat : string -> option datetime.

(** [if x.isnumeric(): x = int(x)], on a group of the match; calling a
    method on a group that took no part in the match raises. *)
Definition number_of_group (x : option string) : result int_or_str :=
  match x with
  | None =>
      Raise (AttributeError "'NoneType' object has no attribute 'isnumeric'")
  | Some tok =>
      if isnumeric tok then (n <- int tok ;; Ok (inl n)) else Ok (inr tok)
  end.

Definition _parse (s : string) : result parsed :=
  match search s with
  | None => Raise (ValueError ("Invalid version search query: " ++ s))
  | Some m =>
      let major := Re.group m 1 in
      let minor := Re.group m 2 in
      let patch := Re.group m 3 in
      let branch := Re.group m 4 in
      let build_hash := Re.group m 5 in
      let commit_time :=
        match Re.group m 6 with
        | None => "^"
        | Some tok => tok
        end in
      major <- number_of_group major ;;
      minor <- number_of_group minor ;;
      patch <- number_of_group patch ;;
      let commit_time : time_or_str :=
        if negb (str_in commit_time mode_symbols) then
          match fromisoformat commit_time with
          | Some d => inl d
          | None => inr commit_time
          end
        else inr commit_time in
      Ok (major, minor, patch, branch, build_hash, commit_time)
  end.
End Parse.

Module VersionSearchQuery.
Record t : Type := mk {
  major : int_or_str;
  minor : int_or_str;
  patch : int_or_str;
  branch : option string;
  build_hash : option string;
  commit_time : time_or_str
}.

Definition must_be_symbol (pos : string) : exn :=
  ValueError (pos ++ " must be in ["
              ++ dq ++ "^" ++ dq ++ ", "
              ++ dq ++ "*" ++ dq ++ ", "
              ++ dq ++ "-" ++ dq ++ "]").

(** The loop over [(major, minor, patch, commit_time)]. *)
Fixpoint check_positions (positions : list value) : result unit :=
  match positions with
  | [] => Ok tt
  | VStr pos :: rest =>
      if negb (str_in pos mode_symbols)
      then Raise (must_be_symbol pos)
      else check_positions rest
  | _ :: rest => check_positions rest
  end.

Definition __post_init__ (self : t) : result unit :=
  check_positions [value_of_number (major self);
                   value_of_number (minor self);
                   value_of_number (patch self);
                   value_of_time (commit_time self)] ;;;
  (if truthy (build_hash self)
      && str_in (match build_hash self with Some h => h | None => "" end)
                ["^"; "-"]
   then Raise (ValueError "build_hash cannot be temporally matched")
   else Ok tt) ;;;
  (if truthy (branch self)
      && str_in (match branch self with Some b => b | None => "" end)
                ["^"; "-"]
   then Raise (ValueError "branch cannot be temporally matched")
   else Ok tt).

(** The constructor of the dataclass: the fields are stored, then
    [__post_init__] runs. *)
Definition new (major minor patch : int_or_str)
    (branch build_hash : option string) (commit_time : time_or_str)
    : result t :=
  let self := mk major minor patch branch build_hash commit_time in
  __post_init__ self ;;; Ok self.

Definition default : result t :=
  new (inr "^") (inr "^") (inr "^") None None (inr "^").

Definition with_branch (self : t) (branch : option string) : result t :=
  new (major self) (minor self) (patch self)
      branch (build_hash self) (commit_time self).

Definition with_build_hash (self : t) (build_hash : option string)
    : result t :=
  new (major self) (minor self) (patch self)
      (branch self) build_hash (commit_time self).

Definition with_commit_time (self : t) (commit_time : time_or_str)
    : result t :=
  new (major self) (minor self) (patch self)
      (branch self) (build_hash self) commit_time.

(** The [__eq__] of the dataclass: the tuples of fields are compared. *)
Definition eqb (a b : t) : bool :=
  py_eq (value_of_number (major a)) (value_of_number (major b))
  && py_eq (value_of_number (minor a)) (value_of_number (minor b))
  && py_eq (value_of_number (patch a)) (value_of_number (patch b))
  && py_eq (value_of_optional (branch a)) (value_of_optional (branch b))
  && py_eq (value_of_optional (build_hash a))
           (value_of_optional (build_hash b))
  && py_eq (value_of_time (commit_time a)) (value_of_time (commit_time b)).

(** [attrgetter(place)(s)] *)
Definition getattr (place : Attr.t) (s : t) : value :=
  match place with
  | Attr.build_hash => value_of_optional (build_hash s)
  | Attr.major => value_of_number (major s)
  | Attr.minor => value_of_number (minor s)
  | Attr.patch => value_of_number (patch s)
  | Attr.branch => value_of_optional (branch s)
  | Attr.commit_time => value_of_time (commit_time s)
  end.

Section Grammar.
Variable fromisoformat : string -> option datetime.

(** [str(d)] for a [datetime]: [d.isoformat(sep=' ')]. *)
Variable str_datetime : datetime -> string.

Definition parse (s : string) : result t :=
  p <- _parse fromisoformat s ;;
  let '(major, minor, patch, branch, build_hash, commit_time) := p in
  new major minor patch branch build_hash commit_time.

(** [f"{x}"] for a number field *)
Definition format_number (x : int_or_str) : result string :=
  match x with
  | inl z => str_int z
  | inr s => Ok s
  end.

(** [f"{x}"] for the commit time *)
Definition format_time (x : time_or_str) : string :=
  match x with
  | inl d => str_datetime d
  | inr s => s
  end.

(** Truth value of the commit time: a datetime is always true. *)
Definition truthy_time (x : time_or_str) : bool :=
  match x with
  | inl _ => true
  | inr s => nonempty s
  end.

(** [__str__] *)
Definition str (self : t) : result string :=
  major_text <- format_number (major self) ;;
  minor_text <- format_number (minor self) ;;
  patch_text <- format_number (patch self) ;;
  let s := major_text ++ "." ++ minor_text ++ "." ++ patch_text in
  let s :=
    match branch self with
    | Some b => if nonempty b then s ++ ("-" ++ b) else s
    | None => s
    end in
  let s :=
    match build_hash self with
    | Some h => if nonempty h then s ++ ("+" ++ h) else s
    | None => s
    end in
  let s :=
    if truthy_time (commit_time self)
    then s ++ ("@" ++ format_time (commit_time self))
    else s in
  Ok s.
End Grammar.
End VersionSearchQuery.

Module BInfoMatcher.
Record t : Type := mk { versions : list BasicBuildInfo.t }.

(** How one turn of the loop ends: the next turn starts with the given
    candidates, or the function returns. *)
Inductive flow : Type :=
| Next (versions : list BasicBuildInfo.t)
| Return (r : list BasicBuildInfo.t).

(** [if not versions: return ()] at the end of a turn. *)
Definition end_of_turn (versions : list BasicBuildInfo.t) : flow :=
  match versions with
  | [] => Return []
  | _ => Next versions
  end.

Definition keep (place : Attr.t) (p : value)
    (versions : list BasicBuildInfo.t) : list BasicBuildInfo.t :=
  filter (fun v => py_eq (BasicBuildInfo.getattr place v) p) versions.

(** The body of the loop, for one [place]. *)
Definition turn (s : VersionSearchQuery.t) (place : Attr.t)
    (versions : list BasicBuildInfo.t) : result flow :=
  let p := VersionSearchQuery.getattr place s in
  if py_eq p (VStr "^") then
    max_p <- py_max (map (BasicBuildInfo.getattr place) versions) ;;
    Ok (end_of_turn (keep place max_p versions))
  else if py_eq p (VStr "*") || py_eq p VNone then
    Ok (Next versions)
  else if py_eq p (VStr "-") then
    min_p <- py_min (map (BasicBuildInfo.getattr place) versions) ;;
    Ok (end_of_turn (keep place min_p versions))
  else
    Ok (end_of_turn (keep place p versions)).

(** The [for] loop over the remaining places. *)
Fixpoint loop (s : VersionSearchQuery.t) (places : list Attr.t)
    (versions : list BasicBuildInfo.t) : result (list BasicBuildInfo.t) :=
  match places with
  | [] => Ok versions
  | place :: rest =>
      f <- turn s place versions ;;
      match f with
      | Next versions' => loop s rest versions'
      | Return r => Ok r
      end
  end.

Definition places : list Attr.t :=
  [Attr.build_hash; Attr.major; Attr.minor; Attr.patch;
   Attr.branch; Attr.commit_time].

Definition match_ (self : t) (s : VersionSearchQuery.t)
    : result (list BasicBuildInfo.t) :=
  loop s places (versions self).
End BInfoMatcher.

(* ===================================================================== *)
(** ** An executable model of the library's ISO 8601 text for datetimes *)
(* ===================================================================== *)

(** [Iso.str] follows [datetime.isoformat(sep=' ')] and [Iso.fromisoformat]
    reads back the texts of that shape (date, any one separator character,
    [HH:MM:SS], an optional six digit fraction, an optional [+HH:MM] or
    [-HH:MM] offset) and the date alone; it refuses every other text.  The
    general statements below do not depend on this model: they hold for any
    library behaviour.  The model serves to run the program on concrete
    inputs. *)
Module Iso.

Definition is_leap (year : Z) : bool :=
  (year mod 4 =? 0) && (negb (year mod 100 =? 0) || (year mod 400 =? 0)).

Definition days_before_year (year : Z) : Z :=
  let y := year - 1 in y * 365 + y / 4 - y / 100 + y / 400.

Definition days_in_month (year month : Z) : Z :=
  if (month =? 2) && is_leap year then 29
  else nth (Z.to_nat month) [0; 31; 28; 31; 30; 31; 30; 31; 31; 30; 31; 30; 31] 0.

Definition days_before_month (year month : Z) : Z :=
  nth (Z.to_nat month)
      [0; 0; 31; 59; 90; 120; 151; 181; 212; 243; 273; 304; 334] 0
  + (if (2 <? month) && is_leap year then 1 else 0).

Definition ymd2ord (year month day : Z) : Z :=
  days_before_year year + days_before_month year month + day.

Definition us_per_second : Z := 1000000.
Definition us_per_day : Z := 86400 * us_per_second.

(** [datetime.datetime(year, month, day, hour, minute, second,
    microsecond, tzinfo)], the offset of [tzinfo] given in seconds. *)
Definition datetime_of (year month day hour minute second microsecond : Z)
    (tz_seconds : option Z) : datetime :=
  mk_datetime
    ((((ymd2ord year month day * 24 + hour) * 60 + minute) * 60 + second)
     * us_per_second + microsecond)
    (option_map (fun o => o * us_per_second) tz_seconds).

Definition utc : option Z := Some 0.

(** Ordinal to (year, month, day) *)
Definition ord2ymd (ordinal : Z) : Z * Z * Z :=
  let n := ordinal - 1 in
  let n400 := n / 146097 in
  let n := n mod 146097 in
  let n100 := n / 36524 in
  let n := n mod 36524 in
  let n4 := n / 1461 in
  let n := n mod 1461 in
  let n1 := n / 365 in
  let n := n mod 365 in
  let year := n400 * 400 + 1 + n100 * 100 + n4 * 4 + n1 in
  if (n1 =? 4) || (n100 =? 4) then (year - 1, 12, 31)
  else
    let leapyear := (n1 =? 3) && (negb (n4 =? 24) || (n100 =? 3)) in
    let month := (n + 50) / 32 in
    let preceding :=
      nth (Z.to_nat month)
          [0; 0; 31; 59; 90; 120; 151; 181; 212; 243; 273; 304; 334] 0
      + (if (2 <? month) && leapyear then 1 else 0) in
    if n <? preceding then
      let month := month - 1 in
      let preceding :=
        preceding
        - (nth (Z.to_nat month)
               [0; 31; 28; 31; 30; 31; 30; 31; 31; 30; 31; 30; 31] 0
           + (if (month =? 2) && leapyear then 1 else 0)) in
      (year, month, n - preceding + 1)
    else (year, month, n - preceding + 1).

Fixpoint zeros (n : nat) : string :=
  match n with
  | O => ""
  | S n' => String "0" (zeros n')
  end.

(** ["%0wd" % n] for a natural [n] *)
Definition pad (w : nat) (n : Z) : string :=
  let s := decimal n in
  zeros (w - String.length s) ++ s.

Definition format_offset (off : Z) : string :=
  let sign := if off <? 0 then "-" else "+" in
  let off := Z.abs off in
  let hh := off / (3600 * us_per_second) in
  let r := off mod (3600 * us_per_second) in
  let mm := r / (60 * us_per_second) in
  let r := r mod (60 * us_per_second) in
  let ss := r / us_per_second in
  let us := r mod us_per_second in
  sign ++ pad 2 hh ++ ":" ++ pad 2 mm
  ++ (if negb (r =? 0) then ":" ++ pad 2 ss else "")
  ++ (if negb (us =? 0) then "." ++ pad 6 us else "").

(** [str(d)] *)
Definition str (d : datetime) : string :=
  let days := wall d / us_per_day in
  let r := wall d mod us_per_day in
  let '(year, month, day) := ord2ymd days in
  let us := r mod us_per_second in
  let r := r / us_per_second in
  let second := r mod 60 in
  let r := r / 60 in
  let minute := r mod 60 in
  let hour := r / 60 in
  pad 4 year ++ "-" ++ pad 2 month ++ "-" ++ pad 2 day ++ " "
  ++ pad 2 hour ++ ":" ++ pad 2 minute ++ ":" ++ pad 2 second
  ++ (if negb (us =? 0) then "." ++ pad 6 us else "")
  ++ match utcoffset d with
     | Some off => format_offset off
     | None => ""
     end.

(** Exactly [n] decimal digits at the head of [s]: their value and the
    rest of [s]. *)
Fixpoint digits (n : nat) (acc : Z) (s : string) : option (Z * string) :=
  match n with
  | O => Some (acc, s)
  | S n' =>
      match s with
      | String c s' =>
          if is_digit c then digits n' (10 * acc + (code c - 48)) s'
          else None
      | EmptyString => None
      end
  end.

(** The character [c] at the head of [s]: the rest of [s]. *)
Definition expect (c : ascii) (s : string) : option string :=
  match s with
  | String c' s' => if is_char c c' then Some s' else None
  | EmptyString => None
  end.

Definition obind {A B : Type} (o : option A) (k : A -> option B)
    : option B :=
  match o with
  | Some a => k a
  | None => None
  end.

(** [YYYY-MM-DD] *)
Definition parse_date (s : string) : option (Z * string) :=
  obind (digits 4 0 s) (fun '(year, s) =>
  obind (expect "-" s) (fun s =>
  obind (digits 2 0 s) (fun '(month, s) =>
  obind (expect "-" s) (fun s =>
  obind (digits 2 0 s) (fun '(day, s) =>
  if (1 <=? year) && (1 <=? month) && (month <=? 12)
     && (1 <=? day) && (day <=? days_in_month year month)
  then Some (ymd2ord year month day, s)
  else None))))).

(** [HH:MM:SS] and an optional [.ffffff], in microseconds *)
Definition parse_clock (s : string) : option (Z * string) :=
  obind (digits 2 0 s) (fun '(hour, s) =>
  obind (expect ":" s) (fun s =>
  obind (digits 2 0 s) (fun '(minute, s) =>
  obind (expect ":" s) (fun s =>
  obind (digits 2 0 s) (fun '(second, s) =>
  if (hour <? 24) && (minute <? 60) && (second <? 60) then
    let base := ((hour * 60 + minute) * 60 + second) * us_per_second in
    match s with
    | String "." s' =>
        obind (digits 6 0 s') (fun '(us, s) => Some (base + us, s))
    | _ => Some (base, s)
    end
  else None))))).

(** [+HH:MM] or [-HH:MM] up to the end of the text *)
Definition parse_offset (s : string) : option (option Z) :=
  match s with
  | EmptyString => Some None
  | String c s' =>
      if is_char "+" c || is_char "-" c then
        obind (digits 2 0 s') (fun '(hh, s) =>
        obind (expect ":" s) (fun s =>
        obind (digits 2 0 s) (fun '(mm, s) =>
        match s with
        | EmptyString =>
            if (hh <? 24) && (mm <? 60) then
              let off := (hh * 60 + mm) * 60 * us_per_second in
              Some (Some (if is_char "-" c then - off else off))
            else None
        | _ => None
        end)))
      else None
  end.

Definition fromisoformat (s : string) : option datetime :=
  obind (parse_date s) (fun '(ordinal, s) =>
  match s with
  | EmptyString => Some (mk_datetime (ordinal * us_per_day) None)
  | String _ s' =>
      obind (parse_clock s') (fun '(clock, s) =>
      obind (parse_offset s) (fun tz =>
      Some (mk_datetime (ordinal * us_per_day + clock) tz)))
  end).

End Iso.

(* ===================================================================== *)
(** ** The notions the properties are stated with *)
(* ===================================================================== *)

(** *** Matching *)

(** [m] is the largest value of the field [place] among the candidates:
    some candidate has it, and no candidate has a greater one. *)
Definition is_maximum (place : Attr.t) (cur : list BasicBuildInfo.t)
    (m : value) : Prop :=
  (exists v, In v cur /\ BasicBuildInfo.getattr place v = m)
  /\ forall v, In v cur -> py_gt (BasicBuildInfo.getattr place v) m = Ok false.

(** [m] is the smallest value of the field [place] among the candidates. *)
Definition is_minimum (place : Attr.t) (cur : list BasicBuildInfo.t)
    (m : value) : Prop :=
  (exists v, In v cur /\ BasicBuildInfo.getattr place v = m)
  /\ forall v, In v cur -> py_lt (BasicBuildInfo.getattr place v) m = Ok false.

(** The candidates whose field [place] equals [p], in their order. *)
Definition with_field (place : Attr.t) (p : value)
    (cur : list BasicBuildInfo.t) : list BasicBuildInfo.t :=
  filter (fun v => py_eq (BasicBuildInfo.getattr place v) p) cur.

(** A value of a query field that asks for an exact match. *)
Definition literal (p : value) : Prop :=
  p <> VStr "^" /\ p <> VStr "*" /\ p <> VStr "-" /\ p <> VNone.

(** One step of the progressive narrowing of the specification: what the
    field [place] of the query [s] keeps of the current candidates. *)
Inductive narrows (s : VersionSearchQuery.t) (place : Attr.t)
    (cur : list BasicBuildInfo.t) : list BasicBuildInfo.t -> Prop :=
| narrows_any :
    VersionSearchQuery.getattr place s = VStr "*"
    \/ VersionSearchQuery.getattr place s = VNone ->
    narrows s place cur cur
| narrows_max (m : value) :
    VersionSearchQuery.getattr place s = VStr "^" ->
    is_maximum place cur m ->
    narrows s place cur (with_field place m cur)
| narrows_min (m : value) :
    VersionSearchQuery.getattr place s = VStr "-" ->
    is_minimum place cur m ->
    narrows s place cur (with_field place m cur)
| narrows_exact :
    literal (VersionSearchQuery.getattr place s) ->
    narrows s place cur
            (with_field place (VersionSearchQuery.getattr place s) cur)
| narrows_empty :
    cur = [] ->
    narrows s place cur [].

(** The narrowing along a list of places, each step starting from what the
    step before kept. *)
Inductive narrows_along (s : VersionSearchQuery.t)
    : list Attr.t -> list BasicBuildInfo.t -> list BasicBuildInfo.t -> Prop :=
| along_nil cur : narrows_along s [] cur cur
| along_cons place rest cur mid out :
    narrows s place cur mid ->
    narrows_along s rest mid out ->
    narrows_along s (place :: rest) cur out.

(** The commit times of the catalog can be ordered against each other: they
    are all aware, or all naive. *)
Definition comparable_times (versions : list BasicBuildInfo.t) : Prop :=
  (forall v, In v versions -> aware (BasicBuildInfo.commit_time v) = true)
  \/ (forall v, In v versions -> aware (BasicBuildInfo.commit_time v) = false).

(** The query asks for the newest or for the oldest commit time. *)
Definition orders_commit_time (s : VersionSearchQuery.t) : Prop :=
  VersionSearchQuery.commit_time s = inr "^"
  \/ VersionSearchQuery.commit_time s = inr "-".

(** The loop reaches the places after [before] with the candidates [cur]:
    every turn over [before] ended with a next turn. *)
Inductive reaches (s : VersionSearchQuery.t)
    : list Attr.t -> list BasicBuildInfo.t -> list BasicBuildInfo.t -> Prop :=
| reaches_start versions : reaches s [] versions versions
| reaches_turn place before versions cur cur' :
    BInfoMatcher.turn s place versions = Ok (BInfoMatcher.Next cur) ->
    reaches s before cur cur' ->
    reaches s (place :: before) versions cur'.

(** The filtering step of [place] on the candidates [cur] keeps [kept]. *)
Inductive filters_to (s : VersionSearchQuery.t) (place : Attr.t)
    (cur : list BasicBuildInfo.t) : list BasicBuildInfo.t -> Prop :=
| filters_max m :
    VersionSearchQuery.getattr place s = VStr "^" ->
    py_max (map (BasicBuildInfo.getattr place) cur) = Ok m ->
    filters_to s place cur (with_field place m cur)
| filters_min m :
    VersionSearchQuery.getattr place s = VStr "-" ->
    py_min (map (BasicBuildInfo.getattr place) cur) = Ok m ->
    filters_to s place cur (with_field place m cur)
| filters_exact :
    literal (VersionSearchQuery.getattr place s) ->
    filters_to s place cur
               (with_field place (VersionSearchQuery.getattr place s) cur).

(** The kinds of values that Python can order among themselves: integers,
    strings, aware datetimes, naive datetimes.  [None] is ordered against
    nothing. *)
Inductive kind : Type := KInt | KStr | KAware | KNaive | KNone.

Definition kind_of (v : value) : kind :=
  match v with
  | VInt _ => KInt
  | VStr _ => KStr
  | VTime d => if aware d then KAware else KNaive
  | VNone => KNone
  end.

(** *** Construction *)

(** A field breaks the invariants of a query: a number field or the commit
    time is a string other than a mode symbol, or the build hash or the
    branch, present and not empty, is [^] or [-]. *)
Definition invalid_fields (q : VersionSearchQuery.t) : Prop :=
  (exists pos,
      (VersionSearchQuery.major q = inr pos
       \/ VersionSearchQuery.minor q = inr pos
       \/ VersionSearchQuery.patch q = inr pos
       \/ VersionSearchQuery.commit_time q = inr pos)
      /\ ~ In pos mode_symbols)
  \/ (exists h,
         VersionSearchQuery.build_hash q = Some h
         /\ h <> "" /\ (h = "^" \/ h = "-"))
  \/ (exists b,
         VersionSearchQuery.branch q = Some b
         /\ b <> "" /\ (b = "^" \/ b = "-")).

(** *** The texts that the pattern accepts

    [reads_as] and [in_grammar] describe, without the engine, the texts that
    [VERSION_SEARCH_REGEX] matches and the groups it gives: they are on the
    side of the code.  The grammar in the words of the specification is
    [spec_grammar], further down. *)

(** A token of a number field: a mode symbol or decimal digits. *)
Definition number_token (tok : string) : Prop :=
  In tok mode_symbols \/ isnumeric tok = true.

(** A token made of characters of one set, at least one. *)
Definition token_of (p : ascii -> bool) (tok : string) : Prop :=
  nonempty tok = true /\ all_chars p tok = true.

(** An optional part of the text: the separator and the token, or
    nothing. *)
Definition optional_part (sep : string) (tok : option string) : string :=
  match tok with
  | Some x => sep ++ x
  | None => ""
  end.

Definition optional_token (p : ascii -> bool) (tok : option string) : Prop :=
  match tok with
  | Some x => token_of p x
  | None => True
  end.

(** A commit time token: a mode symbol or characters of the time set. *)
Definition time_token (tok : string) : Prop :=
  In tok mode_symbols \/ token_of time_char tok.

(** The text [rest] does not begin with a character of the set [p]: a
    greedy [p+] before it cannot take more. *)
Definition stops (p : ascii -> bool) (rest : string) : Prop :=
  match rest with
  | EmptyString => True
  | String c _ => p c = false
  end.

(** The text [s] splits into tokens of the character sets of the pattern,
    which are the groups [m]: the three number tokens separated by dots,
    then the optional branch, build hash and commit time, each after its
    separator; [$] lets one final newline follow. *)
Definition reads_as (s : string) (m : Re.groups) : Prop :=
  exists major minor patch branch build_hash commit_time tail,
    number_token major /\ number_token minor /\ number_token patch
    /\ optional_token branch_char branch
    /\ optional_token hash_char build_hash
    /\ match commit_time with Some tok => time_token tok | None => True end
    /\ (tail = "" \/ tail = String "010" "")
    /\ s = major ++ "." ++ minor ++ "." ++ patch
           ++ optional_part "-" branch
           ++ optional_part "+" build_hash
           ++ optional_part "@" commit_time
           ++ tail
    /\ m = [Some major; Some minor; Some patch;
            branch; build_hash; commit_time].

(** The texts that the pattern accepts. *)
Definition in_grammar (s : string) : Prop := exists m, reads_as s m.

(** *** The grammar of the specification

    The canonical textual form in the words of the specification:
    [<major>.<minor>.<patch>[-<branch>][+<build_hash>][@<commit_time>]],
    matched in full, anchored at both ends.  A number is a non-negative
    integer literal or one of [^ * -]; a branch is any run of characters
    excluding [@], white space and [+]; a build hash is an alphanumeric
    token; a commit time is one of [^ * -] or an ISO 8601 timestamp: date,
    [T] or space, time, and [Z] or an explicit offset. *)

Definition digits_of_length (n : nat) (tok : string) : Prop :=
  String.length tok = n /\ all_chars is_digit tok = true.

Definition iso_offset (offset : string) : Prop :=
  offset = "Z"
  \/ exists sign hh mm,
       (sign = "+" \/ sign = "-")
       /\ digits_of_length 2 hh /\ digits_of_length 2 mm
       /\ offset = sign ++ hh ++ ":" ++ mm.

Definition iso_timestamp (tok : string) : Prop :=
  exists year month day sep hour minute second offset,
    digits_of_length 4 year /\ digits_of_length 2 month
    /\ digits_of_length 2 day
    /\ (sep = "T" \/ sep = " ")
    /\ digits_of_length 2 hour /\ digits_of_length 2 minute
    /\ digits_of_length 2 second
    /\ iso_offset offset
    /\ tok = year ++ "-" ++ month ++ "-" ++ day ++ sep
             ++ hour ++ ":" ++ minute ++ ":" ++ second ++ offset.

Definition spec_commit_time (tok : string) : Prop :=
  In tok mode_symbols \/ iso_timestamp tok.

Definition spec_grammar (s : string) : Prop :=
  exists major minor patch branch build_hash commit_time,
    number_token major /\ number_token minor /\ number_token patch
    /\ optional_token branch_char branch
    /\ optional_token is_alnum build_hash
    /\ match commit_time with
       | Some tok => spec_commit_time tok
       | None => True
       end
    /\ s = major ++ "." ++ minor ++ "." ++ patch
           ++ optional_part "-" branch
           ++ optional_part "+" build_hash
           ++ optional_part "@" commit_time.

(** *** The limit of [int] on the number tokens *)

(** The token has at most [int_max_str_digits] characters. *)
Definition within_limit (tok : string) : Prop :=
  Z.of_nat (String.length tok) <= int_max_str_digits.

(** The three number tokens of a match are within the limit. *)
Definition numbers_within_limit (m : Re.groups) : Prop :=
  forall n tok,
    In n [1; 2; 3]%nat -> Re.group m n = Some tok -> within_limit tok.

(** *** Queries that their text gives back *)

(** An integer field is not negative. *)
Definition writable_number (x : int_or_str) : Prop :=
  match x with
  | inl z => 0 <= z
  | inr _ => True
  end.

Section Writable.
Variable fromisoformat : string -> option datetime.
Variable str_datetime : datetime -> string.

(** The text of a timestamp is made of characters of the time set, is not
    a mode symbol, and is read back as an equal timestamp. *)
Definition writable_time (x : time_or_str) : Prop :=
  match x with
  | inl d =>
      token_of time_char (str_datetime d)
      /\ ~ In (str_datetime d) mode_symbols
      /\ exists d', fromisoformat (str_datetime d) = Some d'
                    /\ datetime_eq d' d = true
  | inr _ => True
  end.

(** The fields of the query are in the sets of the grammar. *)
Definition writable (q : VersionSearchQuery.t) : Prop :=
  writable_number (VersionSearchQuery.major q)
  /\ writable_number (VersionSearchQuery.minor q)
  /\ writable_number (VersionSearchQuery.patch q)
  /\ optional_token branch_char (VersionSearchQuery.branch q)
  /\ optional_token hash_char (VersionSearchQuery.build_hash q)
  /\ writable_time (VersionSearchQuery.commit_time q).
End Writable.

(** *** Further notions about matching *)

(** A value of a query field that filters nothing. *)
Definition wildcard (p : value) : Prop := p = VStr "*" \/ p = VNone.

(** The candidates that a turn of the loop hands on, to the next turn or as
    the result. *)
Definition payload (f : BInfoMatcher.flow) : list BasicBuildInfo.t :=
  match f with
  | BInfoMatcher.Next versions => versions
  | BInfoMatcher.Return r => r
  end.

(** The value of the first field of the query, in the order of the places,
    that is not a wildcard. *)
Fixpoint first_filter (s : VersionSearchQuery.t) (places : list Attr.t)
    : option value :=
  match places with
  | [] => None
  | place :: rest =>
      let p := VersionSearchQuery.getattr place s in
      if py_eq p (VStr "*") || py_eq p VNone
      then first_filter s rest
      else Some p
  end.

(** The builds have equal values of a field. *)
Definition agree (place : Attr.t) (r : list BasicBuildInfo.t) : Prop :=
  forall v w, In v r -> In w r ->
    py_eq (BasicBuildInfo.getattr place v) (BasicBuildInfo.getattr place w)
    = true.




(** *** Further notions about the text of a query *)

(** The newline character as a text. *)
Definition newline : string := String "010" "".

(** The text holds no newline. *)
Definition no_newline (s : string) : bool :=
  all_chars (fun c => negb (is_char "010" c)) s.

Fixpoint last_char (s : string) : option ascii :=
  match s with
  | EmptyString => None
  | String c EmptyString => Some c
  | String _ s' => last_char s'
  end.

(** The text does not end with a newline. *)
Definition no_final_newline (s : string) : Prop :=
  last_char s <> Some "010"%char.

(** No character set of the pattern holds the newline. *)
Fixpoint newline_free (r : Re.regex) : Prop :=
  match r with
  | Re.Class p => p "010"%char = false
  | Re.Plus p => p "010"%char = false
  | Re.Cat r1 r2 => newline_free r1 /\ newline_free r2
  | Re.Alt r1 r2 => newline_free r1 /\ newline_free r2
  | Re.Opt r1 => newline_free r1
  | Re.Group _ r1 => newline_free r1
  | Re.Eos => True
  end.

(** The commit time token of a match can be made a commit time: there is
    none, or it is a mode symbol, or [fromisoformat] reads it. *)
Definition time_is_read (fromisoformat : string -> option datetime)
    (tok : option string) : Prop :=
  match tok with
  | None => True
  | Some x => In x mode_symbols \/ fromisoformat x <> None
  end.

(** *** The round trip

    [VersionSearchQuery.parse(str(q))], as the serialization test writes
    it. *)
Definition round_trip (fromisoformat : string -> option datetime)
    (str_datetime : datetime -> string) (q : VersionSearchQuery.t)
    : result VersionSearchQuery.t :=
  text <- VersionSearchQuery.str str_datetime q ;;
  VersionSearchQuery.parse fromisoformat text.

(** *** The fixture of the test suite *)

Definition build (major minor patch : Z) (branch : string)
    (year month day : Z) : BasicBuildInfo.t :=
  BasicBuildInfo.mk (Version.mk major minor patch) branch ""
                    (Iso.datetime_of year month day 0 0 0 0 Iso.utc).

Definition builds : list BasicBuildInfo.t :=
  [build 1 2 3 "stable" 2020 5 4;
   build 1 2 2 "stable" 2020 4 2;
   build 1 2 1 "daily" 2020 3 1;
   build 1 2 4 "stable" 2020 6 3;
   build 3 6 14 "lts" 2024 7 16;
   build 4 2 0 "stable" 2024 7 16;
   build 4 3 0 "daily" 2024 7 30;
   build 4 3 0 "daily" 2024 7 28;
   build 4 3 1 "daily" 2024 7 20].

Definition matcher : BInfoMatcher.t := BInfoMatcher.mk builds.

(** A catalog of two daily builds of 4.3.0, the commit time of the first
    aware, that of the second naive. *)
Definition mixed_matcher : BInfoMatcher.t :=
  BInfoMatcher.mk
    [BasicBuildInfo.mk (Version.mk 4 3 0) "daily" ""
       (Iso.datetime_of 2024 7 30 0 0 0 0 Iso.utc);
     BasicBuildInfo.mk (Version.mk 4 3 0) "daily" ""
       (Iso.datetime_of 2024 7 31 0 0 0 0 None)].

(** [VersionSearchQuery(major, minor, patch)] with the defaults of the
    other fields made explicit. *)
Definition query (major minor patch : int_or_str) (branch : option string)
    (commit_time : time_or_str) : VersionSearchQuery.t :=
  VersionSearchQuery.mk major minor patch branch None commit_time.

(* ===================================================================== *)
(** * Properties *)
(* ===================================================================== *)

(** ** The test suite, replayed on the embedding *)

Example test_binfo_matcher_latest_minor :
  BInfoMatcher.match_ matcher (query (inr "^") (inr "^") (inr "*") None (inr "*"))
  = Ok [build 4 3 0 "daily" 2024 7 30;
        build 4 3 0 "daily" 2024 7 28;
        build 4 3 1 "daily" 2024 7 20].
Proof. vm_compute. reflexivity. Qed.

Example test_binfo_matcher_patch_14 :
  BInfoMatcher.match_ matcher (query (inr "*") (inr "*") (inl 14) None (inr "^"))
  = Ok [build 3 6 14 "lts" 2024 7 16].
Proof. vm_compute. reflexivity. Qed.

Example test_binfo_matcher_lts :
  BInfoMatcher.match_ matcher
    (query (inr "*") (inr "*") (inr "*") (Some "lts") (inr "^"))
  = Ok [build 3 6 14 "lts" 2024 7 16].
Proof. vm_compute. reflexivity. Qed.

Example test_binfo_matcher_latest_daily :
  BInfoMatcher.match_ matcher
    (query (inr "^") (inr "*") (inr "*") (Some "daily") (inr "^"))
  = Ok [build 4 3 0 "daily" 2024 7 30].
Proof. vm_compute. reflexivity. Qed.

Example test_binfo_matcher_oldest_major :
  BInfoMatcher.match_ matcher (query (inr "-") (inr "*") (inr "^") None (inr "^"))
  = Ok [build 1 2 4 "stable" 2020 6 3].
Proof. vm_compute. reflexivity. Qed.

Example test_search_query_parser :
  VersionSearchQuery.parse Iso.fromisoformat "1.2.3"
  = VersionSearchQuery.new (inl 1) (inl 2) (inl 3) None None (inr "^")
  /\ VersionSearchQuery.parse Iso.fromisoformat "^.*.-"
     = VersionSearchQuery.new (inr "^") (inr "*") (inr "-") None None (inr "^")
  /\ VersionSearchQuery.parse Iso.fromisoformat "*.*.*-daily"
     = VersionSearchQuery.new (inr "*") (inr "*") (inr "*")
                              (Some "daily") None (inr "^")
  /\ VersionSearchQuery.parse Iso.fromisoformat "*.*.*+cb886aba06d5"
     = VersionSearchQuery.new (inr "*") (inr "*") (inr "*")
                              None (Some "cb886aba06d5") (inr "^")
  /\ VersionSearchQuery.parse Iso.fromisoformat "*.*.*@2024-07-31T23:53:51+00:00"
     = VersionSearchQuery.new (inr "*") (inr "*") (inr "*") None None
         (inl (Iso.datetime_of 2024 7 31 23 53 51 0 Iso.utc))
  /\ VersionSearchQuery.parse Iso.fromisoformat "*.*.*@2024-07-31 23:53:51+00:00"
     = VersionSearchQuery.new (inr "*") (inr "*") (inr "*") None None
         (inl (Iso.datetime_of 2024 7 31 23 53 51 0 Iso.utc))
  /\ is_ValueError (VersionSearchQuery.parse Iso.fromisoformat "abc").
Proof.
  repeat split; try (vm_compute; reflexivity).
  eexists. vm_compute. reflexivity.
Qed.

(** The serialization test: each query is written, parsed again, and gives
    the same result on the fixture. *)
Example test_vsq_serialization :
  Forall
    (fun q =>
       exists q',
         round_trip Iso.fromisoformat Iso.str q = Ok q'
         /\ BInfoMatcher.match_ matcher q' = BInfoMatcher.match_ matcher q)
    [query (inr "^") (inr "^") (inr "*") None (inr "^");
     query (inr "*") (inr "*") (inl 14) None (inr "^");
     query (inr "*") (inr "*") (inr "*") (Some "lts") (inr "^");
     query (inr "^") (inr "*") (inr "*") (Some "daily") (inr "^");
     query (inr "-") (inr "*") (inr "^") None (inr "^");
     query (inl 4) (inl 0) (inl 0) None (inr "^");
     query (inl 4) (inr "*") (inr "*") None (inr "^");
     query (inr "^") (inr "^") (inr "*") (Some "stable")
           (inl (Iso.datetime_of 2020 5 4 0 0 0 0 Iso.utc))].
Proof.
  repeat (apply Forall_cons;
          [eexists; split; [vm_compute; reflexivity | reflexivity] |]).
  apply Forall_nil.
Qed.

(** ** The precedence examples of [semver], on the model *)

Example semver_precedence :
  Version.ltb (Version.make 1 0 0 (Some "alpha") None)
              (Version.make 1 0 0 (Some "alpha.1") None) = true
  /\ Version.ltb (Version.make 1 0 0 (Some "alpha.1") None)
                 (Version.make 1 0 0 (Some "alpha.beta") None) = true
  /\ Version.ltb (Version.make 1 0 0 (Some "alpha.beta") None)
                 (Version.make 1 0 0 (Some "beta") None) = true
  /\ Version.ltb (Version.make 1 0 0 (Some "beta") None)
                 (Version.make 1 0 0 (Some "beta.2") None) = true
  /\ Version.ltb (Version.make 1 0 0 (Some "beta.2") None)
                 (Version.make 1 0 0 (Some "beta.11") None) = true
  /\ Version.ltb (Version.make 1 0 0 (Some "beta.11") None)
                 (Version.make 1 0 0 (Some "rc.1") None) = true
  /\ Version.ltb (Version.make 1 0 0 (Some "rc.1") None)
                 (Version.mk 1 0 0) = true
  /\ Version.ltb (Version.mk 1 0 0) (Version.mk 2 0 0) = true
  /\ Version.ltb (Version.mk 2 0 0) (Version.mk 2 1 0) = true
  /\ Version.ltb (Version.mk 2 1 0) (Version.mk 2 1 1) = true
  /\ Version.eqb (Version.make 1 0 0 None (Some "build.1"))
                 (Version.make 1 0 0 None (Some "build.2")) = true.
Proof. repeat split; vm_compute; reflexivity. Qed.

(** A prerelease is lower than the release, for [<] on versions and so for
    [<] on builds, whatever the commit times. *)
Example prerelease_is_lower :
  BasicBuildInfo.lt
    (BasicBuildInfo.mk (Version.make 4 3 0 (Some "alpha") None) "daily" ""
       (Iso.datetime_of 2024 7 31 0 0 0 0 Iso.utc))
    (BasicBuildInfo.mk (Version.mk 4 3 0) "daily" ""
       (Iso.datetime_of 2024 7 30 0 0 0 0 None))
  = Ok true
  /\ BasicBuildInfo.lt
       (BasicBuildInfo.mk (Version.mk 4 3 0) "daily" ""
          (Iso.datetime_of 2024 7 30 0 0 0 0 None))
       (BasicBuildInfo.mk (Version.make 4 3 0 (Some "alpha") None) "daily" ""
          (Iso.datetime_of 2024 7 31 0 0 0 0 Iso.utc))
     = Ok false.
Proof. split; vm_compute; reflexivity. Qed.

(** ** Comparisons and the builtins [max] and [min] *)

Lemma str_in_spec x items : str_in x items = true <-> In x items.
Proof.
  unfold str_in. rewrite existsb_exists. split.
  - intros [y [Hin Heq]]. apply String.eqb_eq in Heq. subst. assumption.
  - intros Hin. exists x. split; [assumption | apply String.eqb_refl].
Qed.

Lemma py_eq_VStr p x : py_eq p (VStr x) = true <-> p = VStr x.
Proof.
  destruct p; simpl; split; intros H; try discriminate.
  - apply String.eqb_eq in H. congruence.
  - injection H as ->. apply String.eqb_refl.
Qed.

Lemma py_eq_VStr_false p x : py_eq p (VStr x) = false <-> p <> VStr x.
Proof.
  rewrite <- py_eq_VStr. destruct (py_eq p (VStr x)); split; congruence.
Qed.

Lemma py_eq_VNone p : py_eq p VNone = true <-> p = VNone.
Proof. destruct p; simpl; split; congruence. Qed.

Lemma py_gt_lt a b : py_gt a b = py_lt b a.
Proof. destruct a, b; reflexivity. Qed.

Lemma string_ltb_irrefl s : String.ltb s s = false.
Proof.
  unfold String.ltb.
  assert (H : String.compare s s = Eq).
  { pose proof (String.compare_antisym s s) as H.
    destruct (String.compare s s); simpl in H; congruence. }
  rewrite H. reflexivity.
Qed.

Lemma string_ltb_lt a b : String.ltb a b = true <-> String_as_OT.lt a b.
Proof.
  unfold String.ltb. rewrite <- String_as_OT.cmp_lt.
  unfold String_as_OT.cmp.
  destruct (String.compare a b); split; congruence.
Qed.

Lemma string_ltb_asym a b : String.ltb a b = true -> String.ltb b a = false.
Proof.
  unfold String.ltb. rewrite (String.compare_antisym b a).
  destruct (String.compare a b); simpl; congruence.
Qed.

Lemma string_ltb_total a b :
  String.ltb a b = false -> String.ltb b a = false -> a = b.
Proof.
  unfold String.ltb. rewrite (String.compare_antisym b a).
  destruct (String.compare a b) eqn:E; simpl; try congruence.
  intros _ _. apply String.compare_eq_iff. assumption.
Qed.

(** "Not less" is transitive on strings. *)
Lemma string_ltb_trans_neg a b c :
  String.ltb a b = false -> String.ltb b c = false -> String.ltb a c = false.
Proof.
  intros Hab Hbc.
  destruct (String.ltb a c) eqn:Hac; [exfalso | reflexivity].
  destruct (String.ltb b a) eqn:Hba.
  - (* b < a < c *)
    apply string_ltb_lt in Hba, Hac.
    pose proof (String_as_OT.lt_trans _ _ _ Hba Hac) as H.
    apply string_ltb_lt in H. congruence.
  - pose proof (string_ltb_total _ _ Hab Hba). subst. congruence.
Qed.

(** Case analysis on values of one kind. *)
Ltac by_kind :=
  repeat match goal with
         | v : value |- _ => destruct v
         end;
  simpl in *;
  unfold datetime_gt in *; unfold datetime_lt, datetime_eq, aware in *;
  repeat match goal with
         | d : datetime |- _ => destruct d as [? [?|]]
         end;
  simpl in *; try discriminate; try congruence.

(** On values of one orderable kind, [<] returns, and it is a strict weak
    order. *)
Section OneKind.
Variable k : kind.
Hypothesis orderable : k <> KNone.

Lemma py_lt_total a b :
  kind_of a = k -> kind_of b = k -> exists r, py_lt a b = Ok r.
Proof.
  intros Ha Hb. rewrite <- Hb in Ha. rewrite <- Hb in orderable. clear Hb.
  by_kind; eexists; reflexivity.
Qed.

Lemma py_lt_irrefl a : kind_of a = k -> py_lt a a = Ok false.
Proof.
  intros Ha. rewrite <- Ha in orderable. clear Ha.
  by_kind; f_equal; try apply Z.ltb_irrefl; apply string_ltb_irrefl.
Qed.

Lemma py_lt_asym a b :
  kind_of a = k -> kind_of b = k ->
  py_lt a b = Ok true -> py_lt b a = Ok false.
Proof.
  intros Ha Hb. rewrite <- Hb in Ha. clear Hb orderable.
  by_kind; intros [= H]; f_equal; try lia; now apply string_ltb_asym.
Qed.

Lemma py_lt_trans_neg a b c :
  kind_of a = k -> kind_of b = k -> kind_of c = k ->
  py_lt a b = Ok false -> py_lt b c = Ok false -> py_lt a c = Ok false.
Proof.
  intros Ha Hb Hc. rewrite <- Hc in Ha, Hb. clear Hc orderable.
  by_kind; intros [= H1] [= H2]; f_equal; try lia;
    eapply string_ltb_trans_neg; eassumption.
Qed.

(** Two values, neither less than the other, are equal for [==]. *)
Lemma py_lt_neither a b :
  kind_of a = k -> kind_of b = k ->
  py_lt a b = Ok false -> py_lt b a = Ok false -> py_eq a b = true.
Proof.
  intros Ha Hb. rewrite <- Hb in Ha. rewrite <- Hb in orderable. clear Hb.
  by_kind; intros [= H1] [= H2]; try lia.
  rewrite (string_ltb_total _ _ H1 H2). apply String.eqb_refl.
Qed.

Lemma py_eq_refl a : kind_of a = k -> py_eq a a = true.
Proof.
  intros Ha. apply py_lt_neither; auto using py_lt_irrefl.
Qed.
End OneKind.

(** The loop of [max] and [min] returns an item that no item beats, as soon
    as the comparison is a strict weak order on the items. *)
Section Extremum.
Variable better : value -> value -> result bool.
Variable D : value -> Prop.
Hypothesis better_total :
  forall a b, D a -> D b -> exists r, better a b = Ok r.
Hypothesis better_irrefl : forall a, D a -> better a a = Ok false.
Hypothesis better_asym :
  forall a b, D a -> D b -> better a b = Ok true -> better b a = Ok false.
Hypothesis better_trans_neg :
  forall a b c, D a -> D b -> D c ->
    better a b = Ok false -> better b c = Ok false -> better a c = Ok false.

Lemma extremum_from_spec items : forall held,
  D held -> Forall D items ->
  exists m,
    extremum_from better held items = Ok m
    /\ In m (held :: items)
    /\ D m
    /\ forall x, In x (held :: items) -> better x m = Ok false.
Proof.
  induction items as [|item rest IH]; intros held Hheld Hitems.
  - exists held. simpl. repeat split; auto.
    intros x [<- | []]. now apply better_irrefl.
  - inversion Hitems as [|? ? Hitem Hrest]; subst.
    destruct (better_total item held Hitem Hheld) as [b Hb].
    simpl. rewrite Hb. simpl. destruct b.
    + destruct (IH item Hitem Hrest) as [m [Hm [Hin [HD Hle]]]].
      exists m. split; [exact Hm |]. split; [now right |].
      split; [exact HD |].
      intros x [<- | Hx]; [| now apply Hle].
      apply better_trans_neg with item; auto.
      apply Hle. now left.
    + destruct (IH held Hheld Hrest) as [m [Hm [Hin [HD Hle]]]].
      exists m. split; [exact Hm |].
      split; [destruct Hin as [<- | Hin]; [now left | now right; right] |].
      split; [exact HD |].
      intros x [<- | [<- | Hx]].
      * apply Hle. now left.
      * apply better_trans_neg with held; auto; apply Hle; now left.
      * apply Hle. now right.
Qed.
End Extremum.

Lemma py_max_spec k items :
  k <> KNone -> items <> [] -> Forall (fun x => kind_of x = k) items ->
  exists m,
    py_max items = Ok m /\ In m items /\ kind_of m = k
    /\ forall x, In x items -> py_gt x m = Ok false.
Proof.
  intros Hk Hne Hall. destruct items as [|item rest]; [congruence |].
  inversion Hall as [|? ? Hitem Hrest]; subst. unfold py_max.
  apply (extremum_from_spec py_gt (fun x => kind_of x = kind_of item)); auto.
  - intros a b Ha Hb. rewrite py_gt_lt. now apply py_lt_total with (kind_of item).
  - intros a Ha. rewrite py_gt_lt. now apply py_lt_irrefl with (kind_of item).
  - intros a b Ha Hb. rewrite !py_gt_lt.
    intros H. apply py_lt_asym with (kind_of item); auto.
  - intros a b c Ha Hb Hc. rewrite !py_gt_lt. intros H1 H2.
    apply py_lt_trans_neg with (kind_of item) b; auto.
Qed.

Lemma py_min_spec k items :
  k <> KNone -> items <> [] -> Forall (fun x => kind_of x = k) items ->
  exists m,
    py_min items = Ok m /\ In m items /\ kind_of m = k
    /\ forall x, In x items -> py_lt x m = Ok false.
Proof.
  intros Hk Hne Hall. destruct items as [|item rest]; [congruence |].
  inversion Hall as [|? ? Hitem Hrest]; subst. unfold py_min.
  apply (extremum_from_spec py_lt (fun x => kind_of x = kind_of item)); auto.
  - intros a b. now apply py_lt_total.
  - intros a. now apply py_lt_irrefl.
  - intros a b. now apply py_lt_asym.
  - intros a b c. now apply py_lt_trans_neg.
Qed.

(** ** The matcher *)

(** The values of one field over a catalog are of one orderable kind; for
    the commit time, when the commit times are comparable. *)
Lemma field_kind place versions :
  (place = Attr.commit_time -> comparable_times versions) ->
  exists k, k <> KNone
    /\ Forall (fun x => kind_of x = k)
              (map (BasicBuildInfo.getattr place) versions).
Proof.
  intros Hcmp.
  destruct place;
    try (exists KStr; split; [discriminate |];
         apply Forall_forall; intros x Hx; apply in_map_iff in Hx;
         destruct Hx as [v [<- _]]; reflexivity);
    try (exists KInt; split; [discriminate |];
         apply Forall_forall; intros x Hx; apply in_map_iff in Hx;
         destruct Hx as [v [<- _]]; reflexivity).
  destruct (Hcmp eq_refl) as [Ha | Hn].
  - exists KAware. split; [discriminate |].
    apply Forall_forall. intros x Hx. apply in_map_iff in Hx.
    destruct Hx as [v [<- Hv]]. simpl. now rewrite (Ha v Hv).
  - exists KNaive. split; [discriminate |].
    apply Forall_forall. intros x Hx. apply in_map_iff in Hx.
    destruct Hx as [v [<- Hv]]. simpl. now rewrite (Hn v Hv).
Qed.

Lemma orders_commit_time_spec s :
  VersionSearchQuery.getattr Attr.commit_time s = VStr "^"
  \/ VersionSearchQuery.getattr Attr.commit_time s = VStr "-" ->
  orders_commit_time s.
Proof.
  unfold orders_commit_time. simpl.
  destruct (VersionSearchQuery.commit_time s) as [d | x]; simpl;
    intros [H | H]; try discriminate; injection H as ->; auto.
Qed.

Lemma comparable_times_incl cur cur' :
  incl cur' cur -> comparable_times cur -> comparable_times cur'.
Proof.
  intros Hincl [Ha | Hn]; [left | right]; intros v Hv; auto.
Qed.

Lemma with_field_incl place p cur : incl (with_field place p cur) cur.
Proof. intros v Hv. unfold with_field in Hv. now apply filter_In in Hv. Qed.

Lemma narrows_incl s place cur out : narrows s place cur out -> incl out cur.
Proof.
  destruct 1; subst; auto using incl_refl, with_field_incl.
Qed.

Lemma end_of_turn_nonempty versions :
  versions <> [] -> BInfoMatcher.end_of_turn versions = BInfoMatcher.Next versions.
Proof. destruct versions; [congruence | reflexivity]. Qed.

(** One turn of the loop performs one narrowing step of the
    specification. *)
Lemma turn_narrows s place cur :
  cur <> [] -> (orders_commit_time s -> comparable_times cur) ->
  exists out,
    narrows s place cur out
    /\ BInfoMatcher.turn s place cur = Ok (BInfoMatcher.end_of_turn out).
Proof.
  intros Hne Hcmp. unfold BInfoMatcher.turn.
  assert (Hkind : VersionSearchQuery.getattr place s = VStr "^"
                  \/ VersionSearchQuery.getattr place s = VStr "-" ->
                  exists k, k <> KNone
                    /\ Forall (fun x => kind_of x = k)
                              (map (BasicBuildInfo.getattr place) cur)).
  { intros Hp. apply field_kind. intros ->.
    apply Hcmp. now apply orders_commit_time_spec. }
  assert (Hmap : map (BasicBuildInfo.getattr place) cur <> []).
  { destruct cur; [congruence | discriminate]. }
  destruct (py_eq (VersionSearchQuery.getattr place s) (VStr "^")) eqn:Emax.
  - apply py_eq_VStr in Emax.
    destruct (Hkind (or_introl Emax)) as [k [Hk Hall]].
    destruct (py_max_spec k _ Hk Hmap Hall) as [m [Hm [Hin [_ Hle]]]].
    rewrite Hm. simpl. exists (with_field place m cur). split; [| reflexivity].
    apply narrows_max; [assumption |]. split.
    + apply in_map_iff in Hin. destruct Hin as [v [Hv Hin]]. now exists v.
    + intros v Hv. apply Hle. now apply in_map.
  - apply py_eq_VStr_false in Emax.
    destruct (py_eq (VersionSearchQuery.getattr place s) (VStr "*")) eqn:Eany.
    { apply py_eq_VStr in Eany. exists cur. split.
      - apply narrows_any. now left.
      - simpl. now rewrite end_of_turn_nonempty. }
    apply py_eq_VStr_false in Eany.
    destruct (py_eq (VersionSearchQuery.getattr place s) VNone) eqn:Enone.
    { apply py_eq_VNone in Enone. exists cur. split.
      - apply narrows_any. now right.
      - simpl. now rewrite end_of_turn_nonempty. }
    assert (Hnone : VersionSearchQuery.getattr place s <> VNone).
    { intros H. apply py_eq_VNone in H. congruence. }
    simpl.
    destruct (py_eq (VersionSearchQuery.getattr place s) (VStr "-")) eqn:Emin.
    + apply py_eq_VStr in Emin.
      destruct (Hkind (or_intror Emin)) as [k [Hk Hall]].
      destruct (py_min_spec k _ Hk Hmap Hall) as [m [Hm [Hin [_ Hle]]]].
      rewrite Hm. simpl. exists (with_field place m cur).
      split; [| reflexivity].
      apply narrows_min; [assumption |]. split.
      * apply in_map_iff in Hin. destruct Hin as [v [Hv Hin]]. now exists v.
      * intros v Hv. apply Hle. now apply in_map.
    + apply py_eq_VStr_false in Emin.
      exists (with_field place (VersionSearchQuery.getattr place s) cur).
      split; [| reflexivity].
      apply narrows_exact. repeat split; assumption.
Qed.

Lemma narrows_along_empty s places : narrows_along s places [] [].
Proof.
  induction places as [|place rest IH].
  - constructor.
  - apply along_cons with []; [now apply narrows_empty | assumption].
Qed.

(** The loop performs the narrowing steps of the specification, place after
    place. *)
Lemma loop_narrows s places : forall cur,
  cur <> [] -> (orders_commit_time s -> comparable_times cur) ->
  exists out,
    narrows_along s places cur out
    /\ BInfoMatcher.loop s places cur = Ok out.
Proof.
  induction places as [|place rest IH]; intros cur Hne Hcmp.
  - exists cur. split; [constructor | reflexivity].
  - destruct (turn_narrows s place cur Hne Hcmp) as [mid [Hstep Hturn]].
    simpl. rewrite Hturn. simpl.
    destruct mid as [|v mid'] eqn:Emid.
    + exists []. split; [| reflexivity].
      apply along_cons with []; [assumption | apply narrows_along_empty].
    + simpl.
      destruct (IH (v :: mid')) as [out [Hout Hloop]].
      * discriminate.
      * intros Hs. apply comparable_times_incl with cur; [| now apply Hcmp].
        eapply narrows_incl; eassumption.
      * exists out. split; [| assumption].
        apply along_cons with (v :: mid'); assumption.
Qed.

(** Values that are equal for [==] are equal to the same values. *)
Lemma py_eq_same a b :
  py_eq a b = true -> forall c, py_eq c a = py_eq c b.
Proof.
  intros H c. by_kind;
    try (apply Z.eqb_eq in H; rewrite H; reflexivity);
    apply String.eqb_eq in H; subst; reflexivity.
Qed.

(** Two maxima of a field keep the same candidates; so do two minima. *)
Lemma extremum_unique place cur m1 m2 :
  (place = Attr.commit_time -> comparable_times cur) ->
  (exists v, In v cur /\ BasicBuildInfo.getattr place v = m1) ->
  (exists v, In v cur /\ BasicBuildInfo.getattr place v = m2) ->
  py_lt m1 m2 = Ok false -> py_lt m2 m1 = Ok false ->
  with_field place m1 cur = with_field place m2 cur.
Proof.
  intros Hcmp [v1 [Hv1 <-]] [v2 [Hv2 <-]] H12 H21.
  destruct (field_kind place cur Hcmp) as [k [Hk Hall]].
  rewrite Forall_forall in Hall.
  assert (Heq : py_eq (BasicBuildInfo.getattr place v1)
                      (BasicBuildInfo.getattr place v2) = true).
  { apply py_lt_neither with k; auto; apply Hall; now apply in_map. }
  unfold with_field. apply filter_ext. intros v. now apply py_eq_same.
Qed.

(** The narrowing step of the specification has one outcome. *)
Lemma narrows_functional s place cur out1 out2 :
  (orders_commit_time s -> comparable_times cur) ->
  narrows s place cur out1 -> narrows s place cur out2 -> out1 = out2.
Proof.
  intros Hcmp H1 H2.
  assert (Hkind : VersionSearchQuery.getattr place s = VStr "^"
                  \/ VersionSearchQuery.getattr place s = VStr "-" ->
                  place = Attr.commit_time -> comparable_times cur).
  { intros Hp ->. apply Hcmp. now apply orders_commit_time_spec. }
  destruct H1 as [Hp1 | m1 Hp1 [Hin1 Hm1] | m1 Hp1 [Hin1 Hm1] | Hp1 | He1];
    destruct H2 as [Hp2 | m2 Hp2 [Hin2 Hm2] | m2 Hp2 [Hin2 Hm2] | Hp2 | He2];
    subst; try reflexivity;
    try (unfold literal in *; intuition congruence).
  - (* two maxima *)
    apply extremum_unique; auto.
    + destruct Hin2 as [v [Hv <-]]. rewrite <- py_gt_lt. now apply Hm1.
    + destruct Hin1 as [v [Hv <-]]. rewrite <- py_gt_lt. now apply Hm2.
  - (* two minima *)
    apply extremum_unique; auto.
    + destruct Hin1 as [v [Hv <-]]. now apply Hm2.
    + destruct Hin2 as [v [Hv <-]]. now apply Hm1.
Qed.

(** A turn depends on the query through the field it reads only. *)
Lemma loop_ext s s' places : forall versions,
  (forall place, In place places ->
     VersionSearchQuery.getattr place s = VersionSearchQuery.getattr place s'
     \/ forall cur, BInfoMatcher.turn s place cur = BInfoMatcher.turn s' place cur) ->
  BInfoMatcher.loop s places versions = BInfoMatcher.loop s' places versions.
Proof.
  induction places as [|place rest IH]; intros versions Hext; [reflexivity |].
  assert (Hturn : BInfoMatcher.turn s place versions
                  = BInfoMatcher.turn s' place versions).
  { destruct (Hext place (or_introl eq_refl)) as [Heq | Heq]; [| apply Heq].
    unfold BInfoMatcher.turn. now rewrite Heq. }
  simpl. rewrite Hturn.
  destruct (BInfoMatcher.turn s' place versions) as [[cur | r] | e];
    simpl; try reflexivity.
  apply IH. intros p Hp. apply Hext. now right.
Qed.

Lemma turn_wildcard s place cur :
  VersionSearchQuery.getattr place s = VStr "*"
  \/ VersionSearchQuery.getattr place s = VNone ->
  BInfoMatcher.turn s place cur = Ok (BInfoMatcher.Next cur).
Proof.
  unfold BInfoMatcher.turn. intros [-> | ->]; reflexivity.
Qed.

Lemma match_branch_wildcard self major minor patch build_hash commit_time :
  BInfoMatcher.match_ self
    (VersionSearchQuery.mk major minor patch None build_hash commit_time)
  = BInfoMatcher.match_ self
      (VersionSearchQuery.mk major minor patch (Some "*") build_hash commit_time).
Proof.
  unfold BInfoMatcher.match_. apply loop_ext.
  intros place _. destruct place; try (left; reflexivity).
  right. intros cur. rewrite !turn_wildcard; auto.
Qed.

Lemma match_build_hash_wildcard self major minor patch branch commit_time :
  BInfoMatcher.match_ self
    (VersionSearchQuery.mk major minor patch branch None commit_time)
  = BInfoMatcher.match_ self
      (VersionSearchQuery.mk major minor patch branch (Some "*") commit_time).
Proof.
  unfold BInfoMatcher.match_. apply loop_ext.
  intros place _. destruct place; try (left; reflexivity).
  right. intros cur. rewrite !turn_wildcard; auto.
Qed.

Lemma loop_reaches s before versions cur :
  reaches s before versions cur ->
  forall rest,
    BInfoMatcher.loop s (before ++ rest) versions = BInfoMatcher.loop s rest cur.
Proof.
  induction 1 as [| place before versions cur cur' Hturn _ IH]; intros rest.
  - reflexivity.
  - simpl. rewrite Hturn. simpl. apply IH.
Qed.

Lemma literal_tests p :
  literal p ->
  py_eq p (VStr "^") = false /\ py_eq p (VStr "*") = false
  /\ py_eq p VNone = false /\ py_eq p (VStr "-") = false.
Proof.
  intros [H1 [H2 [H3 H4]]]. repeat split; try now apply py_eq_VStr_false.
  destruct (py_eq p VNone) eqn:E; [| reflexivity].
  apply py_eq_VNone in E. contradiction.
Qed.

(** A filtering step that keeps nothing ends the function. *)
Lemma turn_filters_to_nothing s place cur :
  filters_to s place cur [] ->
  BInfoMatcher.turn s place cur = Ok (BInfoMatcher.Return []).
Proof.
  intros H. unfold BInfoMatcher.turn.
  inversion H as [m Hp Hm Hkeep | m Hp Hm Hkeep | Hp Hkeep].
  - rewrite Hp. simpl. rewrite Hm. simpl.
    unfold BInfoMatcher.keep, with_field in *. now rewrite Hkeep.
  - rewrite Hp. simpl. rewrite Hm. simpl.
    unfold BInfoMatcher.keep, with_field in *. now rewrite Hkeep.
  - destruct (literal_tests _ Hp) as [E1 [E2 [E3 E4]]].
    rewrite E1, E2, E3, E4. simpl.
    unfold BInfoMatcher.keep, with_field in *. now rewrite Hkeep.
Qed.

Lemma with_field_nothing place p cur :
  (forall v, In v cur -> py_eq (BasicBuildInfo.getattr place v) p = false) ->
  with_field place p cur = [].
Proof.
  intros H. unfold with_field. induction cur as [|v cur IH]; [reflexivity |].
  simpl. rewrite (H v (or_introl eq_refl)). apply IH.
  intros w Hw. apply H. now right.
Qed.

(** ** The claims about matching *)

(** C1, as the code has it.  On a catalog that is not empty, [match]
    narrows the candidates field after field in the order build_hash, major,
    minor, patch, branch, commit_time.  Each step is a step of [narrows] on
    the candidates the step before has kept: for [^] (for [-]) it keeps
    exactly the candidates whose field equals the maximum (the minimum) of
    the field over these candidates.  When the query asks for the newest or
    the oldest commit time, the commit times of the catalog have to be
    comparable with each other: all aware or all naive. *)
Theorem match_narrows_in_priority_order :
  forall (self : BInfoMatcher.t) (s : VersionSearchQuery.t),
    BInfoMatcher.versions self <> [] ->
    (orders_commit_time s -> comparable_times (BInfoMatcher.versions self)) ->
    exists c1 c2 c3 c4 c5 c6,
      narrows s Attr.build_hash (BInfoMatcher.versions self) c1
      /\ narrows s Attr.major c1 c2
      /\ narrows s Attr.minor c2 c3
      /\ narrows s Attr.patch c3 c4
      /\ narrows s Attr.branch c4 c5
      /\ narrows s Attr.commit_time c5 c6
      /\ BInfoMatcher.match_ self s = Ok c6.
Proof.
  intros self s Hne Hcmp.
  destruct (loop_narrows s BInfoMatcher.places _ Hne Hcmp) as [out [Hal Hloop]].
  unfold BInfoMatcher.places in Hal.
  inversion Hal as [| ? ? ? c1 ? H1 Hal1]; subst.
  inversion Hal1 as [| ? ? ? c2 ? H2 Hal2]; subst.
  inversion Hal2 as [| ? ? ? c3 ? H3 Hal3]; subst.
  inversion Hal3 as [| ? ? ? c4 ? H4 Hal4]; subst.
  inversion Hal4 as [| ? ? ? c5 ? H5 Hal5]; subst.
  inversion Hal5 as [| ? ? ? c6 ? H6 Hal6]; subst.
  inversion Hal6; subst.
  exists c1, c2, c3, c4, c5, out. repeat split; assumption.
Qed.

(** The commit times of the fixture are all aware. *)
Lemma builds_comparable : comparable_times builds.
Proof.
  left. intros v Hv. unfold builds in Hv. simpl in Hv.
  repeat (destruct Hv as [<- | Hv]; [reflexivity |]). contradiction.
Defined.

(** The narrowing on the fixture, for the newest daily build of the newest
    minor release. *)
Lemma match_narrows_in_priority_order_witness :
  exists c1 c2 c3 c4 c5 c6,
    narrows (query (inr "^") (inr "^") (inr "*") (Some "daily") (inr "^"))
            Attr.build_hash (BInfoMatcher.versions matcher) c1
    /\ narrows (query (inr "^") (inr "^") (inr "*") (Some "daily") (inr "^"))
               Attr.major c1 c2
    /\ narrows (query (inr "^") (inr "^") (inr "*") (Some "daily") (inr "^"))
               Attr.minor c2 c3
    /\ narrows (query (inr "^") (inr "^") (inr "*") (Some "daily") (inr "^"))
               Attr.patch c3 c4
    /\ narrows (query (inr "^") (inr "^") (inr "*") (Some "daily") (inr "^"))
               Attr.branch c4 c5
    /\ narrows (query (inr "^") (inr "^") (inr "*") (Some "daily") (inr "^"))
               Attr.commit_time c5 c6
    /\ BInfoMatcher.match_ matcher
         (query (inr "^") (inr "^") (inr "*") (Some "daily") (inr "^"))
       = Ok c6.
Proof.
  apply (match_narrows_in_priority_order matcher
           (query (inr "^") (inr "^") (inr "*") (Some "daily") (inr "^"))).
  - simpl. discriminate.
  - intros _. exact builds_comparable.
Defined.

(** C1, as the specification has it, fails.  On a catalog that is not
    empty and holds a build with an aware commit time and one with a naive
    commit time, the query [^.^.^@^] makes [match] raise [TypeError]: the
    maximum of the commit times cannot be computed.  No candidates are kept,
    so the narrowing steps do not describe what [match] does there. *)
Lemma match_raises_on_mixed_commit_times :
  BInfoMatcher.versions mixed_matcher <> []
  /\ BInfoMatcher.match_ mixed_matcher
       (query (inr "^") (inr "^") (inr "^") None (inr "^"))
     = Raise cannot_compare
  /\ ~ (exists c1 c2 c3 c4 c5 c6,
          narrows (query (inr "^") (inr "^") (inr "^") None (inr "^"))
                  Attr.build_hash (BInfoMatcher.versions mixed_matcher) c1
          /\ narrows (query (inr "^") (inr "^") (inr "^") None (inr "^"))
                     Attr.major c1 c2
          /\ narrows (query (inr "^") (inr "^") (inr "^") None (inr "^"))
                     Attr.minor c2 c3
          /\ narrows (query (inr "^") (inr "^") (inr "^") None (inr "^"))
                     Attr.patch c3 c4
          /\ narrows (query (inr "^") (inr "^") (inr "^") None (inr "^"))
                     Attr.branch c4 c5
          /\ narrows (query (inr "^") (inr "^") (inr "^") None (inr "^"))
                     Attr.commit_time c5 c6
          /\ BInfoMatcher.match_ mixed_matcher
               (query (inr "^") (inr "^") (inr "^") None (inr "^"))
             = Ok c6).
Proof.
  assert (Hraise : BInfoMatcher.match_ mixed_matcher
                     (query (inr "^") (inr "^") (inr "^") None (inr "^"))
                   = Raise cannot_compare) by (vm_compute; reflexivity).
  split; [discriminate |]. split; [exact Hraise |].
  intros [c1 [c2 [c3 [c4 [c5 [c6 [_ [_ [_ [_ [_ [_ H]]]]]]]]]]]].
  rewrite Hraise in H. discriminate.
Qed.

(** C3. On the empty catalog, the default query makes [match] raise
    [ValueError]: [max] is called on an empty sequence. *)
Theorem match_raises_on_empty_catalog :
  VersionSearchQuery.default
  = Ok (VersionSearchQuery.mk (inr "^") (inr "^") (inr "^") None None (inr "^"))
  /\ is_ValueError
       (BInfoMatcher.match_ (BInfoMatcher.mk [])
          (VersionSearchQuery.mk (inr "^") (inr "^") (inr "^")
                                 None None (inr "^"))).
Proof. split; [reflexivity |]. eexists. reflexivity. Qed.

(** C5. If a filtering step keeps no candidate, [match] returns the empty
    sequence at once: the result is the same whatever places would follow.
    In particular a build hash literal that no record of the catalog has
    gives the empty result, whatever the other fields of the query. *)
Theorem empty_candidates_short_circuit :
  forall (self : BInfoMatcher.t) (s : VersionSearchQuery.t),
    (forall before place after cur,
        BInfoMatcher.places = (before ++ place :: after)%list ->
        reaches s before (BInfoMatcher.versions self) cur ->
        filters_to s place cur [] ->
        BInfoMatcher.match_ self s = Ok []
        /\ forall others,
             BInfoMatcher.loop s (before ++ place :: others)%list
                               (BInfoMatcher.versions self) = Ok [])
    /\ (forall h,
        VersionSearchQuery.build_hash s = Some h ->
        ~ In h mode_symbols ->
        (forall v, In v (BInfoMatcher.versions self) ->
                   BasicBuildInfo.build_hash v <> h) ->
        BInfoMatcher.match_ self s = Ok []).
Proof.
  intros self s.
  assert (Hgen : forall before place cur others,
             reaches s before (BInfoMatcher.versions self) cur ->
             filters_to s place cur [] ->
             BInfoMatcher.loop s (before ++ place :: others)%list
                               (BInfoMatcher.versions self) = Ok []).
  { intros before place cur others Hreach Hfil.
    rewrite (loop_reaches _ _ _ _ Hreach). simpl.
    now rewrite (turn_filters_to_nothing _ _ _ Hfil). }
  split.
  - intros before place after cur Hplaces Hreach Hfil. split.
    + unfold BInfoMatcher.match_. rewrite Hplaces. eapply Hgen; eassumption.
    + intros others. eapply Hgen; eassumption.
  - intros h Hh Hlit Habsent.
    unfold BInfoMatcher.match_, BInfoMatcher.places.
    apply (Hgen [] Attr.build_hash (BInfoMatcher.versions self)).
    + constructor.
    + assert (Hattr : VersionSearchQuery.getattr Attr.build_hash s = VStr h).
      { simpl. now rewrite Hh. }
      rewrite <- (with_field_nothing Attr.build_hash (VStr h)
                    (BInfoMatcher.versions self)).
      * rewrite <- Hattr. apply filters_exact. rewrite Hattr.
        unfold mode_symbols in Hlit. simpl in Hlit.
        repeat split; intros [= ->]; tauto.
      * intros v Hv. simpl. apply String.eqb_neq. now apply Habsent.
Qed.

(** On the fixture: no build 4.7 exists, so the minor turn empties the
    candidates; and no build has the hash asked for. *)
Lemma empty_candidates_short_circuit_witness :
  (BInfoMatcher.places
   = ([Attr.build_hash; Attr.major]
        ++ Attr.minor :: [Attr.patch; Attr.branch; Attr.commit_time])%list
   /\ BInfoMatcher.match_ matcher (query (inr "^") (inl 7) (inr "^") None (inr "^"))
      = Ok [])
  /\ (~ In "0123abcd" mode_symbols
      /\ BInfoMatcher.match_ matcher
           (VersionSearchQuery.mk (inr "^") (inr "^") (inr "^")
                                  None (Some "0123abcd") (inr "^"))
         = Ok []).
Proof.
  split.
  - split; [reflexivity |].
    refine (proj1 (proj1 (empty_candidates_short_circuit matcher
               (query (inr "^") (inl 7) (inr "^") None (inr "^")))
             [Attr.build_hash; Attr.major] Attr.minor
             [Attr.patch; Attr.branch; Attr.commit_time]
             [build 4 2 0 "stable" 2024 7 16;
              build 4 3 0 "daily" 2024 7 30;
              build 4 3 0 "daily" 2024 7 28;
              build 4 3 1 "daily" 2024 7 20] eq_refl _ _)).
    + eapply reaches_turn; [reflexivity |].
      eapply reaches_turn; [reflexivity |].
      apply reaches_start.
    + apply (filters_exact (query (inr "^") (inl 7) (inr "^") None (inr "^"))
                           Attr.minor).
      simpl. repeat split; discriminate.
  - assert (Hlit : ~ In "0123abcd" mode_symbols).
    { simpl. intros [H | [H | [H | []]]]; discriminate. }
    split; [exact Hlit |].
    apply (proj2 (empty_candidates_short_circuit matcher
             (VersionSearchQuery.mk (inr "^") (inr "^") (inr "^")
                                    None (Some "0123abcd") (inr "^")))
             "0123abcd" eq_refl Hlit).
    intros v Hv. simpl in Hv.
    repeat (destruct Hv as [<- | Hv]; [discriminate |]). contradiction.
Defined.

(** C8. A branch, or a build hash, that is absent gives the same result of
    [match] as the same field set to [*], for every catalog and every value
    of the other fields. *)
Theorem absent_field_is_wildcard :
  forall (self : BInfoMatcher.t) major minor patch branch build_hash commit_time,
    BInfoMatcher.match_ self
      (VersionSearchQuery.mk major minor patch None build_hash commit_time)
    = BInfoMatcher.match_ self
        (VersionSearchQuery.mk major minor patch (Some "*") build_hash commit_time)
    /\ BInfoMatcher.match_ self
         (VersionSearchQuery.mk major minor patch branch None commit_time)
       = BInfoMatcher.match_ self
           (VersionSearchQuery.mk major minor patch branch (Some "*") commit_time).
Proof.
  intros. split.
  - apply match_branch_wildcard.
  - apply match_build_hash_wildcard.
Qed.

(** C10. Constructing a query with branch [*] or build hash [*] succeeds
    whenever the other fields are valid: the constructor refuses only [^]
    and [-] there.  And [match] treats such a field like an absent one: its
    turn of the loop passes every candidate on, and the result is that of
    the query without the field. *)
Theorem explicit_wildcard_is_accepted_and_ignored :
  forall major minor patch branch build_hash commit_time,
    VersionSearchQuery.__post_init__
      (VersionSearchQuery.mk major minor patch branch build_hash commit_time)
    = Ok tt ->
    VersionSearchQuery.new major minor patch (Some "*") build_hash commit_time
    = Ok (VersionSearchQuery.mk major minor patch (Some "*") build_hash
                                commit_time)
    /\ VersionSearchQuery.new major minor patch branch (Some "*") commit_time
       = Ok (VersionSearchQuery.mk major minor patch branch (Some "*")
                                   commit_time)
    /\ (forall cur,
           BInfoMatcher.turn
             (VersionSearchQuery.mk major minor patch (Some "*") build_hash
                                    commit_time)
             Attr.branch cur
           = Ok (BInfoMatcher.Next cur))
    /\ (forall cur,
           BInfoMatcher.turn
             (VersionSearchQuery.mk major minor patch branch (Some "*")
                                    commit_time)
             Attr.build_hash cur
           = Ok (BInfoMatcher.Next cur))
    /\ (forall self,
           BInfoMatcher.match_ self
             (VersionSearchQuery.mk major minor patch (Some "*") build_hash
                                    commit_time)
           = BInfoMatcher.match_ self
               (VersionSearchQuery.mk major minor patch None build_hash
                                      commit_time))
    /\ (forall self,
           BInfoMatcher.match_ self
             (VersionSearchQuery.mk major minor patch branch (Some "*")
                                    commit_time)
           = BInfoMatcher.match_ self
               (VersionSearchQuery.mk major minor patch branch None
                                      commit_time)).
Proof.
  intros major minor patch branch build_hash commit_time Hvalid.
  unfold VersionSearchQuery.new, VersionSearchQuery.__post_init__ in *.
  cbn [VersionSearchQuery.major VersionSearchQuery.minor
       VersionSearchQuery.patch VersionSearchQuery.branch
       VersionSearchQuery.build_hash VersionSearchQuery.commit_time] in *.
  destruct (VersionSearchQuery.check_positions _) as [[] | e];
    [| cbn [bind] in Hvalid; discriminate Hvalid].
  cbn [bind] in *.
  destruct (truthy build_hash && _) eqn:Ehash;
    [cbn [bind] in Hvalid; discriminate Hvalid |].
  cbn [bind] in *.
  destruct (truthy branch && _) eqn:Ebranch;
    [cbn [bind] in Hvalid; discriminate Hvalid |].
  split; [reflexivity |]. split; [reflexivity |].
  split; [intros cur; apply turn_wildcard; now left |].
  split; [intros cur; apply turn_wildcard; now left |].
  split.
  - intros self. symmetry. apply match_branch_wildcard.
  - intros self. symmetry. apply match_build_hash_wildcard.
Qed.

(** Queries with an explicit [*], built and matched on the fixture. *)
Lemma explicit_wildcard_is_accepted_and_ignored_witness :
  VersionSearchQuery.new (inl 4) (inr "^") (inr "^") (Some "*")
                         (Some "cb886aba06d5") (inr "^")
  = Ok (VersionSearchQuery.mk (inl 4) (inr "^") (inr "^") (Some "*")
                              (Some "cb886aba06d5") (inr "^"))
  /\ VersionSearchQuery.new (inl 4) (inr "^") (inr "^") (Some "daily")
                            (Some "*") (inr "^")
     = Ok (VersionSearchQuery.mk (inl 4) (inr "^") (inr "^") (Some "daily")
                                 (Some "*") (inr "^"))
  /\ BInfoMatcher.match_ matcher
       (VersionSearchQuery.mk (inl 4) (inr "^") (inr "^") (Some "daily")
                              (Some "*") (inr "^"))
     = BInfoMatcher.match_ matcher
         (VersionSearchQuery.mk (inl 4) (inr "^") (inr "^") (Some "daily")
                                None (inr "^")).
Proof.
  destruct (explicit_wildcard_is_accepted_and_ignored
              (inl 4) (inr "^") (inr "^") (Some "daily") (Some "cb886aba06d5")
              (inr "^") eq_refl)
    as [Hb [Hh [_ [_ [_ Hm]]]]].
  split; [exact Hb | split; [exact Hh | exact (Hm matcher)]].
Defined.

(** ** The claim about construction *)

Lemma check_positions_str pos rest :
  VersionSearchQuery.check_positions (VStr pos :: rest)
  = if str_in pos mode_symbols
    then VersionSearchQuery.check_positions rest
    else Raise (VersionSearchQuery.must_be_symbol pos).
Proof.
  cbn [VersionSearchQuery.check_positions].
  destruct (str_in pos mode_symbols); reflexivity.
Qed.

Lemma check_positions_int z rest :
  VersionSearchQuery.check_positions (VInt z :: rest)
  = VersionSearchQuery.check_positions rest.
Proof. reflexivity. Qed.

Lemma check_positions_time d rest :
  VersionSearchQuery.check_positions (VTime d :: rest)
  = VersionSearchQuery.check_positions rest.
Proof. reflexivity. Qed.

(** One position of the loop: a number or a datetime passes, a mode symbol
    passes, another string raises. *)
Ltac check_position x :=
  let s := fresh "pos" in
  let E := fresh "E" in
  destruct x as [? | s]; cbn [value_of_number value_of_time];
  [ rewrite ?check_positions_int, ?check_positions_time
  | rewrite check_positions_str;
    destruct (str_in s mode_symbols) eqn:E;
    [ apply str_in_spec in E
    | right; exists s; split; [reflexivity |];
      split;
      [ first [ left; reflexivity
              | right; left; reflexivity
              | right; right; left; reflexivity
              | right; right; right; reflexivity ]
      | let H := fresh "H" in
        intros H; apply str_in_spec in H; congruence ] ] ].

(** The outcome of the loop over the positions. *)
Lemma check_positions_spec major minor patch commit_time :
  let positions := [value_of_number major; value_of_number minor;
                    value_of_number patch; value_of_time commit_time] in
  (VersionSearchQuery.check_positions positions = Ok tt
   /\ forall pos,
        major = inr pos \/ minor = inr pos \/ patch = inr pos
        \/ commit_time = inr pos -> In pos mode_symbols)
  \/ (exists pos,
         VersionSearchQuery.check_positions positions
         = Raise (VersionSearchQuery.must_be_symbol pos)
         /\ (major = inr pos \/ minor = inr pos \/ patch = inr pos
             \/ commit_time = inr pos)
         /\ ~ In pos mode_symbols).
Proof.
  cbv zeta.
  check_position major; check_position minor; check_position patch;
    check_position commit_time;
    left; (split; [reflexivity |]);
    intros p [H | [H | [H | H]]];
    try discriminate; injection H as <-; assumption.
Qed.

(** The outcome of the test on the build hash or on the branch. *)
Lemma temporal_test_spec (field : option string) :
  (truthy field
   && str_in (match field with Some x => x | None => "" end) ["^"; "-"]
   = true)
  <-> exists x, field = Some x /\ x <> "" /\ (x = "^" \/ x = "-").
Proof.
  destruct field as [x |]; cbn [truthy].
  - split.
    + intros H. apply andb_true_iff in H. destruct H as [Hne Hin].
      exists x. split; [reflexivity |]. split.
      * intros ->. discriminate.
      * apply str_in_spec in Hin. simpl in Hin.
        destruct Hin as [H | [H | []]]; auto.
    + intros [y [[= <-] [Hne Hin]]].
      destruct Hin as [-> | ->]; reflexivity.
  - split; [discriminate |]. intros [x [H _]]. discriminate.
Qed.

(** [__post_init__] returns on the queries that keep the invariants and
    raises [ValueError] on the others. *)
Lemma post_init_decides q :
  (VersionSearchQuery.__post_init__ q = Ok tt /\ ~ invalid_fields q)
  \/ (is_ValueError (VersionSearchQuery.__post_init__ q) /\ invalid_fields q).
Proof.
  destruct q as [major minor patch branch build_hash commit_time].
  unfold VersionSearchQuery.__post_init__, invalid_fields.
  cbn [VersionSearchQuery.major VersionSearchQuery.minor
       VersionSearchQuery.patch VersionSearchQuery.branch
       VersionSearchQuery.build_hash VersionSearchQuery.commit_time].
  destruct (check_positions_spec major minor patch commit_time)
    as [[Hok Hpos] | [pos [Hraise [Hwhere Hbad]]]]; cbv zeta in *.
  2:{ right. rewrite Hraise. split.
      - eexists. reflexivity.
      - left. exists pos. tauto. }
  rewrite Hok. cbn [bind].
  pose proof (temporal_test_spec build_hash) as Hh.
  destruct (truthy build_hash && _) eqn:Eh.
  { right. split.
    - eexists. reflexivity.
    - right. left. now apply Hh. }
  cbn [bind].
  pose proof (temporal_test_spec branch) as Hb.
  destruct (truthy branch && _) eqn:Eb.
  { right. split.
    - eexists. reflexivity.
    - right. right. now apply Hb. }
  left. split; [reflexivity |].
  intros [[pos [Hwhere Hbad]] | [Hbadh | Hbadb]].
  - apply Hbad. now apply Hpos.
  - apply Hh in Hbadh. discriminate.
  - apply Hb in Hbadb. discriminate.
Qed.

(** C6. Constructing a query raises [ValueError] if and only if a field
    breaks the invariants: a number field or the commit time is a string
    other than [^], [*], [-], or the build hash or the branch, present and
    not empty, is [^] or [-].  Otherwise the query is constructed. *)
Theorem construction_fails_iff_invalid :
  forall major minor patch branch build_hash commit_time,
    (is_ValueError
       (VersionSearchQuery.new major minor patch branch build_hash commit_time)
     <-> invalid_fields
           (VersionSearchQuery.mk major minor patch branch build_hash
                                  commit_time))
    /\ (~ invalid_fields
          (VersionSearchQuery.mk major minor patch branch build_hash
                                 commit_time) ->
        VersionSearchQuery.new major minor patch branch build_hash commit_time
        = Ok (VersionSearchQuery.mk major minor patch branch build_hash
                                    commit_time)).
Proof.
  intros major minor patch branch build_hash commit_time.
  unfold VersionSearchQuery.new.
  destruct (post_init_decides
              (VersionSearchQuery.mk major minor patch branch build_hash
                                     commit_time))
    as [[Hok Hvalid] | [[msg Hraise] Hinvalid]].
  - rewrite Hok. cbn [bind]. split; [split |].
    + intros [msg H]. discriminate.
    + intros H. contradiction.
    + reflexivity.
  - rewrite Hraise. cbn [bind]. split; [split |].
    + intros _. assumption.
    + intros _. now exists msg.
    + intros H. contradiction.
Qed.

(** ** Strings and numbers *)

Lemma append_assoc (a b c : string) : (a ++ b) ++ c = a ++ (b ++ c).
Proof. induction a as [|x a IH]; simpl; [reflexivity | now rewrite IH]. Qed.

Lemma append_empty_r (a : string) : a ++ "" = a.
Proof. induction a as [|x a IH]; simpl; [reflexivity | now rewrite IH]. Qed.

Lemma length_append (a b : string) :
  String.length (a ++ b) = (String.length a + String.length b)%nat.
Proof. induction a as [|x a IH]; simpl; [reflexivity | now rewrite IH]. Qed.

Lemma substring_prefix (a b : string) :
  substring 0 (String.length a) (a ++ b) = a.
Proof.
  induction a as [|x a IH]; simpl.
  - destruct b; reflexivity.
  - now rewrite IH.
Qed.

Lemma consumed_app (w rest : string) : Re.consumed (w ++ rest) rest = w.
Proof.
  unfold Re.consumed. rewrite length_append.
  replace (String.length w + String.length rest - String.length rest)%nat
    with (String.length w) by lia.
  apply substring_prefix.
Qed.

Lemma is_digit_cases c :
  is_digit c = true ->
  In c ["0"; "1"; "2"; "3"; "4"; "5"; "6"; "7"; "8"; "9"]%char.
Proof.
  destruct c as [[] [] [] [] [] [] [] []]; intros H;
    try discriminate H; simpl; tauto.
Qed.

Lemma digit_not_mode c : is_digit c = true -> mode_char c = false.
Proof.
  intros H. apply is_digit_cases in H. simpl in H.
  repeat (destruct H as [<- | H]; [reflexivity |]). contradiction.
Qed.

Lemma uint_of_digits s :
  all_chars is_digit s = true ->
  exists u, NilEmpty.uint_of_string s = Some u.
Proof.
  induction s as [|c s IH]; simpl; intros H.
  - eexists. reflexivity.
  - apply andb_true_iff in H. destruct H as [Hc Hs].
    destruct (IH Hs) as [u Hu]. rewrite Hu.
    apply is_digit_cases in Hc. simpl in Hc.
    repeat (destruct Hc as [<- | Hc]; [eexists; reflexivity |]).
    contradiction.
Qed.

Lemma leading_digits_all s :
  all_chars is_digit s = true ->
  leading_digits s = Z.of_nat (String.length s).
Proof.
  induction s as [|c s IH]; [reflexivity |].
  cbn [all_chars leading_digits String.length]. intros H.
  apply andb_true_iff in H. destruct H as [-> Hs].
  rewrite (IH Hs). lia.
Qed.

Lemma digit_not_minus c : is_digit c = true -> is_char "-" c = false.
Proof.
  intros H. apply is_digit_cases in H. simpl in H.
  repeat (destruct H as [<- | H]; [reflexivity |]). contradiction.
Qed.

(** What [int] does on a string that [isnumeric] accepts: it counts the
    characters, and converts them when they are not too many. *)
Lemma int_numeric tok :
  isnumeric tok = true ->
  exists u,
    NilEmpty.uint_of_string tok = Some u
    /\ int tok
       = if int_max_str_digits <? Z.of_nat (String.length tok)
         then Raise (int_limit_exceeded (Z.of_nat (String.length tok)))
         else Ok (Z.of_uint u).
Proof.
  unfold isnumeric, int. intros H. apply andb_true_iff in H.
  destruct H as [Hne Hall].
  destruct tok as [|c tok]; [discriminate |].
  destruct (uint_of_digits _ Hall) as [u Hu].
  exists u. split; [exact Hu |].
  pose proof Hall as Hall'.
  cbn [all_chars] in Hall'. apply andb_true_iff in Hall'.
  destruct Hall' as [Hc _].
  rewrite (digit_not_minus c Hc), (leading_digits_all _ Hall).
  destruct (int_max_str_digits <? _); [reflexivity |].
  unfold NilZero.int_of_string. fold (is_char "-" c).
  assert (Hminus : Ascii.eqb c "-" = false).
  { rewrite Ascii.eqb_sym. exact (digit_not_minus c Hc). }
  rewrite Hminus. unfold NilZero.uint_of_string. rewrite Hu. reflexivity.
Qed.

(** [int] returns on the strings that [isnumeric] accepts and that have at
    most [int_max_str_digits] characters. *)
Lemma int_of_numeric tok :
  isnumeric tok = true ->
  Z.of_nat (String.length tok) <= int_max_str_digits ->
  exists n, int tok = Ok n.
Proof.
  intros Hnum Hlen. destruct (int_numeric tok Hnum) as [u [_ ->]].
  destruct (Z.ltb_spec int_max_str_digits (Z.of_nat (String.length tok)));
    [lia |].
  eexists. reflexivity.
Qed.

(** ... and raises [ValueError] on those that have more. *)
Lemma int_over_limit tok :
  isnumeric tok = true ->
  int_max_str_digits < Z.of_nat (String.length tok) ->
  int tok = Raise (int_limit_exceeded (Z.of_nat (String.length tok))).
Proof.
  intros Hnum Hlen. destruct (int_numeric tok Hnum) as [u [_ ->]].
  destruct (Z.ltb_spec int_max_str_digits (Z.of_nat (String.length tok)));
    [reflexivity | lia].
Qed.

Lemma digits_of_uint u : all_chars is_digit (NilEmpty.string_of_uint u) = true.
Proof. induction u; simpl; auto. Qed.

(** The decimal digits of an integer that is not negative are digits, and
    [int] reads them back when they are not too many. *)
Lemma decimal_numeric z : 0 <= z -> isnumeric (decimal z) = true.
Proof.
  intros Hz. unfold decimal, isnumeric.
  destruct z as [|p|p]; [reflexivity | | lia].
  simpl. pose proof (DecimalPos.Unsigned.to_uint_nonnil p) as Hnn.
  unfold NilZero.string_of_uint.
  destruct (Pos.to_uint p) as [|u|u|u|u|u|u|u|u|u|u] eqn:E;
    try congruence; simpl; apply digits_of_uint.
Qed.

Lemma int_of_string_decimal z :
  NilZero.int_of_string (decimal z) = Some (Z.to_int z).
Proof.
  unfold decimal. apply NilZero.isi.
  - destruct z; simpl; try discriminate.
    intros [= H]. now apply DecimalPos.Unsigned.to_uint_nonnil in H.
  - destruct z; simpl; try discriminate.
    intros [= H]. now apply DecimalPos.Unsigned.to_uint_nonnil in H.
Qed.

Lemma int_decimal z :
  0 <= z ->
  Z.of_nat (String.length (decimal z)) <= int_max_str_digits ->
  int (decimal z) = Ok z.
Proof.
  intros Hz Hlen. pose proof (decimal_numeric z Hz) as Hnum.
  destruct (int_numeric _ Hnum) as [u [Hu ->]].
  destruct (Z.ltb_spec int_max_str_digits
              (Z.of_nat (String.length (decimal z)))); [lia |].
  f_equal.
  pose proof (int_of_string_decimal z) as Hback.
  unfold NilZero.int_of_string in Hback.
  destruct (decimal z) as [|c rest] eqn:E; [discriminate |].
  unfold isnumeric in Hnum. apply andb_true_iff in Hnum.
  destruct Hnum as [_ Hall]. cbn [all_chars] in Hall.
  apply andb_true_iff in Hall. destruct Hall as [Hc _].
  assert (Hminus : Ascii.eqb c "-" = false).
  { rewrite Ascii.eqb_sym. exact (digit_not_minus c Hc). }
  rewrite Hminus in Hback. unfold NilZero.uint_of_string in Hback.
  rewrite Hu in Hback. cbn [option_map] in Hback.
  injection Hback as Hback.
  change (Z.of_uint u) with (Z.of_int (Pos u)). rewrite Hback.
  apply DecimalZ.of_to.
Qed.

(** [str] of an integer returns its decimal digits, when it returns. *)
Lemma str_int_returns z text :
  str_int z = Ok text ->
  text = decimal z
  /\ (0 <= z -> Z.of_nat (String.length (decimal z)) <= int_max_str_digits).
Proof.
  unfold str_int.
  destruct (Z.ltb_spec int_max_str_digits
              (Z.of_nat (String.length (decimal z))
               - (if z <? 0 then 1 else 0))) as [H | H]; [discriminate |].
  intros [= <-]. split; [reflexivity |]. intros Hz.
  destruct (Z.ltb_spec z 0); lia.
Qed.

Lemma str_int_within z :
  0 <= z ->
  Z.of_nat (String.length (decimal z)) <= int_max_str_digits ->
  str_int z = Ok (decimal z).
Proof.
  intros Hz Hlen. unfold str_int.
  destruct (Z.ltb_spec z 0); [lia |].
  destruct (Z.ltb_spec int_max_str_digits
              (Z.of_nat (String.length (decimal z)) - 0)); [lia |].
  reflexivity.
Qed.

Lemma mode_symbol_not_numeric tok :
  In tok mode_symbols -> isnumeric tok = false.
Proof.
  simpl. intros [<- | [<- | [<- | []]]]; reflexivity.
Qed.

Lemma mode_char_symbol c :
  mode_char c = true <-> In (String c "") mode_symbols.
Proof.
  split.
  - intros H. unfold mode_char, is_char in H.
    rewrite !orb_true_iff, !Ascii.eqb_eq in H.
    destruct H as [[<- | <-] | <-]; simpl; tauto.
  - intros H. simpl in H.
    destruct H as [[= <-] | [[= <-] | [[= <-] | []]]]; reflexivity.
Qed.

(** ** The regular expression *)

(** *** What a successful match tells about the text *)

Section RunInversion.
Context {R : Type}.

Lemma plus_inv p s (k : string -> option R) res :
  Re.plus p s k = Some res ->
  exists w rest, s = w ++ rest /\ token_of p w /\ k rest = Some res.
Proof.
  induction s as [|c s IH]; simpl; [discriminate |].
  destruct (p c) eqn:Hc; [| discriminate].
  destruct (Re.plus p s k) as [r |] eqn:Hplus.
  - intros [= ->]. destruct (IH eq_refl) as [w [rest [-> [[Hne Hall] Hk]]]].
    exists (String c w), rest. repeat split; simpl; auto.
    now rewrite Hc, Hall.
  - intros Hk. exists (String c ""), s. repeat split; simpl; auto.
    now rewrite Hc.
Qed.

Lemma class_inv p s g (k : string -> Re.groups -> option R) res :
  Re.run (Re.Class p) s g k = Some res ->
  exists c rest, s = String c rest /\ p c = true /\ k rest g = Some res.
Proof.
  simpl. destruct s as [|c rest]; [discriminate |].
  destruct (p c) eqn:Hc; [| discriminate].
  intros Hk. now exists c, rest.
Qed.

Lemma char_inv a s g (k : string -> Re.groups -> option R) res :
  Re.run (Re.Class (is_char a)) s g k = Some res ->
  exists rest, s = String a rest /\ k rest g = Some res.
Proof.
  intros H. apply class_inv in H. destruct H as [c [rest [-> [Hc Hk]]]].
  apply Ascii.eqb_eq in Hc. subst. now exists rest.
Qed.

Lemma group_plus_inv n p s g (k : string -> Re.groups -> option R) res :
  Re.run (Re.Group n (Re.Plus p)) s g k = Some res ->
  exists tok rest,
    s = tok ++ rest /\ token_of p tok
    /\ k rest (Re.set_group (n - 1) tok g) = Some res.
Proof.
  cbn [Re.run]. intros H. apply plus_inv in H.
  destruct H as [w [rest [-> [Htok Hk]]]].
  rewrite consumed_app in Hk. now exists w, rest.
Qed.

Lemma group_mode_inv n s g (k : string -> Re.groups -> option R) res :
  Re.run (Re.Group n (Re.Class mode_char)) s g k = Some res ->
  exists tok rest,
    s = tok ++ rest /\ In tok mode_symbols
    /\ k rest (Re.set_group (n - 1) tok g) = Some res.
Proof.
  cbn [Re.run]. destruct s as [|c rest]; [discriminate |].
  destruct (mode_char c) eqn:Hc; [| discriminate].
  intros Hk.
  change (Re.consumed (String c rest) rest)
    with (Re.consumed (String c "" ++ rest) rest) in Hk.
  rewrite consumed_app in Hk.
  exists (String c ""), rest. repeat split; auto.
  now apply mode_char_symbol.
Qed.

Lemma group_alt n r1 r2 s g (k : string -> Re.groups -> option R) res :
  Re.run (Re.Group n (Re.Alt r1 r2)) s g k = Some res ->
  Re.run (Re.Group n r1) s g k = Some res
  \/ Re.run (Re.Group n r2) s g k = Some res.
Proof.
  cbn [Re.run].
  destruct (Re.run r1 s g _) as [r |]; [left | right]; assumption.
Qed.

Lemma number_group_inv n s g (k : string -> Re.groups -> option R) res :
  Re.run (number_group n) s g k = Some res ->
  exists tok rest,
    s = tok ++ rest /\ number_token tok
    /\ k rest (Re.set_group (n - 1) tok g) = Some res.
Proof.
  unfold number_group. intros H. apply group_alt in H. destruct H as [H | H].
  - apply group_mode_inv in H. destruct H as [tok [rest [-> [Htok Hk]]]].
    exists tok, rest. split; [reflexivity |]. split; [now left | assumption].
  - apply group_plus_inv in H. destruct H as [tok [rest [-> [[Hne Hall] Hk]]]].
    exists tok, rest. split; [reflexivity |]. split; [| assumption].
    right. unfold isnumeric. now rewrite Hne, Hall.
Qed.

Lemma run_cat r1 r2 s g (k : string -> Re.groups -> option R) :
  Re.run (Re.Cat r1 r2) s g k
  = Re.run r1 s g (fun s' g' => Re.run r2 s' g' k).
Proof. reflexivity. Qed.

Lemma opt_inv r s g (k : string -> Re.groups -> option R) res :
  Re.run (Re.Opt r) s g k = Some res ->
  Re.run r s g k = Some res \/ k s g = Some res.
Proof.
  cbn [Re.run].
  destruct (Re.run r s g k) as [x |]; [left | right]; assumption.
Qed.

(** An optional part made of a separator and a group of one set. *)
Lemma optional_inv a n p s g (k : string -> Re.groups -> option R) res :
  Re.run (Re.Opt (Re.Cat (Re.Class (is_char a)) (Re.Group n (Re.Plus p))))
         s g k = Some res ->
  exists tok rest,
    s = optional_part (String a "") tok ++ rest
    /\ optional_token p tok
    /\ k rest (match tok with
               | Some x => Re.set_group (n - 1) x g
               | None => g
               end) = Some res.
Proof.
  intros H. apply opt_inv in H. destruct H as [H | H].
  - rewrite run_cat in H. apply char_inv in H. destruct H as [s' [-> H]].
    apply group_plus_inv in H. destruct H as [w [rest [-> [Htok Hk]]]].
    exists (Some w), rest. split; [reflexivity |]. split; assumption.
  - exists None, s. split; [reflexivity |]. split; [exact I | assumption].
Qed.

(** The optional commit time. *)
Lemma optional_time_inv s g (k : string -> Re.groups -> option R) res :
  Re.run (Re.Opt (Re.Cat (Re.Class (is_char "@"))
                         (Re.Group 6 (Re.Alt (Re.Class mode_char)
                                             (Re.Plus time_char)))))
         s g k = Some res ->
  exists tok rest,
    s = optional_part "@" tok ++ rest
    /\ match tok with Some x => time_token x | None => True end
    /\ k rest (match tok with
               | Some x => Re.set_group 5 x g
               | None => g
               end) = Some res.
Proof.
  intros H. apply opt_inv in H. destruct H as [H | H].
  - rewrite run_cat in H. apply char_inv in H. destruct H as [s' [-> H]].
    apply group_alt in H. destruct H as [H | H].
    + apply group_mode_inv in H. destruct H as [tok [rest [-> [Htok Hk]]]].
      exists (Some tok), rest. split; [reflexivity |].
      split; [now left | assumption].
    + apply group_plus_inv in H. destruct H as [tok [rest [-> [Htok Hk]]]].
      exists (Some tok), rest. split; [reflexivity |].
      split; [now right | assumption].
  - exists None, s. split; [reflexivity |]. split; [exact I | assumption].
Qed.

Lemma eos_inv s g (k : string -> Re.groups -> option R) res :
  Re.run Re.Eos s g k = Some res ->
  (s = "" \/ s = String "010" "") /\ k s g = Some res.
Proof.
  cbn [Re.run]. destruct (Re.at_end s) eqn:Hend; [| discriminate].
  intros Hk. split; [| assumption].
  destruct s as [|c [|c' s']]; cbn [Re.at_end] in Hend;
    try discriminate; auto.
  unfold is_char in Hend. apply Ascii.eqb_eq in Hend. subst. now right.
Qed.
End RunInversion.

(** A text that the pattern matches splits into the tokens of the grammar,
    and the groups of the match are these tokens. *)
Lemma search_sound s m : search s = Some m -> reads_as s m.
Proof.
  unfold search, Re.match_, VERSION_SEARCH_REGEX. intros H.
  rewrite run_cat in H.
  apply number_group_inv in H. destruct H as [major [s1 [-> [Hmajor H]]]].
  rewrite run_cat in H.
  apply char_inv in H. destruct H as [s2 [-> H]].
  rewrite run_cat in H.
  apply number_group_inv in H. destruct H as [minor [s3 [-> [Hminor H]]]].
  rewrite run_cat in H.
  apply char_inv in H. destruct H as [s4 [-> H]].
  rewrite run_cat in H.
  apply number_group_inv in H. destruct H as [patch [s5 [-> [Hpatch H]]]].
  rewrite run_cat in H.
  apply optional_inv in H. destruct H as [branch [s6 [-> [Hbranch H]]]].
  rewrite run_cat in H.
  apply optional_inv in H. destruct H as [build_hash [s7 [-> [Hhash H]]]].
  rewrite run_cat in H.
  apply optional_time_inv in H. destruct H as [commit_time [s8 [-> [Htime H]]]].
  apply eos_inv in H. destruct H as [Htail H].
  exists major, minor, patch, branch, build_hash, commit_time, s8.
  repeat (split; [assumption |]). split; [reflexivity |].
  injection H as <-.
  destruct branch, build_hash, commit_time; reflexivity.
Qed.

(** *** Every text of the grammar is matched *)

Section RunComplete.
Context {R : Type}.

Lemma plus_complete p tok rest (k : string -> option R) :
  token_of p tok -> k rest <> None -> Re.plus p (tok ++ rest) k <> None.
Proof.
  intros [Hne Hall] Hk.
  induction tok as [|c tok IH]; [discriminate |].
  simpl in Hall. apply andb_true_iff in Hall. destruct Hall as [Hc Hall].
  simpl. rewrite Hc.
  destruct (Re.plus p (tok ++ rest) k) eqn:E; [discriminate |].
  destruct tok as [|c' tok']; [exact Hk |].
  exfalso. now apply IH.
Qed.

Lemma group_plus_complete n p tok rest g
    (k : string -> Re.groups -> option R) :
  token_of p tok -> k rest (Re.set_group (n - 1) tok g) <> None ->
  Re.run (Re.Group n (Re.Plus p)) (tok ++ rest) g k <> None.
Proof.
  intros Htok Hk. cbn [Re.run]. apply plus_complete; [assumption |].
  now rewrite consumed_app.
Qed.

Lemma group_mode_complete n tok rest g
    (k : string -> Re.groups -> option R) :
  In tok mode_symbols -> k rest (Re.set_group (n - 1) tok g) <> None ->
  Re.run (Re.Group n (Re.Class mode_char)) (tok ++ rest) g k <> None.
Proof.
  intros Hsym Hk.
  assert (H : exists c, tok = String c "" /\ mode_char c = true).
  { simpl in Hsym.
    destruct Hsym as [<- | [<- | [<- | []]]]; eexists; split; reflexivity. }
  destruct H as [c [-> Hc]].
  change (String c "" ++ rest) with (String c rest).
  cbn [Re.run]. rewrite Hc.
  change (String c rest) with (String c "" ++ rest).
  now rewrite consumed_app.
Qed.

Lemma group_alt_complete n r1 r2 s g (k : string -> Re.groups -> option R) :
  Re.run (Re.Group n r1) s g k <> None
  \/ Re.run (Re.Group n r2) s g k <> None ->
  Re.run (Re.Group n (Re.Alt r1 r2)) s g k <> None.
Proof.
  cbn [Re.run].
  destruct (Re.run r1 s g _) as [res |]; [discriminate |].
  intros [H | H]; [congruence | assumption].
Qed.

Lemma number_group_complete n tok rest g
    (k : string -> Re.groups -> option R) :
  number_token tok -> k rest (Re.set_group (n - 1) tok g) <> None ->
  Re.run (number_group n) (tok ++ rest) g k <> None.
Proof.
  intros [Hsym | Hnum] Hk; apply group_alt_complete.
  - left. now apply group_mode_complete.
  - right. apply group_plus_complete; [| assumption].
    unfold isnumeric in Hnum. apply andb_true_iff in Hnum. exact Hnum.
Qed.

Lemma char_complete a rest g (k : string -> Re.groups -> option R) :
  k rest g <> None ->
  Re.run (Re.Class (is_char a)) (String a rest) g k <> None.
Proof.
  intros Hk. cbn [Re.run]. unfold is_char. now rewrite Ascii.eqb_refl.
Qed.

Lemma opt_complete r s g (k : string -> Re.groups -> option R) :
  Re.run r s g k <> None \/ k s g <> None ->
  Re.run (Re.Opt r) s g k <> None.
Proof.
  cbn [Re.run]. destruct (Re.run r s g k) as [res |]; [discriminate |].
  intros [H | H]; [congruence | assumption].
Qed.

Lemma optional_complete a n p tok rest g
    (k : string -> Re.groups -> option R) :
  optional_token p tok ->
  k rest (match tok with
          | Some x => Re.set_group (n - 1) x g
          | None => g
          end) <> None ->
  Re.run (Re.Opt (Re.Cat (Re.Class (is_char a)) (Re.Group n (Re.Plus p))))
         (optional_part (String a "") tok ++ rest) g k <> None.
Proof.
  intros Htok Hk. apply opt_complete. destruct tok as [x |].
  - left. rewrite run_cat. cbn [optional_part]. rewrite append_assoc.
    change (String a "" ++ ?y) with (String a y).
    apply char_complete. now apply group_plus_complete.
  - now right.
Qed.

Lemma optional_time_complete tok rest g
    (k : string -> Re.groups -> option R) :
  match tok with Some x => time_token x | None => True end ->
  k rest (match tok with
          | Some x => Re.set_group 5 x g
          | None => g
          end) <> None ->
  Re.run (Re.Opt (Re.Cat (Re.Class (is_char "@"))
                         (Re.Group 6 (Re.Alt (Re.Class mode_char)
                                             (Re.Plus time_char)))))
         (optional_part "@" tok ++ rest) g k <> None.
Proof.
  intros Htok Hk. apply opt_complete. destruct tok as [x |].
  - left. rewrite run_cat. cbn [optional_part]. rewrite append_assoc.
    change ("@" ++ ?y) with (String "@" y).
    apply char_complete. apply group_alt_complete.
    destruct Htok as [Hsym | Htok].
    + left. now apply group_mode_complete.
    + right. now apply group_plus_complete.
  - now right.
Qed.

Lemma eos_complete tail g (k : string -> Re.groups -> option R) :
  tail = "" \/ tail = String "010" "" -> k tail g <> None ->
  Re.run Re.Eos tail g k <> None.
Proof. intros [-> | ->] Hk; exact Hk. Qed.
End RunComplete.

(** The pattern matches every text of the grammar (by backtracking, possibly
    with other groups than a given reading of the text). *)
Lemma search_complete s : in_grammar s -> search s <> None.
Proof.
  intros [m H].
  destruct H
    as [major [minor [patch [branch [build_hash [commit_time [tail H]]]]]]].
  destruct H
    as [Hmajor [Hminor [Hpatch [Hbranch [Hhash [Htime [Htail [-> _]]]]]]]].
  unfold search, Re.match_, VERSION_SEARCH_REGEX.
  rewrite run_cat. apply number_group_complete; [assumption |].
  rewrite run_cat. change ("." ++ ?x) with (String "." x).
  apply char_complete.
  rewrite run_cat. apply number_group_complete; [assumption |].
  rewrite run_cat. change ("." ++ ?x) with (String "." x).
  apply char_complete.
  rewrite run_cat. apply number_group_complete; [assumption |].
  rewrite run_cat. apply (optional_complete "-"); [assumption |].
  rewrite run_cat. apply (optional_complete "+"); [assumption |].
  rewrite run_cat. apply optional_time_complete; [assumption |].
  apply eos_complete; [assumption | discriminate].
Qed.

(** The texts that the pattern matches are the texts of the grammar. *)
Lemma search_matches_grammar s : search s = None <-> ~ in_grammar s.
Proof.
  split.
  - intros Hnone Hin. now apply search_complete in Hin.
  - intros Hout. destruct (search s) as [m |] eqn:E; [| reflexivity].
    exfalso. apply Hout. exists m. now apply search_sound.
Qed.

(** ** The claims about parsing *)

(** What [_parse] makes of a number token: an integer, or the mode symbol
    itself. *)
Lemma number_of_group_token tok :
  number_token tok ->
  within_limit tok ->
  exists x,
    number_of_group (Some tok) = Ok x
    /\ match x with
       | inl _ => isnumeric tok = true
       | inr sym => sym = tok /\ In sym mode_symbols
       end.
Proof.
  intros [Hsym | Hnum] Hlen; unfold number_of_group.
  - rewrite (mode_symbol_not_numeric _ Hsym). exists (inr tok). auto.
  - rewrite Hnum. destruct (int_of_numeric _ Hnum Hlen) as [n Hn].
    rewrite Hn. exists (inl n). auto.
Qed.

(** A mode symbol is one character long. *)
Lemma mode_symbol_within_limit tok : In tok mode_symbols -> within_limit tok.
Proof.
  unfold within_limit, int_max_str_digits. simpl.
  intros [<- | [<- | [<- | []]]]; simpl; lia.
Qed.

(** A number token of more than [int_max_str_digits] digits makes [int],
    and so [_parse], raise [ValueError]. *)
Lemma number_of_group_over_limit tok :
  number_token tok ->
  ~ within_limit tok ->
  number_of_group (Some tok)
  = Raise (int_limit_exceeded (Z.of_nat (String.length tok))).
Proof.
  intros [Hsym | Hnum] Hlen; unfold number_of_group.
  - contradiction Hlen. now apply mode_symbol_within_limit.
  - rewrite Hnum. rewrite (int_over_limit tok Hnum); [reflexivity |].
    unfold within_limit in Hlen. lia.
Qed.

Lemma within_limit_dec tok : within_limit tok \/ ~ within_limit tok.
Proof. unfold within_limit. lia. Qed.

Lemma check_positions_number x tok rest :
  match x with
  | inl _ => isnumeric tok = true
  | inr sym => sym = tok /\ In sym mode_symbols
  end ->
  VersionSearchQuery.check_positions (value_of_number x :: rest)
  = VersionSearchQuery.check_positions rest.
Proof.
  destruct x as [n | sym]; cbn [value_of_number]; intros H.
  - reflexivity.
  - destruct H as [_ Hin]. rewrite check_positions_str.
    apply str_in_spec in Hin. now rewrite Hin.
Qed.

(** X19. A text that the pattern does not match, that is a text that does
    not split into tokens of the character sets of the pattern, one final
    newline apart, makes [_parse] and [parse] raise [ValueError] with a
    message that ends with the text itself; no query is returned. *)
Theorem parse_rejects_malformed_text :
  forall (fromisoformat : string -> option datetime) (s : string),
    search s = None \/ ~ in_grammar s ->
    _parse fromisoformat s
    = Raise (ValueError ("Invalid version search query: " ++ s))
    /\ VersionSearchQuery.parse fromisoformat s
       = Raise (ValueError ("Invalid version search query: " ++ s)).
Proof.
  intros fromisoformat s H.
  assert (Hnone : search s = None).
  { destruct H as [H | H]; [assumption | now apply search_matches_grammar]. }
  unfold VersionSearchQuery.parse, _parse. rewrite Hnone. split; reflexivity.
Qed.

(** The malformed text of the test suite. *)
Lemma parse_rejects_malformed_text_witness :
  search "abc" = None
  /\ VersionSearchQuery.parse Iso.fromisoformat "abc"
     = Raise (ValueError "Invalid version search query: abc").
Proof.
  split; [reflexivity |].
  exact (proj2 (parse_rejects_malformed_text Iso.fromisoformat "abc"
                  (or_introl eq_refl))).
Defined.

(** *** The grammar of the specification and the final newline *)

Lemma all_chars_app p (a b : string) :
  all_chars p (a ++ b) = all_chars p a && all_chars p b.
Proof.
  induction a as [| c a IH]; [reflexivity |].
  cbn [append all_chars]. rewrite IH. apply andb_assoc.
Qed.

(** A text made of characters of a set that does not hold the newline holds
    no newline. *)
Lemma set_no_newline p :
  p "010"%char = false ->
  forall s, all_chars p s = true -> no_newline s = true.
Proof.
  intros Hp s. unfold no_newline.
  induction s as [| c s IH]; [reflexivity |].
  cbn [all_chars]. intros H. apply andb_true_iff in H. destruct H as [Hc Hs].
  rewrite (IH Hs), andb_true_r. unfold is_char.
  destruct (Ascii.eqb_spec "010"%char c) as [<- | _]; [congruence | reflexivity].
Qed.

Lemma no_newline_app (a b : string) :
  no_newline a = true -> no_newline b = true -> no_newline (a ++ b) = true.
Proof.
  unfold no_newline. intros Ha Hb. now rewrite all_chars_app, Ha, Hb.
Qed.

Lemma mode_symbol_no_newline tok :
  In tok mode_symbols -> no_newline tok = true.
Proof. simpl. intros [<- | [<- | [<- | []]]]; reflexivity. Qed.

Lemma number_token_no_newline tok : number_token tok -> no_newline tok = true.
Proof.
  intros [H | H]; [now apply mode_symbol_no_newline |].
  unfold isnumeric in H. apply andb_true_iff in H.
  now apply (set_no_newline is_digit).
Qed.

Lemma optional_part_no_newline p sep tok :
  p "010"%char = false ->
  no_newline sep = true ->
  optional_token p tok ->
  no_newline (optional_part sep tok) = true.
Proof.
  intros Hp Hsep. destruct tok as [x |]; [| reflexivity].
  intros [_ Hall]. cbn [optional_part].
  apply no_newline_app; [exact Hsep |]. now apply (set_no_newline p).
Qed.

Lemma digits_of_length_no_newline n tok :
  digits_of_length n tok -> no_newline tok = true.
Proof. intros [_ H]. now apply (set_no_newline is_digit). Qed.

Lemma iso_timestamp_no_newline tok : iso_timestamp tok -> no_newline tok = true.
Proof.
  intros [year [month [day [sep [hour [minute [second [offset H]]]]]]]].
  destruct H as [Hy [Hm [Hd [Hsep [Hh [Hmin [Hs [Hoff ->]]]]]]]].
  assert (Eoff : no_newline offset = true).
  { destruct Hoff as [-> | [sign [hh [mm [Hsign [Hhh [Hmm ->]]]]]]];
      [reflexivity |].
    apply no_newline_app; [destruct Hsign as [-> | ->]; reflexivity |].
    apply no_newline_app; [eapply digits_of_length_no_newline; eassumption |].
    apply no_newline_app; [reflexivity |].
    eapply digits_of_length_no_newline; eassumption. }
  assert (Esep : no_newline sep = true).
  { destruct Hsep as [-> | ->]; reflexivity. }
  repeat first
    [ assumption
    | reflexivity
    | eapply digits_of_length_no_newline; eassumption
    | apply no_newline_app ].
Qed.

(** A text of the grammar of the specification holds no newline. *)
Lemma spec_grammar_no_newline s : spec_grammar s -> no_newline s = true.
Proof.
  intros [major [minor [patch [branch [build_hash [commit_time H]]]]]].
  destruct H as [Hmajor [Hminor [Hpatch [Hbranch [Hhash [Htime ->]]]]]].
  assert (Etime : no_newline (optional_part "@" commit_time) = true).
  { destruct commit_time as [tok |]; [| reflexivity].
    cbn [optional_part]. apply no_newline_app; [reflexivity |].
    destruct Htime as [H | H];
      [now apply mode_symbol_no_newline | now apply iso_timestamp_no_newline]. }
  repeat first
    [ exact Etime
    | reflexivity
    | apply number_token_no_newline; assumption
    | apply (optional_part_no_newline branch_char); [reflexivity | reflexivity | assumption]
    | apply (optional_part_no_newline is_alnum); [reflexivity | reflexivity | assumption]
    | apply no_newline_app ].
Qed.

(** C7.  The text [1.2.3] followed by a newline is not a text of the grammar
    of the specification, which is anchored at both ends and whose tokens
    hold no newline; yet the pattern matches it, [$] matching before a final
    newline, and [parse] returns the query of [1.2.3] where the claim has it
    raise [ValueError]. *)
Theorem parse_accepts_a_final_newline :
  spec_grammar "1.2.3"
  /\ ~ spec_grammar ("1.2.3" ++ newline)
  /\ search ("1.2.3" ++ newline)
     = Some [Some "1"; Some "2"; Some "3"; None; None; None]
  /\ VersionSearchQuery.parse Iso.fromisoformat ("1.2.3" ++ newline)
     = Ok (VersionSearchQuery.mk (inl 1) (inl 2) (inl 3) None None (inr "^")).
Proof.
  split; [| split; [| split]].
  - exists "1", "2", "3", None, None, None.
    repeat split; try (right; reflexivity).
  - intros H. apply spec_grammar_no_newline in H. discriminate.
  - reflexivity.
  - vm_compute. reflexivity.
Qed.

(** C4, as the code has it.  When the commit time token of a text that the
    pattern matches is not a mode symbol and [fromisoformat] refuses it,
    [_parse] returns and keeps the token as it is, the number tokens being
    within the limit of [int]; [parse] then raises: the constructor refuses
    a commit time that is a string other than a mode symbol.  No query is
    made, so nothing is matched. *)
Theorem unparsed_commit_time_is_rejected_at_construction :
  forall (fromisoformat : string -> option datetime) s m tok,
    search s = Some m ->
    numbers_within_limit m ->
    Re.group m 6 = Some tok ->
    ~ In tok mode_symbols ->
    fromisoformat tok = None ->
    (exists major minor patch,
        _parse fromisoformat s
        = Ok (major, minor, patch, Re.group m 4, Re.group m 5, inr tok))
    /\ VersionSearchQuery.parse fromisoformat s
       = Raise (VersionSearchQuery.must_be_symbol tok).
Proof.
  intros fromisoformat s m tok Hsearch Hlimit Hgroup Hsym Hiso.
  destruct (search_sound _ _ Hsearch)
    as [major [minor [patch [branch [build_hash [commit_time [tail H]]]]]]].
  destruct H as [Hmajor [Hminor [Hpatch [_ [_ [_ [_ [_ ->]]]]]]]].
  cbn in Hgroup. subst commit_time.
  destruct (number_of_group_token _ Hmajor) as [x1 [E1 V1]].
  { apply (Hlimit 1%nat); [simpl; auto | reflexivity]. }
  destruct (number_of_group_token _ Hminor) as [x2 [E2 V2]].
  { apply (Hlimit 2%nat); [simpl; auto | reflexivity]. }
  destruct (number_of_group_token _ Hpatch) as [x3 [E3 V3]].
  { apply (Hlimit 3%nat); [simpl; auto | reflexivity]. }
  assert (Hnot : str_in tok mode_symbols = false).
  { destruct (str_in tok mode_symbols) eqn:E; [| reflexivity].
    apply str_in_spec in E. contradiction. }
  assert (Hparse : _parse fromisoformat s
                   = Ok (x1, x2, x3, branch, build_hash, inr tok)).
  { unfold _parse. rewrite Hsearch.
    cbn [Re.group Nat.sub nth].
    rewrite E1, E2, E3. cbn [bind]. rewrite Hnot. cbn [negb].
    now rewrite Hiso. }
  split.
  - exists x1, x2, x3. exact Hparse.
  - unfold VersionSearchQuery.parse. rewrite Hparse. cbn [bind].
    unfold VersionSearchQuery.new, VersionSearchQuery.__post_init__.
    cbn [VersionSearchQuery.major VersionSearchQuery.minor
         VersionSearchQuery.patch VersionSearchQuery.commit_time].
    rewrite (check_positions_number x1 major), (check_positions_number x2 minor),
      (check_positions_number x3 patch) by assumption.
    cbn [value_of_time]. rewrite check_positions_str, Hnot. reflexivity.
Qed.

(** A text whose commit time is not a timestamp. *)
Lemma unparsed_commit_time_is_rejected_at_construction_witness :
  _parse Iso.fromisoformat "4.3.^-stable@TTT"
  = Ok (inl 4, inl 3, inr "^", Some "stable", None, inr "TTT")
  /\ VersionSearchQuery.parse Iso.fromisoformat "4.3.^-stable@TTT"
     = Raise (VersionSearchQuery.must_be_symbol "TTT").
Proof.
  assert (Hsym : ~ In "TTT" mode_symbols).
  { simpl. intros [H | [H | [H | []]]]; discriminate. }
  assert (Hlimit : numbers_within_limit
                     [Some "4"; Some "3"; Some "^"; Some "stable"; None;
                      Some "TTT"]).
  { intros n x [<- | [<- | [<- | []]]] [= <-]; vm_compute; discriminate. }
  destruct (unparsed_commit_time_is_rejected_at_construction
              Iso.fromisoformat "4.3.^-stable@TTT"
              [Some "4"; Some "3"; Some "^"; Some "stable"; None; Some "TTT"]
              "TTT" eq_refl Hlimit eq_refl Hsym eq_refl) as [_ Hparse].
  split; [reflexivity | exact Hparse].
Defined.

(** C4, as the specification has it, fails: the token [TTT] is made of
    characters of the time set, is not a mode symbol and is not an ISO 8601
    timestamp, yet parsing the text raises. *)
Lemma lenient_commit_time_counterexample :
  search "1.2.3@TTT"
  = Some [Some "1"; Some "2"; Some "3"; None; None; Some "TTT"]
  /\ all_chars time_char "TTT" = true
  /\ str_in "TTT" mode_symbols = false
  /\ Iso.fromisoformat "TTT" = None
  /\ VersionSearchQuery.parse Iso.fromisoformat "1.2.3@TTT"
     = Raise (ValueError ("TTT must be in [" ++ dq ++ "^" ++ dq ++ ", "
                          ++ dq ++ "*" ++ dq ++ ", "
                          ++ dq ++ "-" ++ dq ++ "]")).
Proof. repeat split; vm_compute; reflexivity. Qed.

(** *** What the pattern does on the text of a query *)

Section RunGreedy.
Context {R : Type}.

Lemma plus_stops p rest (k : string -> option R) :
  stops p rest -> Re.plus p rest k = None.
Proof. destruct rest; simpl; [reflexivity | intros ->; reflexivity]. Qed.

(** [p+] takes a whole token when the text after it stops it and the rest
    of the pattern matches there. *)
Lemma plus_greedy p tok rest (k : string -> option R) res :
  token_of p tok -> stops p rest -> k rest = Some res ->
  Re.plus p (tok ++ rest) k = Some res.
Proof.
  intros [Hne Hall] Hstop Hk.
  induction tok as [|c tok IH]; [discriminate |].
  simpl in Hall. apply andb_true_iff in Hall. destruct Hall as [Hc Hall].
  simpl. rewrite Hc. destruct tok as [|c' tok'].
  - simpl. now rewrite (plus_stops _ _ _ Hstop).
  - now rewrite IH.
Qed.

Lemma run_char a rest g (k : string -> Re.groups -> option R) :
  Re.run (Re.Class (is_char a)) (String a rest) g k = k rest g.
Proof. cbn [Re.run]. unfold is_char. now rewrite Ascii.eqb_refl. Qed.

Lemma run_group_class n p c rest g (k : string -> Re.groups -> option R) :
  Re.run (Re.Group n (Re.Class p)) (String c rest) g k
  = if p c then k rest (Re.set_group (n - 1) (String c "") g) else None.
Proof.
  cbn [Re.run]. destruct (p c); [| reflexivity].
  change (String c rest) with (String c "" ++ rest).
  now rewrite consumed_app.
Qed.

Lemma run_group_plus n p tok rest g (k : string -> Re.groups -> option R) res :
  token_of p tok -> stops p rest ->
  k rest (Re.set_group (n - 1) tok g) = Some res ->
  Re.run (Re.Group n (Re.Plus p)) (tok ++ rest) g k = Some res.
Proof.
  intros Htok Hstop Hk. cbn [Re.run]. apply plus_greedy; auto.
  now rewrite consumed_app.
Qed.

Lemma run_group_alt n r1 r2 s g (k : string -> Re.groups -> option R) :
  Re.run (Re.Group n (Re.Alt r1 r2)) s g k
  = match Re.run (Re.Group n r1) s g k with
    | Some res => Some res
    | None => Re.run (Re.Group n r2) s g k
    end.
Proof. reflexivity. Qed.

Lemma number_group_greedy n tok rest g
    (k : string -> Re.groups -> option R) res :
  number_token tok -> stops is_digit rest ->
  k rest (Re.set_group (n - 1) tok g) = Some res ->
  Re.run (number_group n) (tok ++ rest) g k = Some res.
Proof.
  intros [Hsym | Hnum] Hstop Hk; unfold number_group; rewrite run_group_alt.
  - assert (H : exists c, tok = String c "" /\ mode_char c = true).
    { simpl in Hsym.
      destruct Hsym as [<- | [<- | [<- | []]]]; eexists; split; reflexivity. }
    destruct H as [c [-> Hc]].
    change (String c "" ++ rest) with (String c rest).
    rewrite run_group_class, Hc. now rewrite Hk.
  - unfold isnumeric in Hnum. apply andb_true_iff in Hnum.
    destruct Hnum as [Hne Hall].
    destruct tok as [|c tok]; [discriminate |].
    assert (Hc : mode_char c = false).
    { simpl in Hall. apply andb_true_iff in Hall. destruct Hall as [Hc _].
      now apply digit_not_mode. }
    change (String c tok ++ rest) with (String c (tok ++ rest)).
    rewrite run_group_class, Hc.
    change (String c (tok ++ rest)) with (String c tok ++ rest).
    apply run_group_plus; auto. now split.
Qed.

Lemma optional_present a r s g (k : string -> Re.groups -> option R) res :
  Re.run r s g k = Some res ->
  Re.run (Re.Opt (Re.Cat (Re.Class (is_char a)) r)) (String a s) g k
  = Some res.
Proof.
  intros H. cbn [Re.run]. unfold is_char. rewrite Ascii.eqb_refl.
  now rewrite H.
Qed.

Lemma optional_absent a r s g (k : string -> Re.groups -> option R) :
  stops (is_char a) s ->
  Re.run (Re.Opt (Re.Cat (Re.Class (is_char a)) r)) s g k = k s g.
Proof.
  intros H. cbn [Re.run]. destruct s as [|c s]; [reflexivity |].
  simpl in H. now rewrite H.
Qed.
End RunGreedy.

Lemma time_char_not_newline c : time_char c = true -> is_char "010" c = false.
Proof.
  destruct c as [[] [] [] [] [] [] [] []]; intros H;
    try discriminate H; reflexivity.
Qed.

(** The commit time at the end of the text. *)
Lemma time_group_at_end tok g :
  time_token tok ->
  Re.run (Re.Group 6 (Re.Alt (Re.Class mode_char) (Re.Plus time_char)))
         tok g
         (fun s' g' => Re.run Re.Eos s' g' (fun _ g'' => Some g''))
  = Some (Re.set_group 5 tok g).
Proof.
  intros Htok. rewrite run_group_alt.
  assert (Hplus : token_of time_char tok ->
                  Re.run (Re.Group 6 (Re.Plus time_char)) tok g
                    (fun s' g' => Re.run Re.Eos s' g' (fun _ g'' => Some g''))
                  = Some (Re.set_group 5 tok g)).
  { intros H. rewrite <- (append_empty_r tok) at 1.
    apply run_group_plus; [assumption | exact I | reflexivity]. }
  destruct tok as [|c tok].
  { destruct Htok as [Htok | [Hne _]]; [| discriminate].
    simpl in Htok. destruct Htok as [H | [H | [H | []]]]; discriminate. }
  rewrite run_group_class.
  destruct (mode_char c) eqn:Hc.
  - destruct tok as [|c' tok'].
    + reflexivity.
    + (* one mode character is not the whole token: [$] fails after it *)
      destruct Htok as [Htok | Htok].
      { simpl in Htok. destruct Htok as [H | [H | [H | []]]]; discriminate. }
      assert (Hc' : time_char c' = true).
      { destruct Htok as [_ Hall]. simpl in Hall.
        apply andb_true_iff in Hall. destruct Hall as [_ Hall].
        apply andb_true_iff in Hall. now destruct Hall. }
      assert (Hend : Re.at_end (String c' tok') = false).
      { cbn [Re.at_end]. destruct tok'; [| reflexivity].
        now apply time_char_not_newline. }
      cbn [Re.run]. rewrite Hend. now apply Hplus.
  - destruct Htok as [Htok | Htok]; [| now apply Hplus].
    exfalso. simpl in Htok.
    destruct Htok as [H | [H | [H | []]]]; injection H as <- <-; discriminate.
Qed.

(** On the text made of the tokens of a query, the pattern matches and its
    groups are these tokens. *)
Lemma search_canonical major minor patch branch build_hash commit_time :
  number_token major -> number_token minor -> number_token patch ->
  optional_token branch_char branch ->
  optional_token hash_char build_hash ->
  time_token commit_time ->
  search (major ++ "." ++ minor ++ "." ++ patch
          ++ optional_part "-" branch
          ++ optional_part "+" build_hash
          ++ "@" ++ commit_time)
  = Some [Some major; Some minor; Some patch;
          branch; build_hash; Some commit_time].
Proof.
  intros Hmajor Hminor Hpatch Hbranch Hhash Htime.
  unfold search, Re.match_, VERSION_SEARCH_REGEX.
  rewrite run_cat. apply number_group_greedy; [assumption | reflexivity |].
  rewrite run_cat. change ("." ++ ?x) with (String "." x). rewrite run_char.
  rewrite run_cat. apply number_group_greedy; [assumption | reflexivity |].
  rewrite run_cat. change ("." ++ ?x) with (String "." x). rewrite run_char.
  rewrite run_cat. apply number_group_greedy; [assumption | |].
  { destruct branch, build_hash; reflexivity. }
  rewrite run_cat.
  assert (Hlast : forall g,
             Re.run (Re.Cat (Re.Opt (Re.Cat (Re.Class (is_char "@"))
                       (Re.Group 6 (Re.Alt (Re.Class mode_char)
                                           (Re.Plus time_char)))))
                            Re.Eos)
                    ("@" ++ commit_time) g (fun _ g' => Some g')
             = Some (Re.set_group 5 commit_time g)).
  { intros g. rewrite run_cat. change ("@" ++ ?x) with (String "@" x).
    apply optional_present. now apply time_group_at_end. }
  assert (Hhash' : forall g,
             Re.run (Re.Cat (Re.Opt (Re.Cat (Re.Class (is_char "+"))
                                            (Re.Group 5 (Re.Plus hash_char))))
                       (Re.Cat (Re.Opt (Re.Cat (Re.Class (is_char "@"))
                          (Re.Group 6 (Re.Alt (Re.Class mode_char)
                                              (Re.Plus time_char)))))
                               Re.Eos))
                    (optional_part "+" build_hash ++ "@" ++ commit_time) g
                    (fun _ g' => Some g')
             = Some (Re.set_group 5 commit_time
                       (match build_hash with
                        | Some h => Re.set_group 4 h g
                        | None => g
                        end))).
  { intros g. rewrite run_cat. destruct build_hash as [h |].
    - cbn [optional_part]. rewrite append_assoc.
      change ("+" ++ ?x) with (String "+" x).
      apply optional_present. apply run_group_plus;
        [assumption | reflexivity | apply Hlast].
    - cbn [optional_part]. change ("" ++ ?x) with x.
      rewrite optional_absent by reflexivity. apply Hlast. }
  destruct branch as [b |].
  - cbn [optional_part]. rewrite append_assoc.
    change ("-" ++ ?x) with (String "-" x).
    apply optional_present. apply run_group_plus; [assumption | |].
    { destruct build_hash; reflexivity. }
    rewrite Hhash'. destruct build_hash; reflexivity.
  - cbn [optional_part]. change ("" ++ ?x) with x.
    rewrite optional_absent by (destruct build_hash; reflexivity).
    rewrite Hhash'. destruct build_hash; reflexivity.
Qed.

(** ** The round trip *)

Lemma valid_number_field q :
  VersionSearchQuery.__post_init__ q = Ok tt ->
  forall pos,
    VersionSearchQuery.major q = inr pos
    \/ VersionSearchQuery.minor q = inr pos
    \/ VersionSearchQuery.patch q = inr pos
    \/ VersionSearchQuery.commit_time q = inr pos ->
    In pos mode_symbols.
Proof.
  intros Hok pos Hpos.
  destruct (post_init_decides q) as [[_ Hvalid] | [[msg Hraise] _]];
    [| congruence].
  destruct (str_in pos mode_symbols) eqn:E; [now apply str_in_spec |].
  exfalso. apply Hvalid. left. exists pos. split; [assumption |].
  intros Hin. apply str_in_spec in Hin. congruence.
Qed.

Section RoundTrip.
Variable fromisoformat : string -> option datetime.
Variable str_datetime : datetime -> string.

Lemma format_number_token x text :
  writable_number x ->
  (forall pos, x = inr pos -> In pos mode_symbols) ->
  VersionSearchQuery.format_number x = Ok text ->
  number_token text /\ number_of_group (Some text) = Ok x.
Proof.
  intros Hw Hvalid. destruct x as [z | pos]; simpl in *.
  - intros Hstr. destruct (str_int_returns z text Hstr) as [-> Hlen].
    pose proof (decimal_numeric z Hw) as Hnum. split.
    + now right.
    + rewrite Hnum. now rewrite (int_decimal z Hw (Hlen Hw)).
  - intros [= <-]. specialize (Hvalid pos eq_refl). split.
    + now left.
    + now rewrite (mode_symbol_not_numeric _ Hvalid).
Qed.

Lemma format_time_token x :
  writable_time fromisoformat str_datetime x ->
  (forall pos, x = inr pos -> In pos mode_symbols) ->
  time_token (VersionSearchQuery.format_time str_datetime x)
  /\ VersionSearchQuery.truthy_time x = true.
Proof.
  intros Hw Hvalid. destruct x as [d | pos]; simpl in *.
  - split; [right; tauto | reflexivity].
  - specialize (Hvalid pos eq_refl). split; [now left |].
    simpl in Hvalid. destruct Hvalid as [<- | [<- | [<- | []]]]; reflexivity.
Qed.

(** The text of a writable query, token after token. *)
Lemma str_canonical q text :
  VersionSearchQuery.truthy_time (VersionSearchQuery.commit_time q) = true ->
  optional_token branch_char (VersionSearchQuery.branch q) ->
  optional_token hash_char (VersionSearchQuery.build_hash q) ->
  VersionSearchQuery.str str_datetime q = Ok text ->
  exists major minor patch,
    VersionSearchQuery.format_number (VersionSearchQuery.major q) = Ok major
    /\ VersionSearchQuery.format_number (VersionSearchQuery.minor q)
       = Ok minor
    /\ VersionSearchQuery.format_number (VersionSearchQuery.patch q)
       = Ok patch
    /\ text
       = major ++ "." ++ minor ++ "." ++ patch
         ++ optional_part "-" (VersionSearchQuery.branch q)
         ++ optional_part "+" (VersionSearchQuery.build_hash q)
         ++ "@" ++ VersionSearchQuery.format_time str_datetime
                     (VersionSearchQuery.commit_time q).
Proof.
  intros Htime Hbranch Hhash. unfold VersionSearchQuery.str.
  destruct (VersionSearchQuery.format_number (VersionSearchQuery.major q))
    as [major | e]; cbn [bind]; [| discriminate].
  destruct (VersionSearchQuery.format_number (VersionSearchQuery.minor q))
    as [minor | e]; cbn [bind]; [| discriminate].
  destruct (VersionSearchQuery.format_number (VersionSearchQuery.patch q))
    as [patch | e]; cbn [bind]; [| discriminate].
  rewrite Htime. intros [= <-].
  exists major, minor, patch.
  split; [reflexivity |]. split; [reflexivity |]. split; [reflexivity |].
  destruct (VersionSearchQuery.branch q) as [b |],
           (VersionSearchQuery.build_hash q) as [h |];
    cbn [optional_part optional_token] in *;
    repeat match goal with
           | H : token_of _ _ |- _ =>
               let Hne := fresh "Hne" in
               destruct H as [Hne _]; rewrite Hne
           end;
    repeat first [rewrite append_assoc | progress cbn [String.append]];
    reflexivity.
Qed.

Lemma check_positions_last (positions : list value) d d' :
  VersionSearchQuery.check_positions (positions ++ [VTime d])%list
  = VersionSearchQuery.check_positions (positions ++ [VTime d'])%list.
Proof.
  induction positions as [|pos positions IH]; [reflexivity |].
  destruct pos; cbn [List.app VersionSearchQuery.check_positions];
    try assumption.
  destruct (negb (str_in s mode_symbols)); [reflexivity | assumption].
Qed.

(** The validation does not look into a timestamp. *)
Lemma post_init_any_time major minor patch branch build_hash d d' :
  VersionSearchQuery.__post_init__
    (VersionSearchQuery.mk major minor patch branch build_hash (inl d))
  = VersionSearchQuery.__post_init__
      (VersionSearchQuery.mk major minor patch branch build_hash (inl d')).
Proof.
  unfold VersionSearchQuery.__post_init__.
  cbn [VersionSearchQuery.major VersionSearchQuery.minor
       VersionSearchQuery.patch VersionSearchQuery.branch
       VersionSearchQuery.build_hash VersionSearchQuery.commit_time
       value_of_time].
  pose proof (check_positions_last
                [value_of_number major; value_of_number minor;
                 value_of_number patch] d d') as H.
  cbn [List.app] in H. now rewrite H.
Qed.

Lemma py_eq_number x : py_eq (value_of_number x) (value_of_number x) = true.
Proof.
  destruct x; simpl; [apply Z.eqb_refl | apply String.eqb_refl].
Qed.

Lemma py_eq_optional x :
  py_eq (value_of_optional x) (value_of_optional x) = true.
Proof. destruct x; simpl; [apply String.eqb_refl | reflexivity]. Qed.
End RoundTrip.

(** C2.  The round trip fails on queries that pass the validation, against
    the docstring of [__str__], which promises a string that [parse] can
    parse.  With an empty build hash, the text has no build hash and [parse]
    returns a query whose build hash is absent, which is not equal.  With a
    branch that holds a space, a build hash that holds a hyphen, a timestamp
    that has microseconds or a negative number, the pattern does not match
    the text and [parse] raises [ValueError].  With a number of 4301 digits,
    [__str__] itself raises [ValueError]. *)
Theorem str_is_not_always_parsed_back :
  (VersionSearchQuery.__post_init__
     (VersionSearchQuery.mk (inr "*") (inr "*") (inr "*") None (Some "") (inr "^"))
   = Ok tt
   /\ VersionSearchQuery.str Iso.str
        (VersionSearchQuery.mk (inr "*") (inr "*") (inr "*") None (Some "") (inr "^"))
      = Ok "*.*.*@^"
   /\ round_trip Iso.fromisoformat Iso.str
        (VersionSearchQuery.mk (inr "*") (inr "*") (inr "*") None (Some "") (inr "^"))
      = Ok (VersionSearchQuery.mk (inr "*") (inr "*") (inr "*") None None (inr "^"))
   /\ VersionSearchQuery.eqb
        (VersionSearchQuery.mk (inr "*") (inr "*") (inr "*") None None (inr "^"))
        (VersionSearchQuery.mk (inr "*") (inr "*") (inr "*") None (Some "") (inr "^"))
      = false)
  /\ (VersionSearchQuery.__post_init__
        (VersionSearchQuery.mk (inl 1) (inl 2) (inl 3) (Some "my branch") None
                               (inr "^"))
      = Ok tt
      /\ VersionSearchQuery.str Iso.str
           (VersionSearchQuery.mk (inl 1) (inl 2) (inl 3) (Some "my branch")
                                  None (inr "^"))
         = Ok "1.2.3-my branch@^"
      /\ is_ValueError
           (round_trip Iso.fromisoformat Iso.str
              (VersionSearchQuery.mk (inl 1) (inl 2) (inl 3)
                 (Some "my branch") None (inr "^"))))
  /\ (VersionSearchQuery.__post_init__
        (VersionSearchQuery.mk (inl 1) (inl 2) (inl 3) None (Some "ab-cd")
                               (inr "^"))
      = Ok tt
      /\ VersionSearchQuery.str Iso.str
           (VersionSearchQuery.mk (inl 1) (inl 2) (inl 3) None (Some "ab-cd")
                                  (inr "^"))
         = Ok "1.2.3+ab-cd@^"
      /\ is_ValueError
           (round_trip Iso.fromisoformat Iso.str
              (VersionSearchQuery.mk (inl 1) (inl 2) (inl 3)
                 None (Some "ab-cd") (inr "^"))))
  /\ (VersionSearchQuery.__post_init__
        (VersionSearchQuery.mk (inl 1) (inl 2) (inl 3) None None
           (inl (Iso.datetime_of 2024 7 31 23 53 51 250000 Iso.utc)))
      = Ok tt
      /\ VersionSearchQuery.str Iso.str
           (VersionSearchQuery.mk (inl 1) (inl 2) (inl 3) None None
              (inl (Iso.datetime_of 2024 7 31 23 53 51 250000 Iso.utc)))
         = Ok "1.2.3@2024-07-31 23:53:51.250000+00:00"
      /\ is_ValueError
           (round_trip Iso.fromisoformat Iso.str
              (VersionSearchQuery.mk (inl 1) (inl 2) (inl 3) None None
                 (inl (Iso.datetime_of 2024 7 31 23 53 51 250000 Iso.utc)))))
  /\ (VersionSearchQuery.__post_init__
        (VersionSearchQuery.mk (inl (-1)) (inl 2) (inl 3) None None (inr "^"))
      = Ok tt
      /\ VersionSearchQuery.str Iso.str
           (VersionSearchQuery.mk (inl (-1)) (inl 2) (inl 3) None None
                                  (inr "^"))
         = Ok "-1.2.3@^"
      /\ is_ValueError
           (round_trip Iso.fromisoformat Iso.str
              (VersionSearchQuery.mk (inl (-1)) (inl 2) (inl 3)
                 None None (inr "^"))))
  /\ (VersionSearchQuery.__post_init__
        (VersionSearchQuery.mk (inl (10 ^ 4300)) (inl 2) (inl 3) None None
                               (inr "^"))
      = Ok tt
      /\ VersionSearchQuery.str Iso.str
           (VersionSearchQuery.mk (inl (10 ^ 4300)) (inl 2) (inl 3) None None
                                  (inr "^"))
         = Raise str_limit_exceeded
      /\ is_ValueError
           (round_trip Iso.fromisoformat Iso.str
              (VersionSearchQuery.mk (inl (10 ^ 4300)) (inl 2) (inl 3)
                 None None (inr "^")))).
Proof.
  assert (Hbig : VersionSearchQuery.str Iso.str
                   (VersionSearchQuery.mk (inl (10 ^ 4300)) (inl 2) (inl 3)
                                          None None (inr "^"))
                 = Raise str_limit_exceeded) by (vm_compute; reflexivity).
  split; [| split; [| split; [| split; [| split]]]].
  6:{ split; [reflexivity |]. split; [exact Hbig |].
      unfold round_trip. rewrite Hbig. eexists. reflexivity. }
  all: repeat split; try (vm_compute; reflexivity);
    eexists; vm_compute; reflexivity.
Qed.

(** ** The claim about the commit time of a build *)

(** C9, as the specification has it, fails: the constructor of
    [BasicBuildInfo] stores the commit time it is given.  A naive one stays
    naive, one with an offset of two hours keeps its offset, and ordering
    the naive build against an aware build of the same version raises. *)
Lemma commit_time_is_stored_as_given :
  utcoffset
    (BasicBuildInfo.commit_time
       (BasicBuildInfo.mk (Version.mk 4 3 0) "daily" ""
          (Iso.datetime_of 2024 7 30 0 0 0 0 None)))
  = None
  /\ utcoffset
       (BasicBuildInfo.commit_time
          (BasicBuildInfo.mk (Version.mk 4 3 0) "daily" ""
             (Iso.datetime_of 2024 7 30 0 0 0 0 (Some 7200))))
     = Some 7200000000
  /\ BasicBuildInfo.lt
       (BasicBuildInfo.mk (Version.mk 4 3 0) "daily" ""
          (Iso.datetime_of 2024 7 30 0 0 0 0 None))
       (build 4 3 0 "daily" 2024 7 30)
     = Raise cannot_compare
  /\ is_TypeError
       (BInfoMatcher.match_
          (BInfoMatcher.mk
             [build 4 3 0 "daily" 2024 7 30;
              BasicBuildInfo.mk (Version.mk 4 3 0) "daily" ""
                (Iso.datetime_of 2024 7 30 0 0 0 0 None)])
          (query (inr "^") (inr "^") (inr "^") None (inr "^"))).
Proof.
  repeat split; try (vm_compute; reflexivity).
  eexists. vm_compute. reflexivity.
Qed.

Lemma datetime_lt_aware a b :
  aware a = true -> aware b = true -> returns (datetime_lt a b).
Proof.
  unfold aware, datetime_lt.
  destruct (utcoffset a), (utcoffset b); try discriminate.
  intros _ _. eexists. reflexivity.
Qed.

(** C9, as the code has it.  [from_buildinfo] stores the commit time read in
    UTC: the offset is zero and the instant is that of the metadata (a naive
    commit time being in local time).  Builds made by [from_buildinfo] can be
    ordered without an error, and a catalog of them has comparable commit
    times. *)
Theorem from_buildinfo_normalizes_to_utc :
  forall (local_utcoffset : Z -> Z) (a b : BuildInfo.t)
         (infos : list BuildInfo.t),
    utcoffset
      (BasicBuildInfo.commit_time
         (BasicBuildInfo.from_buildinfo local_utcoffset a)) = Some 0
    /\ wall (BasicBuildInfo.commit_time
               (BasicBuildInfo.from_buildinfo local_utcoffset a))
       = wall (BuildInfo.commit_time a)
         - match utcoffset (BuildInfo.commit_time a) with
           | Some o => o
           | None => local_utcoffset (wall (BuildInfo.commit_time a))
           end
    /\ returns
         (BasicBuildInfo.lt
            (BasicBuildInfo.from_buildinfo local_utcoffset a)
            (BasicBuildInfo.from_buildinfo local_utcoffset b))
    /\ comparable_times
         (map (BasicBuildInfo.from_buildinfo local_utcoffset) infos).
Proof.
  intros local_utcoffset a b infos.
  assert (Hutc : forall x,
             utcoffset
               (BasicBuildInfo.commit_time
                  (BasicBuildInfo.from_buildinfo local_utcoffset x))
             = Some 0).
  { intros x. unfold BasicBuildInfo.from_buildinfo, astimezone_utc. simpl.
    destruct (utcoffset (BuildInfo.commit_time x)); reflexivity. }
  split; [apply Hutc |]. split; [| split].
  - unfold BasicBuildInfo.from_buildinfo, astimezone_utc. simpl.
    destruct (utcoffset (BuildInfo.commit_time a)); reflexivity.
  - unfold BasicBuildInfo.lt.
    destruct (Version.eqb _ _).
    + apply datetime_lt_aware; unfold aware; now rewrite Hutc.
    + eexists. reflexivity.
  - left. intros v Hv. apply in_map_iff in Hv. destruct Hv as [x [<- _]].
    unfold aware. now rewrite Hutc.
Qed.

(* ===================================================================== *)
(** * Further properties of the code *)
(* ===================================================================== *)

(** ** What [match] returns *)

Lemma py_eq_reflexive a : py_eq a a = true.
Proof.
  destruct a as [z | x | d |]; simpl.
  - apply Z.eqb_refl.
  - apply String.eqb_refl.
  - unfold datetime_eq. destruct (utcoffset d); apply Z.eqb_refl.
  - reflexivity.
Qed.

Lemma py_eq_symmetric a b : py_eq a b = py_eq b a.
Proof.
  destruct a as [x | x | x |], b as [y | y | y |]; simpl;
    try reflexivity.
  - apply Z.eqb_sym.
  - apply String.eqb_sym.
  - unfold datetime_eq. destruct (utcoffset x), (utcoffset y);
      try reflexivity; apply Z.eqb_sym.
Qed.

(** Values equal to a third one are equal. *)
Lemma py_eq_both a b m :
  py_eq a m = true -> py_eq b m = true -> py_eq a b = true.
Proof.
  intros Ha Hb. rewrite (py_eq_symmetric b m) in Hb.
  now rewrite <- (py_eq_same _ _ Hb a).
Qed.

Lemma wildcard_tests p :
  wildcard p <-> py_eq p (VStr "*") || py_eq p VNone = true.
Proof.
  unfold wildcard. rewrite orb_true_iff, py_eq_VStr, py_eq_VNone. tauto.
Qed.

Lemma end_of_turn_payload versions :
  payload (BInfoMatcher.end_of_turn versions) = versions.
Proof. destruct versions; reflexivity. Qed.

(** The two ways a turn of the loop ends without an error: on a wildcard
    the candidates pass, otherwise the candidates whose field equals some
    value [m] are kept, and [m] is the value of the query when this one is a
    literal. *)
Lemma turn_cases s place cur f :
  BInfoMatcher.turn s place cur = Ok f ->
  (wildcard (VersionSearchQuery.getattr place s) /\ f = BInfoMatcher.Next cur)
  \/ (~ wildcard (VersionSearchQuery.getattr place s)
      /\ exists m,
           f = BInfoMatcher.end_of_turn (with_field place m cur)
           /\ (literal (VersionSearchQuery.getattr place s) ->
               m = VersionSearchQuery.getattr place s)).
Proof.
  unfold BInfoMatcher.turn.
  destruct (py_eq (VersionSearchQuery.getattr place s) (VStr "^")) eqn:Emax.
  - apply py_eq_VStr in Emax.
    destruct (py_max _) as [m |]; [| discriminate].
    intros [= <-]. right. split.
    + rewrite Emax. intros [H | H]; discriminate.
    + exists m. split; [reflexivity |]. intros [H _]. congruence.
  - destruct (py_eq _ (VStr "*") || py_eq _ VNone) eqn:Eany.
    + intros [= <-]. left. split; [| reflexivity].
      now apply wildcard_tests.
    + assert (Hnot : ~ wildcard (VersionSearchQuery.getattr place s)).
      { intros H. apply wildcard_tests in H. congruence. }
      destruct (py_eq (VersionSearchQuery.getattr place s) (VStr "-"))
        eqn:Emin.
      * apply py_eq_VStr in Emin.
        destruct (py_min _) as [m |]; [| discriminate].
        intros [= <-]. right. split; [assumption |].
        exists m. split; [reflexivity |]. intros [_ [_ [H _]]]. congruence.
      * intros [= <-]. right. split; [assumption |].
        exists (VersionSearchQuery.getattr place s). split; [reflexivity |].
        reflexivity.
Qed.

Lemma filter_all {A : Type} (l : list A) : filter (fun _ => true) l = l.
Proof. induction l as [|x l IH]; simpl; [reflexivity | now rewrite IH]. Qed.

Lemma filter_filter {A : Type} (f g : A -> bool) (l : list A) :
  filter g (filter f l) = filter (fun x => f x && g x) l.
Proof.
  induction l as [|x l IH]; simpl; [reflexivity |].
  destruct (f x); simpl; [destruct (g x) |]; now rewrite IH.
Qed.

(** What a turn hands on is a selection of its candidates. *)
Lemma turn_selects s place cur f :
  BInfoMatcher.turn s place cur = Ok f ->
  exists keep, payload f = filter keep cur.
Proof.
  intros H. apply turn_cases in H.
  destruct H as [[_ ->] | [_ [m [-> _]]]].
  - exists (fun _ => true). simpl. now rewrite filter_all.
  - rewrite end_of_turn_payload. eexists. reflexivity.
Qed.

Lemma loop_selects s places : forall cur r,
  BInfoMatcher.loop s places cur = Ok r ->
  exists keep, r = filter keep cur.
Proof.
  induction places as [|place rest IH]; intros cur r H.
  - injection H as <-. exists (fun _ => true). now rewrite filter_all.
  - simpl in H.
    destruct (BInfoMatcher.turn s place cur) as [f |] eqn:Hturn;
      [| discriminate].
    destruct (turn_selects _ _ _ _ Hturn) as [keep Hkeep].
    destruct f as [cur' | r']; simpl in H, Hkeep.
    + destruct (IH _ _ H) as [keep' ->]. subst cur'.
      rewrite filter_filter. eexists. reflexivity.
    + injection H as <-. now exists keep.
Qed.

(** X1. The result of [match] is a selection of the catalog: the records
    that some test keeps, in the order of the catalog.  Nothing is added,
    reordered or repeated. *)
Theorem match_selects_from_catalog :
  forall (self : BInfoMatcher.t) (s : VersionSearchQuery.t) r,
    BInfoMatcher.match_ self s = Ok r ->
    exists keep, r = filter keep (BInfoMatcher.versions self).
Proof.
  intros self s r H. unfold BInfoMatcher.match_ in H.
  now apply loop_selects in H.
Qed.

(** The newest patch of release 1.2 on the fixture. *)
Lemma match_selects_from_catalog_witness :
  exists keep,
    [build 1 2 4 "stable" 2020 6 3] = filter keep (BInfoMatcher.versions matcher).
Proof.
  apply (match_selects_from_catalog matcher
           (query (inl 1) (inl 2) (inr "^") None (inr "^"))).
  reflexivity.
Defined.

Lemma turn_incl s place cur f :
  BInfoMatcher.turn s place cur = Ok f -> incl (payload f) cur.
Proof.
  intros H. destruct (turn_selects _ _ _ _ H) as [keep ->].
  intros v Hv. now apply filter_In in Hv.
Qed.

Lemma loop_incl s places cur r :
  BInfoMatcher.loop s places cur = Ok r -> incl r cur.
Proof.
  intros H. destruct (loop_selects _ _ _ _ H) as [keep ->].
  intros v Hv. now apply filter_In in Hv.
Qed.

(** After the turn of a field that is not a wildcard, every candidate has
    the same value [m] of the field, which is the literal of the query if
    there is one. *)
Lemma turn_filters s place cur f :
  BInfoMatcher.turn s place cur = Ok f ->
  ~ wildcard (VersionSearchQuery.getattr place s) ->
  exists m,
    (forall v, In v (payload f) ->
               py_eq (BasicBuildInfo.getattr place v) m = true)
    /\ (literal (VersionSearchQuery.getattr place s) ->
        m = VersionSearchQuery.getattr place s).
Proof.
  intros H Hnot. apply turn_cases in H.
  destruct H as [[Hw _] | [_ [m [-> Hm]]]]; [contradiction |].
  exists m. split; [| assumption].
  intros v Hv. rewrite end_of_turn_payload in Hv.
  unfold with_field in Hv. now apply filter_In in Hv.
Qed.

Lemma loop_filters s place places : forall cur r,
  BInfoMatcher.loop s places cur = Ok r ->
  In place places ->
  ~ wildcard (VersionSearchQuery.getattr place s) ->
  exists m,
    (forall v, In v r -> py_eq (BasicBuildInfo.getattr place v) m = true)
    /\ (literal (VersionSearchQuery.getattr place s) ->
        m = VersionSearchQuery.getattr place s).
Proof.
  induction places as [|pl rest IH]; intros cur r H Hin Hnot; [contradiction |].
  simpl in H.
  destruct (BInfoMatcher.turn s pl cur) as [f |] eqn:Hturn; [| discriminate].
  simpl in H.
  assert (Hrest : incl r (payload f)).
  { destruct f as [cur' | r']; simpl.
    - now apply loop_incl in H.
    - injection H as <-. apply incl_refl. }
  destruct Hin as [-> | Hin].
  - destruct (turn_filters _ _ _ _ Hturn Hnot) as [m [Hall Hlit]].
    exists m. split; [| assumption]. intros v Hv. apply Hall. now apply Hrest.
  - destruct f as [cur' | r'].
    + now apply (IH cur' r).
    + (* the function has returned the empty sequence *)
      injection H as Hr. subst r'. apply turn_cases in Hturn.
      destruct Hturn as [[_ Hf] | [_ [m [Hf _]]]]; [discriminate |].
      assert (Hnil : r = []).
      { destruct (with_field pl m cur); simpl in Hf;
          [now injection Hf | discriminate]. }
      subst r.
      exists (VersionSearchQuery.getattr place s).
      split; [intros v [] | reflexivity].
Qed.

Lemma in_places place : In place BInfoMatcher.places.
Proof. destruct place; simpl; tauto. Qed.

(** X2. Every record that [match] returns has the value that the query
    gives as a literal, for each field with a literal: the branch, the build
    hash, the numbers and the commit time asked for. *)
Theorem match_respects_literals :
  forall (self : BInfoMatcher.t) (s : VersionSearchQuery.t) r place,
    BInfoMatcher.match_ self s = Ok r ->
    literal (VersionSearchQuery.getattr place s) ->
    forall v, In v r ->
      py_eq (BasicBuildInfo.getattr place v)
            (VersionSearchQuery.getattr place s) = true.
Proof.
  intros self s r place H Hlit v Hv.
  destruct (loop_filters s place _ _ _ H (in_places place)) as [m [Hall Hm]].
  - intros [Hw | Hw]; destruct Hlit as [_ [H2 [_ H4]]]; contradiction.
  - rewrite <- (Hm Hlit). now apply Hall.
Qed.

(** The daily builds of the newest release on the fixture. *)
Lemma match_respects_literals_witness :
  py_eq (BasicBuildInfo.getattr Attr.branch (build 4 3 0 "daily" 2024 7 30))
        (VStr "daily") = true.
Proof.
  apply (match_respects_literals matcher
           (query (inr "^") (inr "*") (inr "*") (Some "daily") (inr "^"))
           [build 4 3 0 "daily" 2024 7 30] Attr.branch).
  - reflexivity.
  - simpl. repeat split; discriminate.
  - now left.
Defined.

(** X3. The records that [match] returns agree on every field that the
    query constrains, with a literal or with [^] or [-]: they differ at most
    in the fields left to a wildcard. *)
Theorem match_results_agree :
  forall (self : BInfoMatcher.t) (s : VersionSearchQuery.t) r place,
    BInfoMatcher.match_ self s = Ok r ->
    ~ wildcard (VersionSearchQuery.getattr place s) ->
    agree place r.
Proof.
  intros self s r place H Hnot.
  destruct (loop_filters s place _ _ _ H (in_places place) Hnot)
    as [m [Hall _]].
  intros v w Hv Hw. apply py_eq_both with m; now apply Hall.
Qed.

(** The builds of the newest minor release on the fixture have the same
    minor number. *)
Lemma match_results_agree_witness :
  agree Attr.minor
        [build 4 3 0 "daily" 2024 7 30;
         build 4 3 0 "daily" 2024 7 28;
         build 4 3 1 "daily" 2024 7 20].
Proof.
  apply (match_results_agree matcher
           (query (inr "^") (inr "^") (inr "*") None (inr "*"))).
  - reflexivity.
  - simpl. intros [H | H]; discriminate.
Defined.

(** ** [match] on the empty catalog *)

Lemma loop_on_nothing s places :
  BInfoMatcher.loop s places []
  = match first_filter s places with
    | None => Ok []
    | Some p =>
        if py_eq p (VStr "^")
        then Raise (ValueError "max() arg is an empty sequence")
        else if py_eq p (VStr "-")
             then Raise (ValueError "min() arg is an empty sequence")
             else Ok []
    end.
Proof.
  induction places as [|place rest IH]; [reflexivity |].
  cbn [BInfoMatcher.loop first_filter]. unfold BInfoMatcher.turn.
  destruct (py_eq (VersionSearchQuery.getattr place s) (VStr "^")) eqn:Emax.
  - apply py_eq_VStr in Emax. rewrite Emax. reflexivity.
  - destruct (py_eq _ (VStr "*") || py_eq _ VNone) eqn:Eany.
    + cbn [bind]. exact IH.
    + rewrite Emax.
      destruct (py_eq (VersionSearchQuery.getattr place s) (VStr "-"));
        reflexivity.
Qed.

Lemma first_filter_not_wildcard s places p :
  first_filter s places = Some p -> ~ wildcard p.
Proof.
  induction places as [|place rest IH]; [discriminate |].
  cbn [first_filter].
  destruct (py_eq _ (VStr "*") || py_eq _ VNone) eqn:Eany; [exact IH |].
  intros [= <-] H. apply wildcard_tests in H. congruence.
Qed.

(** X4. On the empty catalog, [match] looks at the first field of the query
    that is not a wildcard, in the order of the places.  Without such a
    field, or when it holds a literal, the result is the empty sequence.
    When it holds [^] or [-], [match] raises [ValueError]. *)
Theorem match_on_empty_catalog :
  forall s : VersionSearchQuery.t,
    (first_filter s BInfoMatcher.places = None ->
     BInfoMatcher.match_ (BInfoMatcher.mk []) s = Ok [])
    /\ (forall p, first_filter s BInfoMatcher.places = Some p ->
                  literal p ->
                  BInfoMatcher.match_ (BInfoMatcher.mk []) s = Ok [])
    /\ (forall p, first_filter s BInfoMatcher.places = Some p ->
                  p = VStr "^" \/ p = VStr "-" ->
                  is_ValueError
                    (BInfoMatcher.match_ (BInfoMatcher.mk []) s)).
Proof.
  intros s. unfold BInfoMatcher.match_. cbn [BInfoMatcher.versions].
  rewrite loop_on_nothing. split; [| split].
  - intros ->. reflexivity.
  - intros p -> Hlit. destruct (literal_tests _ Hlit) as [E1 [_ [_ E4]]].
    now rewrite E1, E4.
  - intros p -> [-> | ->]; eexists; reflexivity.
Qed.

(** The three cases: every field a wildcard, a literal first, [-] first. *)
Lemma match_on_empty_catalog_witness :
  BInfoMatcher.match_ (BInfoMatcher.mk [])
    (query (inr "*") (inr "*") (inr "*") None (inr "*")) = Ok []
  /\ BInfoMatcher.match_ (BInfoMatcher.mk [])
       (query (inl 4) (inr "^") (inr "^") None (inr "^")) = Ok []
  /\ is_ValueError
       (BInfoMatcher.match_ (BInfoMatcher.mk [])
          (query (inr "*") (inr "-") (inl 3) None (inr "^"))).
Proof.
  split; [| split].
  - apply (proj1 (match_on_empty_catalog
                    (query (inr "*") (inr "*") (inr "*") None (inr "*")))).
    reflexivity.
  - apply (proj1 (proj2 (match_on_empty_catalog
                    (query (inl 4) (inr "^") (inr "^") None (inr "^"))))
             (VInt 4)).
    + reflexivity.
    + repeat split; discriminate.
  - apply (proj2 (proj2 (match_on_empty_catalog
                    (query (inr "*") (inr "-") (inl 3) None (inr "^"))))
             (VStr "-")).
    + reflexivity.
    + now right.
Defined.

(** ** Queries without a literal, and queries with one literal *)

Lemma with_field_of_member place cur v :
  In v cur ->
  In v (with_field place (BasicBuildInfo.getattr place v) cur).
Proof.
  intros Hv. unfold with_field. apply filter_In. split; [assumption |].
  apply py_eq_reflexive.
Qed.

(** A step of the narrowing that keeps nothing of some candidates is the
    step of a literal. *)
Lemma narrows_keeps_some s place cur out :
  narrows s place cur out -> cur <> [] ->
  ~ literal (VersionSearchQuery.getattr place s) -> out <> [].
Proof.
  intros H Hne Hlit.
  destruct H as [_ | m _ [[v [Hv <-]] _] | m _ [[v [Hv <-]] _] | H | H];
    try contradiction; try assumption;
    intros Hnil; pose proof (with_field_of_member place cur v Hv) as Hin;
    rewrite Hnil in Hin; contradiction.
Qed.

Lemma loop_keeps_some s places : forall cur,
  cur <> [] -> (orders_commit_time s -> comparable_times cur) ->
  (forall place, ~ literal (VersionSearchQuery.getattr place s)) ->
  exists v r, BInfoMatcher.loop s places cur = Ok (v :: r).
Proof.
  induction places as [|place rest IH]; intros cur Hne Hcmp Hlit.
  - destruct cur as [|v r]; [congruence |]. now exists v, r.
  - destruct (turn_narrows s place cur Hne Hcmp) as [out [Hstep Hturn]].
    pose proof (narrows_keeps_some _ _ _ _ Hstep Hne (Hlit place)) as Hout.
    cbn [BInfoMatcher.loop]. rewrite Hturn. cbn [bind].
    rewrite (end_of_turn_nonempty _ Hout).
    apply IH; [assumption | | assumption].
    intros Hs. apply comparable_times_incl with cur; [| now apply Hcmp].
    eapply narrows_incl; eassumption.
Qed.

(** X5. A query without a literal, made of [^], [-], [*] and absent fields
    only, finds at least one record in every catalog that is not empty
    (the commit times being comparable when the query orders them): taking
    the maximum or the minimum of a field never empties the candidates. *)
Theorem match_without_literal_finds_a_build :
  forall (self : BInfoMatcher.t) (s : VersionSearchQuery.t),
    BInfoMatcher.versions self <> [] ->
    (orders_commit_time s -> comparable_times (BInfoMatcher.versions self)) ->
    (forall place, ~ literal (VersionSearchQuery.getattr place s)) ->
    exists v r, BInfoMatcher.match_ self s = Ok (v :: r).
Proof.
  intros self s Hne Hcmp Hlit. unfold BInfoMatcher.match_.
  now apply loop_keeps_some.
Qed.

(** The oldest release on the fixture. *)
Lemma match_without_literal_finds_a_build_witness :
  exists v r,
    BInfoMatcher.match_ matcher
      (query (inr "-") (inr "-") (inr "-") None (inr "*")) = Ok (v :: r).
Proof.
  apply (match_without_literal_finds_a_build matcher
           (query (inr "-") (inr "-") (inr "-") None (inr "*"))).
  - simpl. discriminate.
  - intros _. exact builds_comparable.
  - intros place [H1 [H2 [H3 H4]]]. destruct place; simpl in *; congruence.
Defined.

Lemma loop_skip s place rest cur :
  wildcard (VersionSearchQuery.getattr place s) ->
  BInfoMatcher.loop s (place :: rest) cur = BInfoMatcher.loop s rest cur.
Proof.
  intros H. cbn [BInfoMatcher.loop]. now rewrite (turn_wildcard _ _ _ H).
Qed.

Lemma loop_wildcards s places cur :
  (forall place, In place places ->
                 wildcard (VersionSearchQuery.getattr place s)) ->
  BInfoMatcher.loop s places cur = Ok cur.
Proof.
  induction places as [|place rest IH]; intros H; [reflexivity |].
  rewrite loop_skip by (apply H; now left).
  apply IH. intros pl Hpl. apply H. now right.
Qed.

Lemma turn_literal s place cur :
  literal (VersionSearchQuery.getattr place s) ->
  BInfoMatcher.turn s place cur
  = Ok (BInfoMatcher.end_of_turn
          (with_field place (VersionSearchQuery.getattr place s) cur)).
Proof.
  intros H. unfold BInfoMatcher.turn.
  destruct (literal_tests _ H) as [E1 [E2 [E3 E4]]].
  now rewrite E1, E2, E3, E4.
Qed.

Lemma loop_literal_then_wildcards s place rest cur :
  literal (VersionSearchQuery.getattr place s) ->
  (forall other, In other rest ->
                 wildcard (VersionSearchQuery.getattr other s)) ->
  BInfoMatcher.loop s (place :: rest) cur
  = Ok (with_field place (VersionSearchQuery.getattr place s) cur).
Proof.
  intros Hlit Hrest. cbn [BInfoMatcher.loop].
  rewrite (turn_literal _ _ _ Hlit). cbn [bind].
  destruct (with_field place _ cur) as [|v kept] eqn:E; [reflexivity |].
  cbn [BInfoMatcher.end_of_turn]. now apply loop_wildcards.
Qed.

(** X6. When one field of the query holds a literal and every other field
    is a wildcard or absent, [match] returns exactly the records of the
    catalog whose field equals the literal, in the order of the catalog;
    this holds on the empty catalog too. *)
Theorem match_on_one_literal :
  forall (self : BInfoMatcher.t) (s : VersionSearchQuery.t) place,
    literal (VersionSearchQuery.getattr place s) ->
    (forall other, other <> place ->
                   wildcard (VersionSearchQuery.getattr other s)) ->
    BInfoMatcher.match_ self s
    = Ok (with_field place (VersionSearchQuery.getattr place s)
                     (BInfoMatcher.versions self)).
Proof.
  intros self s place Hlit Hother.
  unfold BInfoMatcher.match_, BInfoMatcher.places.
  destruct place;
    repeat (rewrite loop_skip by (apply Hother; discriminate));
    apply loop_literal_then_wildcards; try assumption;
    intros other Hin; apply Hother; simpl in Hin;
    intuition (subst; discriminate).
Qed.

(** The builds of the branch lts on the fixture. *)
Lemma match_on_one_literal_witness :
  BInfoMatcher.match_ matcher
    (query (inr "*") (inr "*") (inr "*") (Some "lts") (inr "*"))
  = Ok (with_field Attr.branch (VStr "lts") (BInfoMatcher.versions matcher)).
Proof.
  apply (match_on_one_literal matcher
           (query (inr "*") (inr "*") (inr "*") (Some "lts") (inr "*"))
           Attr.branch).
  - simpl. repeat split; discriminate.
  - intros other Hother. destruct other; simpl;
      try congruence; try (now left); now right.
Defined.

(** ** Matching the result again *)

Lemma filter_id {A : Type} (f : A -> bool) (l : list A) :
  (forall x, In x l -> f x = true) -> filter f l = l.
Proof.
  induction l as [|x l IH]; intros H; [reflexivity |].
  simpl. rewrite (H x (or_introl eq_refl)). rewrite IH; [reflexivity |].
  intros y Hy. apply H. now right.
Qed.

(** A step of the narrowing keeps all the candidates when they already have
    one value of the field, the literal of the query if there is one. *)
Lemma narrows_fixed s place r out :
  narrows s place r out -> r <> [] ->
  (~ wildcard (VersionSearchQuery.getattr place s) ->
   exists m,
     (forall v, In v r -> py_eq (BasicBuildInfo.getattr place v) m = true)
     /\ (literal (VersionSearchQuery.getattr place s) ->
         m = VersionSearchQuery.getattr place s)) ->
  out = r.
Proof.
  intros H Hne Hone.
  assert (Hall : forall m m',
             (forall v, In v r ->
                        py_eq (BasicBuildInfo.getattr place v) m = true) ->
             (exists w, In w r /\ BasicBuildInfo.getattr place w = m') ->
             with_field place m' r = r).
  { intros m m' Hm [w [Hw <-]]. apply filter_id. intros v Hv.
    apply py_eq_both with m; now apply Hm. }
  destruct H as [_ | m' Hp [Hin _] | m' Hp [Hin _] | Hlit | Hnil].
  - reflexivity.
  - destruct Hone as [m [Hm _]].
    { rewrite Hp. intros [H | H]; discriminate. }
    now apply Hall with m.
  - destruct Hone as [m [Hm _]].
    { rewrite Hp. intros [H | H]; discriminate. }
    now apply Hall with m.
  - destruct Hone as [m [Hm Heq]].
    { destruct Hlit as [_ [H2 [_ H4]]]. intros [H | H]; contradiction. }
    rewrite <- (Heq Hlit). now apply filter_id.
  - contradiction.
Qed.

Lemma loop_fixed s places : forall r,
  r <> [] -> (orders_commit_time s -> comparable_times r) ->
  (forall place, In place places ->
     ~ wildcard (VersionSearchQuery.getattr place s) ->
     exists m,
       (forall v, In v r -> py_eq (BasicBuildInfo.getattr place v) m = true)
       /\ (literal (VersionSearchQuery.getattr place s) ->
           m = VersionSearchQuery.getattr place s)) ->
  BInfoMatcher.loop s places r = Ok r.
Proof.
  induction places as [|place rest IH]; intros r Hne Hcmp Hone;
    [reflexivity |].
  destruct (turn_narrows s place r Hne Hcmp) as [out [Hstep Hturn]].
  assert (Hout : out = r).
  { apply (narrows_fixed _ _ _ _ Hstep Hne). apply Hone. now left. }
  subst out. cbn [BInfoMatcher.loop]. rewrite Hturn. cbn [bind].
  rewrite (end_of_turn_nonempty _ Hne).
  apply IH; try assumption.
  intros pl Hpl. apply Hone. now right.
Qed.

(** X7. Matching is idempotent: when [match] returns a result that is not
    empty, matching this result with the same query returns it unchanged
    (the commit times of the catalog being comparable when the query orders
    them). *)
Theorem match_is_idempotent :
  forall (self : BInfoMatcher.t) (s : VersionSearchQuery.t) r,
    BInfoMatcher.match_ self s = Ok r ->
    r <> [] ->
    (orders_commit_time s -> comparable_times (BInfoMatcher.versions self)) ->
    BInfoMatcher.match_ (BInfoMatcher.mk r) s = Ok r.
Proof.
  intros self s r H Hne Hcmp.
  unfold BInfoMatcher.match_ in *. cbn [BInfoMatcher.versions].
  apply loop_fixed; [assumption | |].
  - intros Hs. apply comparable_times_incl with (BInfoMatcher.versions self);
      [| now apply Hcmp].
    eapply loop_incl; eassumption.
  - intros place Hplace Hnot. eapply loop_filters; eassumption.
Qed.

(** The builds of the newest minor release on the fixture, matched again. *)
Lemma match_is_idempotent_witness :
  BInfoMatcher.match_
    (BInfoMatcher.mk [build 4 3 0 "daily" 2024 7 30;
                      build 4 3 0 "daily" 2024 7 28;
                      build 4 3 1 "daily" 2024 7 20])
    (query (inr "^") (inr "^") (inr "*") None (inr "*"))
  = Ok [build 4 3 0 "daily" 2024 7 30;
        build 4 3 0 "daily" 2024 7 28;
        build 4 3 1 "daily" 2024 7 20].
Proof.
  apply (match_is_idempotent matcher
           (query (inr "^") (inr "^") (inr "*") None (inr "*"))).
  - reflexivity.
  - discriminate.
  - intros _. exact builds_comparable.
Defined.

(** ** The order of builds *)





(** ** The default query and the newest builds *)










(** ** Deriving a query from another *)

Lemma check_positions_app (l l' : list value) :
  VersionSearchQuery.check_positions (l ++ l')%list
  = (VersionSearchQuery.check_positions l ;;;
     VersionSearchQuery.check_positions l').
Proof.
  induction l as [|pos l IH]; [reflexivity |].
  destruct pos; cbn [List.app VersionSearchQuery.check_positions];
    try exact IH.
  destruct (negb (str_in s mode_symbols)); [reflexivity | exact IH].
Qed.

(** The three parts of the validation of a valid query. *)
Lemma post_init_parts q :
  VersionSearchQuery.__post_init__ q = Ok tt ->
  VersionSearchQuery.check_positions
    [value_of_number (VersionSearchQuery.major q);
     value_of_number (VersionSearchQuery.minor q);
     value_of_number (VersionSearchQuery.patch q)] = Ok tt
  /\ VersionSearchQuery.check_positions
       [value_of_time (VersionSearchQuery.commit_time q)] = Ok tt
  /\ truthy (VersionSearchQuery.build_hash q)
     && str_in (match VersionSearchQuery.build_hash q with
                | Some h => h
                | None => ""
                end) ["^"; "-"] = false
  /\ truthy (VersionSearchQuery.branch q)
     && str_in (match VersionSearchQuery.branch q with
                | Some b => b
                | None => ""
                end) ["^"; "-"] = false.
Proof.
  unfold VersionSearchQuery.__post_init__.
  pose proof (check_positions_app
                [value_of_number (VersionSearchQuery.major q);
                 value_of_number (VersionSearchQuery.minor q);
                 value_of_number (VersionSearchQuery.patch q)]
                [value_of_time (VersionSearchQuery.commit_time q)]) as Happ.
  cbn [List.app] in Happ. rewrite Happ.
  destruct (VersionSearchQuery.check_positions
              [value_of_number (VersionSearchQuery.major q);
               value_of_number (VersionSearchQuery.minor q);
               value_of_number (VersionSearchQuery.patch q)]) as [[] | e];
    cbn [bind]; [| discriminate].
  destruct (VersionSearchQuery.check_positions
              [value_of_time (VersionSearchQuery.commit_time q)])
    as [[] | e]; cbn [bind]; [| discriminate].
  destruct (truthy (VersionSearchQuery.build_hash q) && _);
    cbn [bind]; [discriminate |].
  destruct (truthy (VersionSearchQuery.branch q) && _);
    cbn [bind]; [discriminate |].
  intros _. auto.
Qed.

(** X11. The helpers that derive a query validate the new query.  On a
    valid query, [with_branch] and [with_build_hash] raise [ValueError] when
    the new value is [^] or [-] and [with_commit_time] raises it when the
    new value is a string other than a mode symbol; otherwise each returns
    the query with this one field replaced and the others unchanged. *)
Theorem derived_query_is_validated :
  forall q : VersionSearchQuery.t,
    VersionSearchQuery.__post_init__ q = Ok tt ->
    (forall branch,
        VersionSearchQuery.with_branch q branch
        = if truthy branch
             && str_in (match branch with Some b => b | None => "" end)
                       ["^"; "-"]
          then Raise (ValueError "branch cannot be temporally matched")
          else Ok (VersionSearchQuery.mk
                     (VersionSearchQuery.major q) (VersionSearchQuery.minor q)
                     (VersionSearchQuery.patch q) branch
                     (VersionSearchQuery.build_hash q)
                     (VersionSearchQuery.commit_time q)))
    /\ (forall build_hash,
           VersionSearchQuery.with_build_hash q build_hash
           = if truthy build_hash
                && str_in (match build_hash with Some h => h | None => "" end)
                          ["^"; "-"]
             then Raise (ValueError "build_hash cannot be temporally matched")
             else Ok (VersionSearchQuery.mk
                        (VersionSearchQuery.major q)
                        (VersionSearchQuery.minor q)
                        (VersionSearchQuery.patch q)
                        (VersionSearchQuery.branch q) build_hash
                        (VersionSearchQuery.commit_time q)))
    /\ (forall commit_time,
           VersionSearchQuery.with_commit_time q commit_time
           = match commit_time with
             | inr pos =>
                 if str_in pos mode_symbols
                 then Ok (VersionSearchQuery.mk
                            (VersionSearchQuery.major q)
                            (VersionSearchQuery.minor q)
                            (VersionSearchQuery.patch q)
                            (VersionSearchQuery.branch q)
                            (VersionSearchQuery.build_hash q) commit_time)
                 else Raise (VersionSearchQuery.must_be_symbol pos)
             | inl _ =>
                 Ok (VersionSearchQuery.mk
                       (VersionSearchQuery.major q)
                       (VersionSearchQuery.minor q)
                       (VersionSearchQuery.patch q)
                       (VersionSearchQuery.branch q)
                       (VersionSearchQuery.build_hash q) commit_time)
             end).
Proof.
  intros q Hvalid.
  destruct (post_init_parts q Hvalid) as [Hnum [Htime [Hhash Hbranch]]].
  assert (Hsplit : forall t,
             VersionSearchQuery.check_positions
               [value_of_number (VersionSearchQuery.major q);
                value_of_number (VersionSearchQuery.minor q);
                value_of_number (VersionSearchQuery.patch q);
                value_of_time t]
             = VersionSearchQuery.check_positions [value_of_time t]).
  { intros t.
    pose proof (check_positions_app
                  [value_of_number (VersionSearchQuery.major q);
                   value_of_number (VersionSearchQuery.minor q);
                   value_of_number (VersionSearchQuery.patch q)]
                  [value_of_time t]) as Happ.
    cbn [List.app] in Happ. rewrite Happ, Hnum. reflexivity. }
  split; [| split].
  - intros branch.
    unfold VersionSearchQuery.with_branch, VersionSearchQuery.new,
      VersionSearchQuery.__post_init__.
    cbn [VersionSearchQuery.major VersionSearchQuery.minor
         VersionSearchQuery.patch VersionSearchQuery.branch
         VersionSearchQuery.build_hash VersionSearchQuery.commit_time].
    rewrite Hsplit, Htime. cbn [bind]. rewrite Hhash. cbn [bind].
    destruct (truthy branch && _); reflexivity.
  - intros build_hash.
    unfold VersionSearchQuery.with_build_hash, VersionSearchQuery.new,
      VersionSearchQuery.__post_init__.
    cbn [VersionSearchQuery.major VersionSearchQuery.minor
         VersionSearchQuery.patch VersionSearchQuery.branch
         VersionSearchQuery.build_hash VersionSearchQuery.commit_time].
    rewrite Hsplit, Htime. cbn [bind].
    destruct (truthy build_hash && _); cbn [bind]; [reflexivity |].
    rewrite Hbranch. reflexivity.
  - intros commit_time.
    unfold VersionSearchQuery.with_commit_time, VersionSearchQuery.new,
      VersionSearchQuery.__post_init__.
    cbn [VersionSearchQuery.major VersionSearchQuery.minor
         VersionSearchQuery.patch VersionSearchQuery.branch
         VersionSearchQuery.build_hash VersionSearchQuery.commit_time].
    rewrite Hsplit.
    destruct commit_time as [d | pos]; cbn [value_of_time].
    + cbn [VersionSearchQuery.check_positions bind].
      rewrite Hhash. cbn [bind]. rewrite Hbranch. reflexivity.
    + rewrite check_positions_str.
      destruct (str_in pos mode_symbols); [| reflexivity].
      cbn [VersionSearchQuery.check_positions bind].
      rewrite Hhash. cbn [bind]. rewrite Hbranch. reflexivity.
Qed.

(** The query of the newest release, pinned to the branch daily, and the
    refused branch [^]. *)
Lemma derived_query_is_validated_witness :
  VersionSearchQuery.with_branch
    (VersionSearchQuery.mk (inr "^") (inr "^") (inr "^") None None (inr "^"))
    (Some "daily")
  = Ok (VersionSearchQuery.mk (inr "^") (inr "^") (inr "^") (Some "daily")
                              None (inr "^"))
  /\ VersionSearchQuery.with_branch
       (VersionSearchQuery.mk (inr "^") (inr "^") (inr "^") None None (inr "^"))
       (Some "^")
     = Raise (ValueError "branch cannot be temporally matched").
Proof.
  pose proof (proj1 (derived_query_is_validated
                (VersionSearchQuery.mk (inr "^") (inr "^") (inr "^")
                                       None None (inr "^")) eq_refl)) as H.
  split; [exact (H (Some "daily")) | exact (H (Some "^"))].
Defined.

(** ** The outcomes of [parse] *)

Lemma hash_token_passes build_hash :
  optional_token hash_char build_hash ->
  truthy build_hash
  && str_in (match build_hash with Some h => h | None => "" end) ["^"; "-"]
  = false.
Proof.
  destruct build_hash as [h |]; [| reflexivity].
  intros [_ Hall]. cbn [truthy].
  destruct (str_in h ["^"; "-"]) eqn:E; [| apply andb_false_r].
  apply str_in_spec in E. simpl in E.
  destruct E as [<- | [<- | []]]; discriminate.
Qed.

(** The constructor on the fields that [_parse] makes from the groups of a
    match. *)
Lemma new_of_parsed x1 x2 x3 t1 t2 t3 branch build_hash commit_time :
  match x1 with
  | inl _ => isnumeric t1 = true
  | inr sym => sym = t1 /\ In sym mode_symbols
  end ->
  match x2 with
  | inl _ => isnumeric t2 = true
  | inr sym => sym = t2 /\ In sym mode_symbols
  end ->
  match x3 with
  | inl _ => isnumeric t3 = true
  | inr sym => sym = t3 /\ In sym mode_symbols
  end ->
  optional_token hash_char build_hash ->
  VersionSearchQuery.new x1 x2 x3 branch build_hash commit_time
  = (VersionSearchQuery.check_positions [value_of_time commit_time] ;;;
     (if truthy branch
         && str_in (match branch with Some b => b | None => "" end)
                   ["^"; "-"]
      then Raise (ValueError "branch cannot be temporally matched")
      else Ok (VersionSearchQuery.mk x1 x2 x3 branch build_hash
                                     commit_time))).
Proof.
  intros V1 V2 V3 Hhash.
  unfold VersionSearchQuery.new, VersionSearchQuery.__post_init__.
  cbn [VersionSearchQuery.major VersionSearchQuery.minor
       VersionSearchQuery.patch VersionSearchQuery.branch
       VersionSearchQuery.build_hash VersionSearchQuery.commit_time].
  rewrite (check_positions_number x1 t1), (check_positions_number x2 t2),
    (check_positions_number x3 t3) by assumption.
  destruct (VersionSearchQuery.check_positions [value_of_time commit_time])
    as [[] | e]; cbn [bind]; [| reflexivity].
  rewrite (hash_token_passes _ Hhash). cbn [bind].
  destruct (truthy branch && _); reflexivity.
Qed.

(** What [parse] does on a text that the pattern matches, the number tokens
    being within the limit of [int]. *)
Lemma parse_of_match fromisoformat s m :
  search s = Some m ->
  numbers_within_limit m ->
  exists x1 x2 x3,
    VersionSearchQuery.parse fromisoformat s
    = (let tok := match Re.group m 6 with Some x => x | None => "^" end in
       let commit_time : time_or_str :=
         if str_in tok mode_symbols then inr tok
         else match fromisoformat tok with
              | Some d => inl d
              | None => inr tok
              end in
       VersionSearchQuery.check_positions [value_of_time commit_time] ;;;
       (if truthy (Re.group m 4)
           && str_in (match Re.group m 4 with Some b => b | None => "" end)
                     ["^"; "-"]
        then Raise (ValueError "branch cannot be temporally matched")
        else Ok (VersionSearchQuery.mk x1 x2 x3 (Re.group m 4) (Re.group m 5)
                                       commit_time))).
Proof.
  intros Hsearch Hlimit.
  destruct (search_sound _ _ Hsearch)
    as [major [minor [patch [branch [build_hash [commit_time [tail H]]]]]]].
  destruct H as [Hmajor [Hminor [Hpatch [_ [Hhash [_ [_ [_ ->]]]]]]]].
  destruct (number_of_group_token _ Hmajor) as [x1 [E1 V1]].
  { apply (Hlimit 1%nat); [simpl; auto | reflexivity]. }
  destruct (number_of_group_token _ Hminor) as [x2 [E2 V2]].
  { apply (Hlimit 2%nat); [simpl; auto | reflexivity]. }
  destruct (number_of_group_token _ Hpatch) as [x3 [E3 V3]].
  { apply (Hlimit 3%nat); [simpl; auto | reflexivity]. }
  exists x1, x2, x3.
  unfold VersionSearchQuery.parse, _parse. rewrite Hsearch.
  cbn [Re.group Nat.sub nth]. rewrite E1, E2, E3. cbn [bind]. cbv zeta.
  rewrite (new_of_parsed x1 x2 x3 major minor patch) by assumption.
  destruct (str_in (match commit_time with Some x => x | None => "^" end)
                   mode_symbols); reflexivity.
Qed.

(** A number token beyond the limit of [int] makes [parse] raise
    [ValueError], whatever follows it. *)
Lemma parse_over_limit fromisoformat s m :
  search s = Some m ->
  ~ numbers_within_limit m ->
  is_ValueError (VersionSearchQuery.parse fromisoformat s).
Proof.
  intros Hsearch Hlimit.
  destruct (search_sound _ _ Hsearch)
    as [major [minor [patch [branch [build_hash [commit_time [tail H]]]]]]].
  destruct H as [Hmajor [Hminor [Hpatch [_ [_ [_ [_ [_ ->]]]]]]]].
  unfold VersionSearchQuery.parse, _parse. rewrite Hsearch.
  cbn [Re.group Nat.sub nth].
  destruct (within_limit_dec major) as [L1 | L1].
  2:{ rewrite (number_of_group_over_limit _ Hmajor L1).
      eexists. reflexivity. }
  destruct (number_of_group_token _ Hmajor L1) as [x1 [-> _]]. cbn [bind].
  destruct (within_limit_dec minor) as [L2 | L2].
  2:{ rewrite (number_of_group_over_limit _ Hminor L2).
      eexists. reflexivity. }
  destruct (number_of_group_token _ Hminor L2) as [x2 [-> _]]. cbn [bind].
  destruct (within_limit_dec patch) as [L3 | L3].
  2:{ rewrite (number_of_group_over_limit _ Hpatch L3).
      eexists. reflexivity. }
  exfalso. apply Hlimit.
  intros n tok [<- | [<- | [<- | []]]] [= <-]; assumption.
Qed.

Lemma numbers_within_limit_dec m :
  numbers_within_limit m \/ ~ numbers_within_limit m.
Proof.
  assert (Hone : forall n,
             (forall tok, Re.group m n = Some tok -> within_limit tok)
             \/ exists tok, Re.group m n = Some tok /\ ~ within_limit tok).
  { intros n. destruct (Re.group m n) as [tok |].
    - destruct (within_limit_dec tok) as [H | H].
      + left. now intros ? [= <-].
      + right. now exists tok.
    - left. discriminate. }
  destruct (Hone 1%nat) as [H1 | [tok [E H]]].
  2:{ right. intros Hall. apply H. apply (Hall 1%nat); simpl; auto. }
  destruct (Hone 2%nat) as [H2 | [tok [E H]]].
  2:{ right. intros Hall. apply H. apply (Hall 2%nat); simpl; auto. }
  destruct (Hone 3%nat) as [H3 | [tok [E H]]].
  2:{ right. intros Hall. apply H. apply (Hall 3%nat); simpl; auto. }
  left. intros n tok [<- | [<- | [<- | []]]]; auto.
Qed.

(** The last test of the constructor: the branch. *)
Lemma branch_test_outcome (branch : option string) (q : VersionSearchQuery.t) :
  let r := if truthy branch
              && str_in (match branch with Some b => b | None => "" end)
                        ["^"; "-"]
           then Raise (ValueError "branch cannot be temporally matched")
           else Ok q in
  (returns r \/ is_ValueError r)
  /\ (returns r <-> branch <> Some "^" /\ branch <> Some "-").
Proof.
  cbv zeta.
  assert (Hbranch :
            truthy branch
            && str_in (match branch with Some b => b | None => "" end)
                      ["^"; "-"] = true
            <-> branch = Some "^" \/ branch = Some "-").
  { rewrite temporal_test_spec. split.
    - intros [x [-> [_ [-> | ->]]]]; auto.
    - intros [H | H]; rewrite H; eexists; (split; [reflexivity |]);
        (split; [discriminate | auto]). }
  destruct (truthy branch && _).
  - split; [right; eexists; reflexivity |]. split.
    + intros [q' H]. discriminate.
    + intros [H1 H2]. destruct (proj1 Hbranch eq_refl); contradiction.
  - split; [left; eexists; reflexivity |]. split.
    + intros _. split; intros H.
      * assert (E : false = true) by (apply Hbranch; now left).
        discriminate.
      * assert (E : false = true) by (apply Hbranch; now right).
        discriminate.
    + intros _. eexists. reflexivity.
Qed.

(** X12. [parse] returns a query or raises [ValueError], nothing else.  It
    returns exactly when the pattern matches the text, the three number
    tokens have at most 4300 characters each (the limit of [int]), the
    commit time token is absent, a mode symbol or a text that
    [fromisoformat] reads, and the branch token is neither [^] nor [-]. *)
Theorem parse_outcome :
  forall (fromisoformat : string -> option datetime) (s : string),
    (returns (VersionSearchQuery.parse fromisoformat s)
     \/ is_ValueError (VersionSearchQuery.parse fromisoformat s))
    /\ (returns (VersionSearchQuery.parse fromisoformat s)
        <-> exists m,
              search s = Some m
              /\ numbers_within_limit m
              /\ time_is_read fromisoformat (Re.group m 6)
              /\ Re.group m 4 <> Some "^"
              /\ Re.group m 4 <> Some "-").
Proof.
  intros fromisoformat s.
  destruct (search s) as [m |] eqn:Hsearch.
  2:{ assert (Hraise : VersionSearchQuery.parse fromisoformat s
                       = Raise (ValueError
                                  ("Invalid version search query: " ++ s))).
      { unfold VersionSearchQuery.parse, _parse. now rewrite Hsearch. }
      rewrite Hraise. split.
      - right. eexists. reflexivity.
      - split.
        + intros [q H]. discriminate.
        + intros [m [H _]]. discriminate. }
  destruct (numbers_within_limit_dec m) as [Hlimit | Hlimit].
  2:{ destruct (parse_over_limit fromisoformat s m Hsearch Hlimit)
        as [msg Hraise].
      rewrite Hraise. split.
      - right. eexists. reflexivity.
      - split.
        + intros [q H]. discriminate.
        + intros [m' [[= <-] [H _]]]. contradiction. }
  destruct (parse_of_match fromisoformat s m Hsearch Hlimit)
    as [x1 [x2 [x3 Hparse]]].
  rewrite Hparse. clear Hparse. cbv zeta.
  destruct (Re.group m 6) as [tok |] eqn:Htok.
  - destruct (str_in tok mode_symbols) eqn:Esym.
    + (* a mode symbol *)
      cbn [value_of_time]. rewrite check_positions_str, Esym.
      cbn [VersionSearchQuery.check_positions bind].
      apply str_in_spec in Esym.
      match goal with
      | |- context [Ok ?q] =>
          destruct (branch_test_outcome (Re.group m 4) q) as [Hout Hret]
      end.
      cbv zeta in Hout, Hret. split; [exact Hout |].
      rewrite Hret. split.
      * intros H. exists m. split; [reflexivity |].
        split; [exact Hlimit |]. split; [| exact H].
        rewrite Htok. now left.
      * intros [m' [[= <-] [_ [_ H]]]]. exact H.
    + assert (Hnot : ~ In tok mode_symbols).
      { intros H. apply str_in_spec in H. congruence. }
      destruct (fromisoformat tok) as [d |] eqn:Eiso.
      * (* a timestamp *)
        cbn [value_of_time VersionSearchQuery.check_positions bind].
        match goal with
        | |- context [Ok ?q] =>
            destruct (branch_test_outcome (Re.group m 4) q) as [Hout Hret]
        end.
        cbv zeta in Hout, Hret. split; [exact Hout |].
        rewrite Hret. split.
        -- intros H. exists m. split; [reflexivity |].
           split; [exact Hlimit |]. split; [| exact H].
           rewrite Htok. right. cbn. congruence.
        -- intros [m' [[= <-] [_ [_ H]]]]. exact H.
      * (* a token that is kept and then refused *)
        cbn [value_of_time]. rewrite check_positions_str, Esym. cbn [bind].
        split; [right; eexists; reflexivity |]. split.
        -- intros [q H]. discriminate.
        -- intros [m' [[= <-] [_ [H _]]]]. rewrite Htok in H.
           destruct H as [H | H]; [contradiction | congruence].
  - (* no commit time: the default [^] *)
    change (str_in "^" mode_symbols) with true. cbv iota.
    cbn [value_of_time]. rewrite check_positions_str.
    change (str_in "^" mode_symbols) with true. cbv iota.
    cbn [VersionSearchQuery.check_positions bind].
    match goal with
    | |- context [Ok ?q] =>
        destruct (branch_test_outcome (Re.group m 4) q) as [Hout Hret]
    end.
    cbv zeta in Hout, Hret. split; [exact Hout |].
    rewrite Hret. split.
    + intros H. exists m. split; [reflexivity |].
      split; [exact Hlimit |]. split; [| exact H].
      rewrite Htok. exact I.
    + intros [m' [[= <-] [_ [_ H]]]]. exact H.
Qed.

(** ** A newline at the end of the text *)

Lemma no_final_newline_tail c s :
  no_final_newline (String c s) -> no_final_newline s.
Proof.
  unfold no_final_newline. destruct s as [| c' s']; [discriminate |].
  intros H. exact H.
Qed.

Lemma substring_app_le (n : nat) (a b : string) :
  (n <= String.length a)%nat ->
  substring 0 n (a ++ b) = substring 0 n a.
Proof.
  revert a. induction n as [| n IH]; intros a Hn.
  - destruct a, b; reflexivity.
  - destruct a as [| c a]; simpl in Hn; [lia |].
    simpl. rewrite IH by lia. reflexivity.
Qed.

Lemma consumed_before_newline (s s' : string) :
  Re.consumed (s ++ newline) (s' ++ newline) = Re.consumed s s'.
Proof.
  unfold Re.consumed. rewrite !length_append.
  replace (String.length s + String.length newline
           - (String.length s' + String.length newline))%nat
    with (String.length s - String.length s')%nat by lia.
  apply substring_app_le. lia.
Qed.

Lemma at_end_before_newline (s : string) :
  no_final_newline s -> Re.at_end (s ++ newline) = Re.at_end s.
Proof.
  unfold no_final_newline.
  destruct s as [| c [| c' s']]; intros H; try reflexivity.
  change (false = is_char "010" c). symmetry. unfold is_char.
  apply Ascii.eqb_neq. intros Hc. apply H. cbn. congruence.
Qed.

Section BeforeNewline.
Context {R : Type}.

Lemma plus_before_newline p (k k' : string -> option R) :
  p "010"%char = false ->
  forall s,
    no_final_newline s ->
    (forall s', no_final_newline s' -> k' (s' ++ newline) = k s') ->
    Re.plus p (s ++ newline) k' = Re.plus p s k.
Proof.
  intros Hp s. induction s as [| c s IH]; intros Hs Hk.
  - cbn. now rewrite Hp.
  - cbn [append Re.plus]. destruct (p c); [| reflexivity].
    assert (Hs' := no_final_newline_tail _ _ Hs).
    rewrite (IH Hs' Hk), (Hk _ Hs'). reflexivity.
Qed.

(** A pattern whose sets do not hold the newline runs on a text followed by
    a newline as it runs on the text. *)
Lemma run_before_newline r :
  newline_free r ->
  forall s g (k k' : string -> Re.groups -> option R),
    no_final_newline s ->
    (forall s' g', no_final_newline s' -> k' (s' ++ newline) g' = k s' g') ->
    Re.run r (s ++ newline) g k' = Re.run r s g k.
Proof.
  induction r as [p | p | r1 IH1 r2 IH2 | r1 IH1 r2 IH2 | r1 IH1 | n r1 IH1 |];
    cbn [newline_free Re.run]; intros Hfree s g k k' Hs Hk.
  - destruct s as [| c s]; cbn.
    + now rewrite Hfree.
    + destruct (p c); [| reflexivity].
      apply Hk. exact (no_final_newline_tail _ _ Hs).
  - apply plus_before_newline; auto.
  - destruct Hfree as [H1 H2]. apply IH1; auto.
  - destruct Hfree as [H1 H2].
    rewrite (IH1 H1 s g k k' Hs Hk), (IH2 H2 s g k k' Hs Hk). reflexivity.
  - rewrite (IH1 Hfree s g k k' Hs Hk), (Hk s g Hs). reflexivity.
  - apply IH1; auto. intros s' g' Hs'.
    rewrite consumed_before_newline. auto.
  - rewrite (at_end_before_newline _ Hs), (Hk s g Hs). reflexivity.
Qed.
End BeforeNewline.

Lemma version_regex_newline_free : newline_free VERSION_SEARCH_REGEX.
Proof. cbn. repeat split. Qed.

Lemma search_before_newline (s : string) :
  no_final_newline s -> search (s ++ newline) = search s.
Proof.
  intros Hs. unfold search, Re.match_.
  apply run_before_newline; auto using version_regex_newline_free.
Qed.

(** X13. One newline after a text that does not end with one changes
    nothing: the pattern gives the same groups, and [parse] returns the same
    query or fails in both cases. *)
Theorem parse_ignores_final_newline :
  forall (fromisoformat : string -> option datetime) (s : string),
    no_final_newline s ->
    search (s ++ newline) = search s
    /\ (forall q,
          VersionSearchQuery.parse fromisoformat (s ++ newline) = Ok q
          <-> VersionSearchQuery.parse fromisoformat s = Ok q)
    /\ (is_ValueError (VersionSearchQuery.parse fromisoformat (s ++ newline))
        <-> is_ValueError (VersionSearchQuery.parse fromisoformat s)).
Proof.
  intros fromisoformat s Hs.
  assert (Hsearch := search_before_newline s Hs).
  split; [exact Hsearch |].
  unfold VersionSearchQuery.parse, _parse. rewrite Hsearch.
  destruct (search s) as [m |].
  - split; [intros q |]; reflexivity.
  - cbn [bind]. split.
    + intros q. split; discriminate.
    + split; intros _; eexists; reflexivity.
Qed.

Lemma parse_ignores_final_newline_witness :
  no_final_newline "1.2.3"
  /\ search ("1.2.3" ++ newline) = search "1.2.3".
Proof.
  assert (H : no_final_newline "1.2.3") by (unfold no_final_newline; cbn; discriminate).
  split; [exact H |].
  exact (proj1 (parse_ignores_final_newline (fun _ => None) "1.2.3" H)).
Defined.

(** ** A text without a commit time *)

Lemma last_char_app (a : string) (c : ascii) :
  last_char (a ++ String c "") = Some c.
Proof.
  induction a as [| x a IH]; [reflexivity |].
  cbn [append last_char]. rewrite IH.
  destruct (a ++ String c "") eqn:E; [| reflexivity].
  destruct a; discriminate.
Qed.

(** The pattern on a matched text without commit time, followed by [@^]. *)
Lemma search_with_newest s m :
  search s = Some m ->
  Re.group m 6 = None ->
  no_final_newline s ->
  exists g1 g2 g3 g4 g5,
    m = [g1; g2; g3; g4; g5; None]
    /\ search (s ++ "@^") = Some [g1; g2; g3; g4; g5; Some "^"].
Proof.
  intros Hsearch Hnone Hs.
  destruct (search_sound _ _ Hsearch)
    as [major [minor [patch [branch [build_hash [commit_time [tail H]]]]]]].
  destruct H as [Hmajor [Hminor [Hpatch [Hbranch [Hhash [_ [Htail [-> ->]]]]]]]].
  cbn in Hnone. subst commit_time.
  exists (Some major), (Some minor), (Some patch), branch, build_hash.
  split; [reflexivity |].
  cbn [optional_part] in *.
  destruct Htail as [-> | ->].
  2:{ exfalso. apply Hs.
      rewrite <- !append_assoc. apply last_char_app. }
  rewrite !append_assoc. change ("" ++ "" ++ "@^") with ("@" ++ "^").
  apply search_canonical; try assumption. left. now left.
Qed.

(** X14. Leaving the commit time out is writing [@^]: on a text that the
    pattern matches without a commit time and that has no final newline,
    [parse] gives the same result, value or error, with [@^] added. *)
Theorem omitted_commit_time_is_newest :
  forall (fromisoformat : string -> option datetime) (s : string)
         (m : Re.groups),
    search s = Some m ->
    Re.group m 6 = None ->
    no_final_newline s ->
    VersionSearchQuery.parse fromisoformat (s ++ "@^")
    = VersionSearchQuery.parse fromisoformat s.
Proof.
  intros fromisoformat s m Hsearch Hnone Hs.
  destruct (search_with_newest s m Hsearch Hnone Hs)
    as [g1 [g2 [g3 [g4 [g5 [-> Hnew]]]]]].
  unfold VersionSearchQuery.parse, _parse. rewrite Hsearch, Hnew.
  reflexivity.
Qed.

Lemma omitted_commit_time_is_newest_witness :
  VersionSearchQuery.parse Iso.fromisoformat ("4.3.^-stable" ++ "@^")
  = VersionSearchQuery.parse Iso.fromisoformat "4.3.^-stable".
Proof.
  apply (omitted_commit_time_is_newest Iso.fromisoformat "4.3.^-stable"
           [Some "4"; Some "3"; Some "^"; Some "stable"; None; None]).
  - reflexivity.
  - reflexivity.
  - unfold no_final_newline. cbn. discriminate.
Defined.

(** ** The queries that [parse] returns *)

Lemma length_string_of_uint u :
  String.length (NilEmpty.string_of_uint u) = nb_digits u.
Proof. induction u; simpl; auto. Qed.

(** The decimal digits of the integer read from digits are not more than
    the digits read: leading zeros are dropped. *)
Lemma decimal_of_digits tok u :
  NilEmpty.uint_of_string tok = Some u ->
  u <> Nil ->
  (String.length (decimal (Z.of_uint u)) <= String.length tok)%nat.
Proof.
  intros Hu Hnil. unfold decimal.
  change (Z.of_uint u) with (Z.of_int (Pos u)).
  rewrite DecimalZ.to_of. cbn [norm NilZero.string_of_int].
  unfold NilZero.string_of_uint.
  pose proof (unorm_nonnil u) as Hnn.
  pose proof (nb_digits_unorm u Hnil) as Hle.
  apply NilEmpty.sus in Hu. rewrite <- Hu, length_string_of_uint.
  rewrite <- (length_string_of_uint (unorm u)) in Hle.
  destruct (unorm u); [congruence | | | | | | | | | |]; exact Hle.
Qed.

(** An integer that [int] has read from digits is not negative and [str]
    writes it. *)
Lemma int_numeric_result tok n :
  isnumeric tok = true -> int tok = Ok n ->
  0 <= n /\ str_int n = Ok (decimal n).
Proof.
  intros Hnum. destruct (int_numeric tok Hnum) as [u [Hu ->]].
  destruct (Z.ltb_spec int_max_str_digits (Z.of_nat (String.length tok)))
    as [Hover | Hlen]; [discriminate |].
  intros [= <-].
  assert (Hpos : 0 <= Z.of_uint u).
  { unfold Z.of_uint. apply N2Z.is_nonneg. }
  split; [exact Hpos |].
  apply str_int_within; [exact Hpos |].
  assert (Hnil : u <> Nil).
  { intros ->. unfold isnumeric in Hnum.
    destruct tok as [| c tok]; [discriminate |].
    apply NilEmpty.sus in Hu. discriminate. }
  pose proof (decimal_of_digits tok u Hu Hnil). lia.
Qed.

Lemma number_of_group_writable tok x :
  number_of_group (Some tok) = Ok x ->
  writable_number x /\ returns (VersionSearchQuery.format_number x).
Proof.
  unfold number_of_group. destruct (isnumeric tok) eqn:Hnum.
  - destruct (int tok) as [n | e] eqn:Hint; cbn [bind]; [| discriminate].
    intros [= <-].
    destruct (int_numeric_result tok n Hnum Hint) as [Hpos Hstr].
    split; [exact Hpos |]. eexists. exact Hstr.
  - intros [= <-]. split; [exact I |]. eexists. reflexivity.
Qed.

Section Parsed.
Variable fromisoformat : string -> option datetime.
Variable str_datetime : datetime -> string.

(** A query that [parse] returns passes the validation, its numbers, branch
    and build hash are in the sets of the grammar, and [str] returns on
    it. *)
Lemma parse_result_fields s q :
  VersionSearchQuery.parse fromisoformat s = Ok q ->
  VersionSearchQuery.__post_init__ q = Ok tt
  /\ writable_number (VersionSearchQuery.major q)
  /\ writable_number (VersionSearchQuery.minor q)
  /\ writable_number (VersionSearchQuery.patch q)
  /\ optional_token branch_char (VersionSearchQuery.branch q)
  /\ optional_token hash_char (VersionSearchQuery.build_hash q)
  /\ returns (VersionSearchQuery.str str_datetime q).
Proof.
  unfold VersionSearchQuery.parse, _parse.
  destruct (search s) as [m |] eqn:Hsearch; [| discriminate].
  destruct (search_sound _ _ Hsearch)
    as [major [minor [patch [branch [build_hash [commit_time [tail H]]]]]]].
  destruct H as [_ [_ [_ [Hbranch [Hhash [_ [_ [_ ->]]]]]]]].
  cbn [Re.group Nat.sub nth].
  destruct (number_of_group (Some major)) as [x1 | e] eqn:E1;
    cbn [bind]; [| discriminate].
  destruct (number_of_group (Some minor)) as [x2 | e] eqn:E2;
    cbn [bind]; [| discriminate].
  destruct (number_of_group (Some patch)) as [x3 | e] eqn:E3;
    cbn [bind]; [| discriminate].
  cbv zeta. unfold VersionSearchQuery.new.
  match goal with
  | |- context [VersionSearchQuery.__post_init__ ?self] =>
      destruct (VersionSearchQuery.__post_init__ self) as [[] | e] eqn:Hok
  end; cbn [bind]; [| discriminate].
  intros [= <-].
  destruct (number_of_group_writable _ _ E1) as [W1 [t1 S1]].
  destruct (number_of_group_writable _ _ E2) as [W2 [t2 S2]].
  destruct (number_of_group_writable _ _ E3) as [W3 [t3 S3]].
  split; [exact Hok |].
  unfold VersionSearchQuery.str.
  cbn [VersionSearchQuery.major VersionSearchQuery.minor
       VersionSearchQuery.patch VersionSearchQuery.branch
       VersionSearchQuery.build_hash].
  rewrite S1, S2, S3. cbn [bind].
  repeat (split; [assumption |]).
  eexists. reflexivity.
Qed.

(** The text of a valid query whose fields are in the sets of the grammar
    is read back as the same query, but for a timestamp, which is read back
    from its text. *)
Lemma parse_of_str q text :
  VersionSearchQuery.__post_init__ q = Ok tt ->
  writable fromisoformat str_datetime q ->
  VersionSearchQuery.str str_datetime q = Ok text ->
  exists commit_time,
    VersionSearchQuery.parse fromisoformat text
    = Ok (VersionSearchQuery.mk
            (VersionSearchQuery.major q) (VersionSearchQuery.minor q)
            (VersionSearchQuery.patch q) (VersionSearchQuery.branch q)
            (VersionSearchQuery.build_hash q) commit_time)
    /\ py_eq (value_of_time commit_time)
             (value_of_time (VersionSearchQuery.commit_time q)) = true
    /\ (forall sym, VersionSearchQuery.commit_time q = inr sym ->
                    commit_time = inr sym).
Proof.
  intros Hok [Hmajor [Hminor [Hpatch [Hbranch [Hhash Htime]]]]] Hstr.
  pose proof (valid_number_field q Hok) as Hvalid.
  destruct (format_time_token fromisoformat str_datetime _ Htime)
    as [Ttime Htruthy].
  { intros pos H. apply Hvalid. tauto. }
  destruct (str_canonical str_datetime q text Htruthy Hbranch Hhash Hstr)
    as [major [minor [patch [Smajor [Sminor [Spatch ->]]]]]].
  destruct (format_number_token _ major Hmajor) as [Tmajor Nmajor];
    [intros pos H; apply Hvalid; tauto | exact Smajor |].
  destruct (format_number_token _ minor Hminor) as [Tminor Nminor];
    [intros pos H; apply Hvalid; tauto | exact Sminor |].
  destruct (format_number_token _ patch Hpatch) as [Tpatch Npatch];
    [intros pos H; apply Hvalid; tauto | exact Spatch |].
  unfold VersionSearchQuery.parse, _parse.
  rewrite (search_canonical _ _ _ _ _ _
             Tmajor Tminor Tpatch Hbranch Hhash Ttime).
  cbn [Re.group Nat.sub nth]. rewrite Nmajor, Nminor, Npatch. cbn [bind].
  destruct q as [qmajor qminor qpatch branch build_hash commit_time].
  cbn [VersionSearchQuery.major VersionSearchQuery.minor
       VersionSearchQuery.patch VersionSearchQuery.branch
       VersionSearchQuery.build_hash VersionSearchQuery.commit_time] in *.
  unfold VersionSearchQuery.new.
  destruct commit_time as [d | pos]; cbn [VersionSearchQuery.format_time].
  - destruct Htime as [_ [Hsym [d' [Hiso Heq]]]].
    assert (Hnot : str_in (str_datetime d) mode_symbols = false).
    { destruct (str_in (str_datetime d) mode_symbols) eqn:E;
        [| reflexivity].
      apply str_in_spec in E. contradiction. }
    rewrite Hnot. cbn [negb]. rewrite Hiso.
    rewrite (post_init_any_time _ _ _ _ _ d' d), Hok. cbn [bind].
    exists (inl d'). split; [reflexivity |].
    split; [exact Heq | discriminate].
  - assert (Hin : str_in pos mode_symbols = true).
    { apply str_in_spec. apply Hvalid. tauto. }
    rewrite Hin. cbn [negb]. rewrite Hok. cbn [bind].
    exists (inr pos). split; [reflexivity |].
    split; [apply String.eqb_refl | now intros sym [= <-]].
Qed.

Lemma eqb_but_time major minor patch branch build_hash t1 t2 :
  py_eq (value_of_time t1) (value_of_time t2) = true ->
  VersionSearchQuery.eqb
    (VersionSearchQuery.mk major minor patch branch build_hash t1)
    (VersionSearchQuery.mk major minor patch branch build_hash t2) = true.
Proof.
  intros H. unfold VersionSearchQuery.eqb.
  cbn [VersionSearchQuery.major VersionSearchQuery.minor
       VersionSearchQuery.patch VersionSearchQuery.branch
       VersionSearchQuery.build_hash VersionSearchQuery.commit_time].
  rewrite !py_eq_reflexive, H. reflexivity.
Qed.

(** X15. [str] returns on a query that [parse] returned, and the text is
    parsed as an equal query, provided a timestamp in it is written as a
    text that is read back; a query with a mode symbol as commit time is
    given back as it is. *)
Theorem parsed_query_round_trips :
  forall (s : string) (q : VersionSearchQuery.t),
    VersionSearchQuery.parse fromisoformat s = Ok q ->
    writable_time fromisoformat str_datetime
                  (VersionSearchQuery.commit_time q) ->
    exists q',
      round_trip fromisoformat str_datetime q = Ok q'
      /\ VersionSearchQuery.eqb q' q = true
      /\ (forall sym, VersionSearchQuery.commit_time q = inr sym -> q' = q).
Proof.
  intros s q Hparse Htime.
  destruct (parse_result_fields s q Hparse) as [Hok Hfields].
  assert (Hstr : returns (VersionSearchQuery.str str_datetime q)) by tauto.
  destruct Hstr as [text Hstr].
  destruct (parse_of_str q text Hok) as [commit_time [Hback [Heq Hsym]]];
    [unfold writable; tauto | exact Hstr |].
  unfold round_trip. rewrite Hstr. cbn [bind].
  eexists. split; [exact Hback |].
  destruct q as [major minor patch branch build_hash t].
  cbn [VersionSearchQuery.major VersionSearchQuery.minor
       VersionSearchQuery.patch VersionSearchQuery.branch
       VersionSearchQuery.build_hash VersionSearchQuery.commit_time] in *.
  split.
  - now apply eqb_but_time.
  - intros sym ->. now rewrite (Hsym sym eq_refl).
Qed.

(** X16. Two valid queries whose fields are in the sets of the grammar and
    that [str] writes as the same text are equal: nothing of a query is lost
    in its text. *)
Theorem str_tells_queries_apart :
  forall (q1 q2 : VersionSearchQuery.t) (text : string),
    VersionSearchQuery.__post_init__ q1 = Ok tt ->
    VersionSearchQuery.__post_init__ q2 = Ok tt ->
    writable fromisoformat str_datetime q1 ->
    writable fromisoformat str_datetime q2 ->
    VersionSearchQuery.str str_datetime q1 = Ok text ->
    VersionSearchQuery.str str_datetime q2 = Ok text ->
    VersionSearchQuery.eqb q1 q2 = true.
Proof.
  intros q1 q2 text Hok1 Hok2 Hw1 Hw2 Hstr1 Hstr2.
  destruct (parse_of_str q1 text Hok1 Hw1 Hstr1) as [t1 [Hback1 [Heq1 _]]].
  destruct (parse_of_str q2 text Hok2 Hw2 Hstr2) as [t2 [Hback2 [Heq2 _]]].
  rewrite Hback2 in Hback1. injection Hback1 as H1 H2 H3 H4 H5 H6.
  subst t2.
  destruct q1 as [major1 minor1 patch1 branch1 build_hash1 c1],
           q2 as [major2 minor2 patch2 branch2 build_hash2 c2].
  cbn [VersionSearchQuery.major VersionSearchQuery.minor
       VersionSearchQuery.patch VersionSearchQuery.branch
       VersionSearchQuery.build_hash VersionSearchQuery.commit_time] in *.
  subst. apply eqb_but_time.
  rewrite (py_eq_symmetric (value_of_time t1)) in Heq1, Heq2.
  exact (py_eq_both _ _ _ Heq1 Heq2).
Qed.

(** X20. The round trip holds on the queries of the grammar.  A query that
    passes the validation, whose fields are in the sets of the grammar
    (integers not negative; branch absent or made of characters other than
    [@], [+] and white space, at least one; build hash absent or made of
    word characters, at least one; commit time a mode symbol, or a timestamp
    whose text is made of characters of the time set and is read back as an
    equal timestamp) and that [str] writes, its numbers having at most 4300
    digits, is given back by [parse] from its text. *)
Theorem round_trip_of_writable_queries :
  forall (q : VersionSearchQuery.t) (text : string),
    VersionSearchQuery.__post_init__ q = Ok tt ->
    writable fromisoformat str_datetime q ->
    VersionSearchQuery.str str_datetime q = Ok text ->
    exists q',
      VersionSearchQuery.parse fromisoformat text = Ok q'
      /\ round_trip fromisoformat str_datetime q = Ok q'
      /\ VersionSearchQuery.eqb q' q = true.
Proof.
  intros q text Hok Hw Hstr.
  destruct (parse_of_str q text Hok Hw Hstr) as [commit_time [Hback [Heq _]]].
  eexists. split; [exact Hback |]. split.
  - unfold round_trip. rewrite Hstr. exact Hback.
  - destruct q as [major minor patch branch build_hash t].
    now apply eqb_but_time.
Qed.
End Parsed.

Lemma parsed_query_round_trips_witness :
  exists q',
    round_trip Iso.fromisoformat Iso.str
      (VersionSearchQuery.mk (inl 4) (inl 3) (inr "^") (Some "stable")
         (Some "cb886aba06d5")
         (inl (Iso.datetime_of 2024 7 31 23 53 51 0 Iso.utc)))
    = Ok q'
    /\ VersionSearchQuery.eqb q'
         (VersionSearchQuery.mk (inl 4) (inl 3) (inr "^") (Some "stable")
            (Some "cb886aba06d5")
            (inl (Iso.datetime_of 2024 7 31 23 53 51 0 Iso.utc)))
       = true
    /\ (forall sym,
          VersionSearchQuery.commit_time
            (VersionSearchQuery.mk (inl 4) (inl 3) (inr "^") (Some "stable")
               (Some "cb886aba06d5")
               (inl (Iso.datetime_of 2024 7 31 23 53 51 0 Iso.utc)))
          = inr sym ->
          q' = VersionSearchQuery.mk (inl 4) (inl 3) (inr "^") (Some "stable")
                 (Some "cb886aba06d5")
                 (inl (Iso.datetime_of 2024 7 31 23 53 51 0 Iso.utc))).
Proof.
  apply (parsed_query_round_trips Iso.fromisoformat Iso.str
           "4.3.^-stable+cb886aba06d5@2024-07-31T23:53:51+00:00").
  - vm_compute. reflexivity.
  - cbn [writable_time VersionSearchQuery.commit_time].
    split; [split; vm_compute; reflexivity |].
    split.
    + vm_compute. intros [H | [H | [H | []]]]; discriminate.
    + eexists. split; vm_compute; reflexivity.
Defined.

Lemma str_tells_queries_apart_witness :
  VersionSearchQuery.eqb
    (VersionSearchQuery.mk (inl 4) (inr "^") (inr "*") (Some "stable") None
       (inl (Iso.datetime_of 2020 5 4 0 0 0 0 Iso.utc)))
    (VersionSearchQuery.mk (inl 4) (inr "^") (inr "*") (Some "stable") None
       (inl (Iso.datetime_of 2020 5 4 0 0 0 0 Iso.utc)))
  = true.
Proof.
  apply (str_tells_queries_apart Iso.fromisoformat Iso.str _ _
           "4.^.*-stable@2020-05-04 00:00:00+00:00").
  - reflexivity.
  - reflexivity.
  - unfold writable. simpl.
    split; [lia |]. split; [exact I |]. split; [exact I |].
    split; [split; reflexivity |]. split; [exact I |].
    split; [split; vm_compute; reflexivity |].
    split.
    + vm_compute. intros [H | [H | [H | []]]]; discriminate.
    + eexists. split; vm_compute; reflexivity.
  - unfold writable. simpl.
    split; [lia |]. split; [exact I |]. split; [exact I |].
    split; [split; reflexivity |]. split; [exact I |].
    split; [split; vm_compute; reflexivity |].
    split.
    + vm_compute. intros [H | [H | [H | []]]]; discriminate.
    + eexists. split; vm_compute; reflexivity.
  - vm_compute. reflexivity.
  - vm_compute. reflexivity.
Defined.

(** A query with every field set, the commit time a timestamp. *)
Lemma round_trip_of_writable_queries_witness :
  exists q',
    VersionSearchQuery.parse Iso.fromisoformat
      "4.^.*-stable+cb886aba06d5@2020-05-04 00:00:00+00:00" = Ok q'
    /\ round_trip Iso.fromisoformat Iso.str
         (VersionSearchQuery.mk (inl 4) (inr "^") (inr "*") (Some "stable")
            (Some "cb886aba06d5")
            (inl (Iso.datetime_of 2020 5 4 0 0 0 0 Iso.utc)))
       = Ok q'
    /\ VersionSearchQuery.eqb q'
         (VersionSearchQuery.mk (inl 4) (inr "^") (inr "*") (Some "stable")
            (Some "cb886aba06d5")
            (inl (Iso.datetime_of 2020 5 4 0 0 0 0 Iso.utc)))
       = true.
Proof.
  apply (round_trip_of_writable_queries Iso.fromisoformat Iso.str).
  - reflexivity.
  - unfold writable. simpl.
    split; [lia |]. split; [exact I |]. split; [exact I |].
    split; [split; reflexivity |]. split; [split; reflexivity |].
    split; [split; vm_compute; reflexivity |].
    split.
    + vm_compute. intros [H | [H | [H | []]]]; discriminate.
    + eexists. split; vm_compute; reflexivity.
  - vm_compute. reflexivity.
Defined.

(** ** The errors of [match] *)

Lemma extremum_from_times better :
  better = py_gt \/ better = py_lt ->
  forall items d e,
    Forall (fun x => exists d', x = VTime d') items ->
    extremum_from better (VTime d) items = Raise e ->
    e = cannot_compare.
Proof.
  intros Hbetter items.
  induction items as [| item rest IH]; intros d e Hall; [discriminate |].
  inversion Hall as [| ? ? [d' ->] Hrest]; subst.
  cbn [extremum_from].
  assert (Hcmp : (exists b, better (VTime d') (VTime d) = Ok b)
                 \/ better (VTime d') (VTime d) = Raise cannot_compare).
  { destruct Hbetter as [-> | ->]; cbn [py_gt py_lt];
      unfold datetime_gt, datetime_lt;
      destruct (utcoffset d'), (utcoffset d); eauto. }
  destruct Hcmp as [[b ->] | ->]; cbn [bind].
  - destruct b; now apply IH.
  - now intros [= <-].
Qed.

(** On candidates, the maximum and the minimum of a field fail on the commit
    time only, and with the error of the comparison of datetimes. *)
Lemma extremum_raises place cur e :
  cur <> [] ->
  py_max (map (BasicBuildInfo.getattr place) cur) = Raise e
  \/ py_min (map (BasicBuildInfo.getattr place) cur) = Raise e ->
  place = Attr.commit_time /\ e = cannot_compare.
Proof.
  intros Hne Hraise.
  assert (Hmap : map (BasicBuildInfo.getattr place) cur <> []).
  { destruct cur; [congruence | discriminate]. }
  assert (Hoff : place <> Attr.commit_time -> False).
  { intros Hplace.
    destruct (field_kind place cur) as [k [Hk Hall]]; [congruence |].
    destruct (py_max_spec k _ Hk Hmap Hall) as [m [Hmax _]].
    destruct (py_min_spec k _ Hk Hmap Hall) as [m' [Hmin _]].
    destruct Hraise; congruence. }
  destruct place; try (exfalso; apply Hoff; discriminate).
  split; [reflexivity |].
  destruct cur as [| v cur]; [congruence |].
  cbn [map py_max py_min BasicBuildInfo.getattr] in Hraise.
  assert (Hall : Forall (fun x => exists d', x = VTime d')
                        (map (BasicBuildInfo.getattr Attr.commit_time) cur)).
  { apply Forall_forall. intros x Hx. apply in_map_iff in Hx.
    destruct Hx as [w [<- _]]. eexists. reflexivity. }
  destruct Hraise as [H | H];
    eapply extremum_from_times; try exact H; auto.
Qed.

Lemma turn_raises s place cur e :
  cur <> [] ->
  BInfoMatcher.turn s place cur = Raise e ->
  e = cannot_compare /\ orders_commit_time s.
Proof.
  intros Hne. unfold BInfoMatcher.turn.
  destruct (py_eq (VersionSearchQuery.getattr place s) (VStr "^")) eqn:Emax.
  - apply py_eq_VStr in Emax.
    destruct (py_max _) as [m | e'] eqn:E; cbn [bind]; [discriminate |].
    intros [= <-].
    destruct (extremum_raises place cur e' Hne (or_introl E)) as [-> ->].
    split; [reflexivity |]. apply orders_commit_time_spec. now left.
  - destruct (py_eq _ (VStr "*") || py_eq _ VNone); [discriminate |].
    destruct (py_eq (VersionSearchQuery.getattr place s) (VStr "-")) eqn:Emin;
      [| discriminate].
    apply py_eq_VStr in Emin.
    destruct (py_min _) as [m | e'] eqn:E; cbn [bind]; [discriminate |].
    intros [= <-].
    destruct (extremum_raises place cur e' Hne (or_intror E)) as [-> ->].
    split; [reflexivity |]. apply orders_commit_time_spec. now right.
Qed.

Lemma loop_raises s places : forall cur e,
  cur <> [] ->
  BInfoMatcher.loop s places cur = Raise e ->
  e = cannot_compare /\ orders_commit_time s.
Proof.
  induction places as [| place rest IH]; intros cur e Hne; [discriminate |].
  cbn [BInfoMatcher.loop].
  destruct (BInfoMatcher.turn s place cur) as [f | e'] eqn:Hturn; cbn [bind].
  - destruct f as [cur' | r]; [| discriminate].
    apply IH.
    apply turn_cases in Hturn.
    destruct Hturn as [[_ [= <-]] | [_ [m [Hf _]]]]; [assumption |].
    destruct (with_field place m cur); [discriminate |].
    cbn [BInfoMatcher.end_of_turn] in Hf. injection Hf as ->. discriminate.
  - intros [= <-]. exact (turn_raises s place cur e' Hne Hturn).
Qed.

(** X17. [match] fails in two ways only.  On the empty catalog, [max] or
    [min] is called on an empty sequence and raises [ValueError].  On a
    catalog that is not empty, the only error is the [TypeError] of the
    comparison of a naive datetime with an aware one, and then the query
    asks for the newest or the oldest commit time and the catalog mixes
    naive and aware commit times. *)
Theorem match_fails_in_two_ways :
  forall (self : BInfoMatcher.t) (s : VersionSearchQuery.t) (e : exn),
    BInfoMatcher.match_ self s = Raise e ->
    (BInfoMatcher.versions self = []
     /\ (e = ValueError "max() arg is an empty sequence"
         \/ e = ValueError "min() arg is an empty sequence"))
    \/ (BInfoMatcher.versions self <> []
        /\ e = cannot_compare
        /\ orders_commit_time s
        /\ ~ comparable_times (BInfoMatcher.versions self)).
Proof.
  intros self s e. unfold BInfoMatcher.match_.
  destruct (BInfoMatcher.versions self) as [| v versions] eqn:Hversions.
  - rewrite loop_on_nothing. intros H. left. split; [reflexivity |].
    destruct (first_filter s BInfoMatcher.places) as [p |]; [| discriminate].
    destruct (py_eq p (VStr "^")); [injection H as <-; now left |].
    destruct (py_eq p (VStr "-")); [injection H as <-; now right |].
    discriminate.
  - intros H. right.
    assert (Hne : v :: versions <> []) by discriminate.
    split; [exact Hne |].
    destruct (loop_raises s _ _ _ Hne H) as [He Horders].
    split; [exact He |]. split; [exact Horders |].
    intros Hcmp.
    destruct (loop_narrows s BInfoMatcher.places (v :: versions) Hne)
      as [out [_ Hloop]]; [auto | congruence].
Qed.

(** A catalog with a naive and an aware commit time, asked for the newest
    build. *)
Lemma match_fails_in_two_ways_witness :
  (BInfoMatcher.versions
     (BInfoMatcher.mk
        [BasicBuildInfo.mk (Version.mk 4 3 0) "daily" ""
           (Iso.datetime_of 2024 7 30 0 0 0 0 Iso.utc);
         BasicBuildInfo.mk (Version.mk 4 3 0) "daily" ""
           (Iso.datetime_of 2024 7 30 0 0 0 0 None)]) = []
   /\ (cannot_compare = ValueError "max() arg is an empty sequence"
       \/ cannot_compare = ValueError "min() arg is an empty sequence"))
  \/ (BInfoMatcher.versions
        (BInfoMatcher.mk
           [BasicBuildInfo.mk (Version.mk 4 3 0) "daily" ""
              (Iso.datetime_of 2024 7 30 0 0 0 0 Iso.utc);
            BasicBuildInfo.mk (Version.mk 4 3 0) "daily" ""
              (Iso.datetime_of 2024 7 30 0 0 0 0 None)]) <> []
      /\ cannot_compare = cannot_compare
      /\ orders_commit_time
           (query (inr "^") (inr "^") (inr "^") None (inr "^"))
      /\ ~ comparable_times
             (BInfoMatcher.versions
                (BInfoMatcher.mk
                   [BasicBuildInfo.mk (Version.mk 4 3 0) "daily" ""
                      (Iso.datetime_of 2024 7 30 0 0 0 0 Iso.utc);
                    BasicBuildInfo.mk (Version.mk 4 3 0) "daily" ""
                      (Iso.datetime_of 2024 7 30 0 0 0 0 None)]))).
Proof.
  apply (match_fails_in_two_ways
           (BInfoMatcher.mk
              [BasicBuildInfo.mk (Version.mk 4 3 0) "daily" ""
                 (Iso.datetime_of 2024 7 30 0 0 0 0 Iso.utc);
               BasicBuildInfo.mk (Version.mk 4 3 0) "daily" ""
                 (Iso.datetime_of 2024 7 30 0 0 0 0 None)])
           (query (inr "^") (inr "^") (inr "^") None (inr "^"))).
  vm_compute. reflexivity.
Defined.

(** ** A catalog made with [from_buildinfo] *)

Lemma built_catalog_comparable local_utcoffset infos :
  comparable_times (map (BasicBuildInfo.from_buildinfo local_utcoffset) infos).
Proof.
  left. intros v Hv. apply in_map_iff in Hv. destruct Hv as [info [<- _]].
  unfold BasicBuildInfo.from_buildinfo, astimezone_utc, aware.
  cbn [BasicBuildInfo.commit_time].
  destruct (utcoffset (BuildInfo.commit_time info)); reflexivity.
Qed.

(** X18. On a catalog that is not empty and whose records are all made with
    [from_buildinfo], [match] returns for every query, also when the
    metadata mixes naive and aware commit times: the conversion to UTC
    removes the one error of [match] on a catalog that is not empty. *)
Theorem match_on_built_catalog_returns :
  forall (local_utcoffset : Z -> Z) (infos : list BuildInfo.t)
         (s : VersionSearchQuery.t),
    infos <> [] ->
    returns
      (BInfoMatcher.match_
         (BInfoMatcher.mk
            (map (BasicBuildInfo.from_buildinfo local_utcoffset) infos))
         s).
Proof.
  intros local_utcoffset infos s Hne. unfold BInfoMatcher.match_.
  cbn [BInfoMatcher.versions].
  destruct (loop_narrows s BInfoMatcher.places
              (map (BasicBuildInfo.from_buildinfo local_utcoffset) infos))
    as [out [_ Hloop]].
  - destruct infos; [congruence | discriminate].
  - intros _. apply built_catalog_comparable.
  - exists out. exact Hloop.
Qed.

(** Metadata with a naive and an aware commit time, the local time being two
    hours ahead of UTC. *)
Lemma match_on_built_catalog_returns_witness :
  returns
    (BInfoMatcher.match_
       (BInfoMatcher.mk
          (map (BasicBuildInfo.from_buildinfo (fun _ => 7200000000))
             [BuildInfo.mk (Version.mk 4 3 0) "daily" None
                (Iso.datetime_of 2024 7 30 0 0 0 0 None);
              BuildInfo.mk (Version.mk 4 3 0) "daily" (Some "cb886aba06d5")
                (Iso.datetime_of 2024 7 30 0 0 0 0 Iso.utc)]))
       (query (inr "^") (inr "^") (inr "^") None (inr "^"))).
Proof.
  apply (match_on_built_catalog_returns (fun _ => 7200000000)
           [BuildInfo.mk (Version.mk 4 3 0) "daily" None
              (Iso.datetime_of 2024 7 30 0 0 0 0 None);
            BuildInfo.mk (Version.mk 4 3 0) "daily" (Some "cb886aba06d5")
              (Iso.datetime_of 2024 7 30 0 0 0 0 Iso.utc)]
           (query (inr "^") (inr "^") (inr "^") None (inr "^"))).
  discriminate.
Defined.
